(** * Universal Markdown Converter: the conversion pipeline

    A shallow embedding of [MarkdownConverter] (universal_md_converter.py):
    the template renderer, the single-file pipeline
    ([convert_md_to_html], [convert_md_to_pdf]), the HTML-to-PDF stage
    ([html_to_pdf_chrome]) and the batch driver ([batch_convert]).

    Python strings are modelled as [string] (their ASCII fragment: the case
    mapping of [str.title] is the ASCII one), [pathlib] paths as the parsed
    pairs of the POSIX flavour of Python 3.11, the file system as an
    ordered association list with the limits Linux puts on the length of
    names, exceptions as values of [exn], and the stateful methods as
    functions [world -> world * result _]. *)

From Stdlib Require Import String Ascii List Bool Arith ZArith Lia.
Import ListNotations.
Open Scope list_scope.
Open Scope string_scope.

(** ** Exceptions and results *)

(** The errno values of the [OSError]s the modelled system calls raise. *)
Inductive os_errno :=
  ENOENT | EEXIST | ENOTDIR | EISDIR | EACCES | ENOEXEC | ENAMETOOLONG.

(** A raised exception: its Python class with the arguments that tell two
    raises of one class apart. *)
Inductive exn :=
| ImportError (msg : string)
| FileNotFoundError (msg : string)
| ValueError (msg : string)
| NotImplementedError (msg : string)
| IndexError (msg : string)
| AttributeError (msg : string)
| OSError (errno : os_errno) (filename : string)
| UnicodeDecodeError (filename : string)
| CalledProcessError (returncode : Z) (cmd : list string)
| TimeoutExpired (cmd : list string) (timeout : nat).

(** The classes named by the [except] clauses of the source. *)
Inductive exc_class :=
| cls_Exception | cls_FileNotFoundError | cls_CalledProcessError
| cls_TimeoutExpired.

(** [isinstance e cls]: an [OSError] belongs to the subclass its errno
    selects, so [OSError ENOENT] is a [FileNotFoundError] and
    [OSError EACCES] (a [PermissionError]) is not. *)
Definition isinstance (e : exn) (c : exc_class) : bool :=
  match c, e with
  | cls_Exception, _ => true
  | cls_FileNotFoundError, FileNotFoundError _ => true
  | cls_FileNotFoundError, OSError ENOENT _ => true
  | cls_CalledProcessError, CalledProcessError _ _ => true
  | cls_TimeoutExpired, TimeoutExpired _ _ => true
  | _, _ => false
  end.

Definition catches (cs : list exc_class) (e : exn) : bool :=
  existsb (isinstance e) cs.

Inductive result (A : Type) :=
| Ok (a : A)
| Raise (e : exn).
Arguments Ok {A} a.
Arguments Raise {A} e.

Definition is_ok {A} (r : result A) : bool :=
  match r with Ok _ => true | Raise _ => false end.

(** ** Strings *)

Definition eqs (a b : string) : bool := String.eqb a b.

Fixpoint contains_char (c : ascii) (s : string) : bool :=
  match s with
  | EmptyString => false
  | String a s' => Ascii.eqb a c || contains_char c s'
  end.

(** [s.startswith(p)] *)
Fixpoint startswith (p s : string) : bool :=
  match p, s with
  | EmptyString, _ => true
  | String a p', String b s' => Ascii.eqb a b && startswith p' s'
  | String _ _, EmptyString => false
  end.

(** Number of positions of [s] at which [pat] starts. *)
Fixpoint count_sub (pat s : string) : nat :=
  match s with
  | EmptyString => 0
  | String _ s' => (if startswith pat s then 1 else 0) + count_sub pat s'
  end.

(** [s.split(sep)] for a one-character separator: never empty. *)
Fixpoint split_on (sep : ascii) (s : string) : list string :=
  match s with
  | EmptyString => [EmptyString]
  | String a s' =>
      if Ascii.eqb a sep then EmptyString :: split_on sep s'
      else match split_on sep s' with
           | [] => [String a EmptyString]
           | w :: ws => String a w :: ws
           end
  end.

(** [sep.join(l)] *)
Fixpoint join (sep : string) (l : list string) : string :=
  match l with
  | [] => EmptyString
  | [x] => x
  | x :: l' => x ++ sep ++ join sep l'
  end.

(** [s.lstrip(c)] *)
Fixpoint lstrip (c : ascii) (s : string) : string :=
  match s with
  | String a s' => if Ascii.eqb a c then lstrip c s' else s
  | EmptyString => EmptyString
  end.

(** [s.rfind(c)], [None] for Python's -1. *)
Fixpoint rfind (c : ascii) (s : string) : option nat :=
  match s with
  | EmptyString => None
  | String a s' =>
      match rfind c s' with
      | Some i => Some (S i)
      | None => if Ascii.eqb a c then Some 0 else None
      end
  end.

(** [s.replace(a, b)] for single characters. *)
Fixpoint replace_char (a b : ascii) (s : string) : string :=
  match s with
  | EmptyString => EmptyString
  | String c s' => String (if Ascii.eqb c a then b else c) (replace_char a b s')
  end.

Definition is_upper (c : ascii) : bool :=
  let n := nat_of_ascii c in ((65 <=? n) && (n <=? 90))%nat.
Definition is_lower (c : ascii) : bool :=
  let n := nat_of_ascii c in ((97 <=? n) && (n <=? 122))%nat.
Definition is_cased (c : ascii) : bool := is_upper c || is_lower c.
Definition to_upper (c : ascii) : ascii :=
  if is_lower c then ascii_of_nat (nat_of_ascii c - 32) else c.
Definition to_lower (c : ascii) : ascii :=
  if is_upper c then ascii_of_nat (nat_of_ascii c + 32) else c.

(** [str.title]: a cased character is upper-cased when the character before
    it is not cased, and lower-cased otherwise.  The cased characters
    here are the letters of ASCII: this is [str.title] on ASCII text.
    Python also cases letters outside ASCII, which the bytes of their
    encoding do not show, so what is proved of a title-cased name is
    stated for names in ASCII. *)
Fixpoint title_from (previous_is_cased : bool) (s : string) : string :=
  match s with
  | EmptyString => EmptyString
  | String c s' =>
      String (if previous_is_cased then to_lower c else to_upper c)
             (title_from (is_cased c) s')
  end.

Definition str_title (s : string) : string := title_from false s.

Fixpoint all_chars (p : ascii -> bool) (s : string) : bool :=
  match s with
  | EmptyString => true
  | String c s' => p c && all_chars p s'
  end.

Definition ascii_only (s : string) : bool :=
  all_chars (fun c => (nat_of_ascii c <? 128)%nat) s.

(** ** pathlib, POSIX flavour *)

Module pathlib.

(** A parsed path: the root ([EmptyString], ["/"] or ["//"]) and the components
    after it. *)
Record path := mkPath { root : string; parts : list string }.

(** [_PosixFlavour.splitroot] *)
Definition splitroot (part : string) : string * string :=
  match part with
  | String "/" _ =>
      let stripped_part := lstrip "/" part in
      if Nat.eqb (String.length part - String.length stripped_part) 2
      then ("//", stripped_part)
      else ("/", stripped_part)
  | _ => (EmptyString, part)
  end.

Definition keep_part (x : string) : bool :=
  negb (eqs x EmptyString) && negb (eqs x ".").

(** [Path(s)]: empty and ["."] components are dropped. *)
Definition Path (s : string) : path :=
  let '(r, rel) := splitroot s in
  mkPath r (filter keep_part (split_on "/" rel)).

(** [str(p)] *)
Definition str (p : path) : string :=
  if eqs (root p) EmptyString then
    match parts p with
    | [] => "."
    | _ => join "/" (parts p)
    end
  else root p ++ join "/" (parts p).

(** [p.name]: the last component, empty when there is none. *)
Definition name (p : path) : string := last (parts p) EmptyString.

(** [p.parent] *)
Definition parent (p : path) : path := mkPath (root p) (removelast (parts p)).

(** The position of the dot that starts the suffix of a name:
    [0 < i < len(name) - 1] for [i = name.rfind('.')]. *)
Definition suffix_index (nm : string) : option nat :=
  match rfind "." nm with
  | Some i =>
      if ((0 <? i) && (i <? String.length nm - 1))%nat then Some i else None
  | None => None
  end.

Definition suffix_of (nm : string) : string :=
  match suffix_index nm with
  | Some i => substring i (String.length nm - i) nm
  | None => EmptyString
  end.

Definition stem_of (nm : string) : string :=
  match suffix_index nm with
  | Some i => substring 0 i nm
  | None => nm
  end.

Definition suffix (p : path) : string := suffix_of (name p).
Definition stem (p : path) : string := stem_of (name p).

Definition path_repr (p : path) : string := "PosixPath('" ++ str p ++ "')".

(** [p.with_suffix(suffix)] *)
Definition with_suffix (p : path) (suffix : string) : result path :=
  if contains_char "/" suffix then
    Raise (ValueError ("Invalid suffix '" ++ suffix ++ "'"))
  else if (negb (eqs suffix EmptyString) && negb (startswith "." suffix))
          || eqs suffix "." then
    Raise (ValueError ("Invalid suffix '" ++ suffix ++ "'"))
  else
    let nm := name p in
    if eqs nm EmptyString then Raise (ValueError (path_repr p ++ " has an empty name"))
    else
      let old_suffix := suffix_of nm in
      let nm' :=
        if eqs old_suffix EmptyString then nm ++ suffix
        else substring 0 (String.length nm - String.length old_suffix) nm
             ++ suffix in
      Ok (mkPath (root p) (removelast (parts p) ++ [nm'])%list).

(** [p / s] *)
Definition joinpath (p : path) (s : string) : path :=
  let q := Path s in
  if eqs (root q) EmptyString then mkPath (root p) (parts p ++ parts q)%list else q.

(** [p.absolute()], with the working directory [cwd]. *)
Definition absolute (cwd : string) (p : path) : path :=
  if eqs (root p) EmptyString then joinpath (Path cwd) (str p) else p.

End pathlib.


Import pathlib.

Definition path_eqb (p q : path) : bool :=
  eqs (root p) (root q)
  && Nat.eqb (List.length (parts p)) (List.length (parts q))
  && forallb (fun xy => eqs (fst xy) (snd xy)) (combine (parts p) (parts q)).

(** A value that is a [str] at some call sites and a [Path] at others
    ([output_file], [pdf_file]); [fspath] is what [str()] and [open()]
    make of it. *)
Inductive pathlike := as_str (s : string) | as_path (p : path).

Definition fspath (x : pathlike) : string :=
  match x with as_str s => s | as_path p => str p end.

(** ** The file system

    Entries in enumeration order, keyed by the normal form [str (Path s)]
    of the name used to reach them.  The working directory and the roots
    always exist.  Symbolic links, [..] and permissions are not modelled. *)

Inductive node := File (content : string) | Dir.

Definition fs := list (string * node).

Definition fs_key (s : string) : string := str (Path s).

Fixpoint assoc (k : string) (f : fs) : option node :=
  match f with
  | [] => None
  | (k', v) :: f' => if eqs k' k then Some v else assoc k f'
  end.

Definition always_dir (k : string) : bool :=
  eqs k "." || eqs k "/" || eqs k "//".

Definition fs_lookup (f : fs) (s : string) : option node :=
  let k := fs_key s in
  if always_dir k then Some Dir else assoc k f.

Fixpoint fs_set (k : string) (v : node) (f : fs) : fs :=
  match f with
  | [] => [(k, v)]
  | (k', v') :: f' =>
      if eqs k' k then (k, v) :: f' else (k', v') :: fs_set k v f'
  end.

Definition fs_remove (k : string) (f : fs) : fs :=
  filter (fun kv => negb (eqs (fst kv) k)) f.

(** [Path.exists] / [Path.is_dir] *)
Definition exists_ (f : fs) (s : string) : bool :=
  match fs_lookup f s with Some _ => true | None => false end.

Definition is_dir (f : fs) (s : string) : bool :=
  match fs_lookup f s with Some Dir => true | _ => false end.

Definition is_file (f : fs) (s : string) : bool :=
  match fs_lookup f s with Some (File _) => true | _ => false end.

Definition parent_of (s : string) : string := str (parent (Path s)).

(** The limits of the file system, as on Linux: a name holds at most
    [NAME_MAX] bytes and a path fewer than [PATH_MAX].  The kernel walks
    a path from its root; where a directory is asked for a name that is
    too long, the call fails with [ENAMETOOLONG], whereas a name missing
    from a directory, or looked up in what is not a directory, ends the
    walk before any later name is seen. *)
Definition NAME_MAX : nat := 255.
Definition PATH_MAX : nat := 4096.

Fixpoint name_too_long_from (f : fs) (r : string) (done todo : list string)
  : bool :=
  match todo with
  | [] => false
  | x :: rest =>
      match fs_lookup f (str (mkPath r done)) with
      | Some Dir =>
          (NAME_MAX <? String.length x)%nat
          || name_too_long_from f r (done ++ [x])%list rest
      | _ => false
      end
  end.

(** The lookup of a path that is not there fails with [ENAMETOOLONG]
    rather than [ENOENT] or [ENOTDIR]. *)
Definition lookup_refused (f : fs) (s : string) : bool :=
  (PATH_MAX <=? String.length s)%nat
  || name_too_long_from f (root (Path s)) [] (parts (Path s)).

Definition absent_errno (f : fs) (s : string) : os_errno :=
  if lookup_refused f s then ENAMETOOLONG else ENOENT.

(** A new entry cannot be made in its directory under this name. *)
Definition creation_refused (s : string) : bool :=
  (PATH_MAX <=? String.length s)%nat
  || (NAME_MAX <? String.length (name (Path s)))%nat.

(** ** UTF-8 text files *)

(** The ranges the continuation bytes must lie in, by lead byte. *)
Definition utf8_lead (n : nat) : option (list (nat * nat)) :=
  (if n <=? 127 then Some []
   else if (194 <=? n) && (n <=? 223) then Some [(128, 191)]
   else if n =? 224 then Some [(160, 191); (128, 191)]
   else if (225 <=? n) && (n <=? 236) then Some [(128, 191); (128, 191)]
   else if n =? 237 then Some [(128, 159); (128, 191)]
   else if (238 <=? n) && (n <=? 239) then Some [(128, 191); (128, 191)]
   else if n =? 240 then Some [(144, 191); (128, 191); (128, 191)]
   else if (241 <=? n) && (n <=? 243)
     then Some [(128, 191); (128, 191); (128, 191)]
   else if n =? 244 then Some [(128, 143); (128, 191); (128, 191)]
   else None)%nat.

Fixpoint utf8_valid_from (need : list (nat * nat)) (s : string) : bool :=
  match s with
  | EmptyString => match need with [] => true | _ => false end
  | String c s' =>
      let n := nat_of_ascii c in
      match need with
      | (lo, hi) :: need' =>
          ((lo <=? n) && (n <=? hi))%nat && utf8_valid_from need' s'
      | [] =>
          match utf8_lead n with
          | Some need' => utf8_valid_from need' s'
          | None => false
          end
      end
  end.

(** Universal newlines on reading: ["\r\n"] and ["\r"] become ["\n"]. *)
Fixpoint universal_newlines (s : string) : string :=
  match s with
  | EmptyString => EmptyString
  | String c s' =>
      if Ascii.eqb c "013" then
        match s' with
        | String "010" s'' => String "010" (universal_newlines s'')
        | _ => String "010" (universal_newlines s')
        end
      else String c (universal_newlines s')
  end.

(** Strict decoding of the bytes of a file opened with
    [encoding='utf-8']; text is kept in its UTF-8 form. *)
Definition decode_utf8 (bytes : string) : option string :=
  if utf8_valid_from [] bytes then Some (universal_newlines bytes) else None.

(** ** The world and the external collaborators *)

(** Lines written by [print]. *)
Inductive line :=
| line_converted (name out_name : string)
| line_error (name : string) (e : exn)
| line_chrome_not_found (html_file : string)
| line_pdf_hint (html_file : string).

Inductive event :=
| ev_read (filename : string)
| ev_write (filename : string)
| ev_unlink (filename : string)
| ev_mkdir (filename : string)
| ev_run (cmd : list string)
| ev_browser (url : string)
| ev_print (l : line).

Record world := mkWorld { files : fs; journal : list event }.

Definition log (e : event) (w : world) : world :=
  mkWorld (files w) (journal w ++ [e])%list.

Definition set_files (f : fs) (w : world) : world := mkWorld f (journal w).

(** What a child process did: it exited with a return code, having
    created or overwritten some files, or [subprocess.run] raised. *)
Inductive proc_outcome :=
| Completed (returncode : Z) (written : list (string * string))
| Failed (e : exn).

Record datetime :=
  mkDatetime { year : nat; month : nat; day : nat; hour : nat; minute : nat }.

(** The collaborators outside the repository. *)
Record Env := mkEnv {
  (** the module global set by [import markdown] *)
  MARKDOWN_AVAILABLE : bool;
  (** [markdown.Markdown(extensions=...).convert] *)
  markdown_convert : list string -> string -> string;
  (** [datetime.now()] *)
  now : datetime;
  (** [os.getcwd()] *)
  getcwd : string;
  (** the operating system running [cmd] under a timeout *)
  spawn : list string -> nat -> fs -> proc_outcome;
  (** [webbrowser.open]: the exception it raises, if any *)
  webbrowser_open : string -> option exn;
  (** [fnmatch] of a file name against a one-component pattern *)
  fnmatch : string -> string -> bool
}.

(** ** The monad of the stateful methods *)

Definition M (A : Type) : Type := world -> world * result A.

Definition ret {A} (a : A) : M A := fun w => (w, Ok a).

Definition raise {A} (e : exn) : M A := fun w => (w, Raise e).

Definition bind {A B} (c : M A) (k : A -> M B) : M B :=
  fun w =>
    match c w with
    | (w', Ok a) => k a w'
    | (w', Raise e) => (w', Raise e)
    end.

Notation "x <- c ;; k" := (bind c (fun x => k))
  (at level 61, c at next level, right associativity).
Notation "c ;;; k" := (bind c (fun _ => k))
  (at level 61, right associativity).

(** [try: c  except: h e] *)
Definition try_except {A} (c : M A) (h : exn -> M A) : M A :=
  fun w =>
    match c w with
    | (w', Ok a) => (w', Ok a)
    | (w', Raise e) => h e w'
    end.

Definition lift {A} (r : result A) : M A := fun w => (w, r).

Definition emit (e : event) : M unit := fun w => (log e w, Ok tt).

Definition print (l : line) : M unit := emit (ev_print l).

(** ** System calls *)

(** [open(filename, 'r', encoding='utf-8')] followed by [f.read()] *)
Definition open_read (filename : string) : M string :=
  fun w =>
    match fs_lookup (files w) filename with
    | None => (w, Raise (OSError (absent_errno (files w) filename) filename))
    | Some Dir => (w, Raise (OSError EISDIR filename))
    | Some (File bytes) =>
        match decode_utf8 bytes with
        | Some text => (log (ev_read filename) w, Ok text)
        | None => (log (ev_read filename) w, Raise (UnicodeDecodeError filename))
        end
    end.

(** [open(filename, 'w', encoding='utf-8')] followed by [f.write(text)],
    for text that UTF-8 encodes.  Text is held as its bytes; where these
    are not UTF-8, as in a page titled after a file name that is not,
    [f.write] raises [UnicodeEncodeError] and leaves the file that [open]
    made or emptied: that failure is not modelled. *)
Definition open_write (filename text : string) : M unit :=
  fun w =>
    match fs_lookup (files w) (parent_of filename) with
    | None => (w, Raise (OSError (absent_errno (files w) filename) filename))
    | Some (File _) => (w, Raise (OSError ENOTDIR filename))
    | Some Dir =>
        let written :=
          (log (ev_write filename)
             (set_files (fs_set (fs_key filename) (File text) (files w)) w),
           Ok tt) in
        match fs_lookup (files w) filename with
        | Some Dir => (w, Raise (OSError EISDIR filename))
        | Some (File _) => written
        | None =>
            if creation_refused filename
            then (w, Raise (OSError ENAMETOOLONG filename))
            else written
        end
    end.

(** [p.exists()]: [stat] with [ENOENT] and [ENOTDIR] read as absence; any
    other error, here [ENAMETOOLONG], is raised. *)
Definition path_exists (p : path) : M bool :=
  fun w =>
    if exists_ (files w) (str p) then (w, Ok true)
    else if lookup_refused (files w) (str p)
    then (w, Raise (OSError ENAMETOOLONG (str p)))
    else (w, Ok false).

(** [Path.exists] and [Path.is_dir] on a file system that does not
    change meanwhile, as [glob] calls them: the errors of [stat] that
    are not about a missing entry are raised again. *)
Definition stat_exists (f : fs) (p : path) : result bool :=
  if exists_ f (str p) then Ok true
  else if lookup_refused f (str p) then Raise (OSError ENAMETOOLONG (str p))
  else Ok false.

Definition stat_is_dir (f : fs) (p : path) : result bool :=
  if exists_ f (str p) then Ok (is_dir f (str p))
  else if lookup_refused f (str p) then Raise (OSError ENAMETOOLONG (str p))
  else Ok false.

(** [os.unlink(filename)] *)
Definition os_unlink (filename : string) : M unit :=
  fun w =>
    match fs_lookup (files w) filename with
    | None => (w, Raise (OSError (absent_errno (files w) filename) filename))
    | Some Dir => (w, Raise (OSError EISDIR filename))
    | Some (File _) =>
        (log (ev_unlink filename)
           (set_files (fs_remove (fs_key filename) (files w)) w),
         Ok tt)
    end.

(** [os.mkdir(filename)] *)
Definition os_mkdir (filename : string) : M unit :=
  fun w =>
    match fs_lookup (files w) (parent_of filename) with
    | None => (w, Raise (OSError (absent_errno (files w) filename) filename))
    | Some (File _) => (w, Raise (OSError ENOTDIR filename))
    | Some Dir =>
        match fs_lookup (files w) filename with
        | Some _ => (w, Raise (OSError EEXIST filename))
        | None =>
            if creation_refused filename
            then (w, Raise (OSError ENAMETOOLONG filename))
            else
              (log (ev_mkdir filename)
                 (set_files (fs_set (fs_key filename) Dir (files w)) w),
               Ok tt)
        end
    end.

(** [Path.mkdir(parents=False, exist_ok=exist_ok)]: an [OSError] is
    forgiven when [exist_ok] holds and the path is a directory. *)
Definition mkdir_single (p : path) (exist_ok : bool) : M unit :=
  try_except (os_mkdir (str p))
    (fun e w =>
       if negb exist_ok || negb (is_dir (files w) (str p))
       then (w, Raise e) else (w, Ok tt)).

(** [Path.mkdir(parents=True, exist_ok=exist_ok)] on the path with root
    [r] and components [rev rparts]: on [FileNotFoundError] the parent is
    made first (with [parents=True, exist_ok=True]) and the directory is
    then made with [parents=False].  The recursion on [self.parent] is the
    recursion on the tail of the reversed components. *)
Fixpoint mkdir_parents (r : string) (rparts : list string) (exist_ok : bool)
  : M unit :=
  let p := mkPath r (rev rparts) in
  try_except (os_mkdir (str p))
    (fun e =>
       if isinstance e cls_FileNotFoundError then
         match rparts with
         | [] => raise e
         | _ :: rparent =>
             mkdir_parents r rparent true ;;;
             mkdir_single p exist_ok
         end
       else
         fun w =>
           if negb exist_ok || negb (is_dir (files w) (str p))
           then (w, Raise e) else (w, Ok tt)).

(** [p.mkdir(parents=parents, exist_ok=exist_ok)] *)
Definition mkdir (p : path) (parents exist_ok : bool) : M unit :=
  if parents then mkdir_parents (root p) (rev (parts p)) exist_ok
  else mkdir_single p exist_ok.

(** The files a child process wrote reach the file system where a file
    can be written; a process removes nothing. *)
Fixpoint apply_writes (written : list (string * string)) (f : fs) : fs :=
  match written with
  | [] => f
  | (filename, bytes) :: rest =>
      let f' :=
        match fs_lookup f (parent_of filename), fs_lookup f filename with
        | Some Dir, Some Dir => f
        | Some Dir, _ => fs_set (fs_key filename) (File bytes) f
        | _, _ => f
        end in
      apply_writes rest f'
  end.

(** ** [str.format] and [strftime] *)

Fixpoint lookup_kw (k : string) (kw : list (string * string)) : option string :=
  match kw with
  | [] => None
  | (k', v) :: kw' => if eqs k' k then Some v else lookup_kw k kw'
  end.

(** [str.format] with keyword arguments, for templates whose fields are
    plain names.  The scanner is in plain text, just after a brace that
    may turn out to be doubled, or inside a field whose name it collects. *)
Inductive fmt_state :=
| fmt_text
| fmt_open
| fmt_close
| fmt_field (name : string).

Fixpoint format_from (st : fmt_state) (template : string)
    (kw : list (string * string)) : result string :=
  match template with
  | EmptyString =>
      match st with
      | fmt_text => Ok EmptyString
      | fmt_close => Raise (ValueError "Single '}' encountered in format string")
      | fmt_open => Raise (ValueError "Single '{' encountered in format string")
      | fmt_field _ => Raise (ValueError "expected '}' before end of string")
      end
  | String c rest =>
      let emit (c : ascii) (st' : fmt_state) :=
        match format_from st' rest kw with
        | Ok out => Ok (String c out)
        | Raise e => Raise e
        end in
      let field_end (name : string) :=
        match lookup_kw name kw with
        | None => Raise (ValueError ("KeyError: '" ++ name ++ "'"))
        | Some v =>
            match format_from fmt_text rest kw with
            | Ok out => Ok (v ++ out)
            | Raise e => Raise e
            end
        end in
      match st with
      | fmt_text =>
          if Ascii.eqb c "{" then format_from fmt_open rest kw
          else if Ascii.eqb c "}" then format_from fmt_close rest kw
          else emit c fmt_text
      | fmt_open =>
          if Ascii.eqb c "{" then emit c fmt_text
          else if Ascii.eqb c "}" then field_end EmptyString
          else format_from (fmt_field (String c EmptyString)) rest kw
      | fmt_close =>
          if Ascii.eqb c "}" then emit c fmt_text
          else Raise (ValueError "Single '}' encountered in format string")
      | fmt_field name =>
          if Ascii.eqb c "}" then field_end name
          else format_from (fmt_field (name ++ String c EmptyString)) rest kw
      end
  end.

Definition format (template : string) (kw : list (string * string))
  : result string := format_from fmt_text template kw.

Definition digit (n : nat) : ascii := ascii_of_nat (48 + n mod 10).

Definition pad2 (n : nat) : string :=
  String (digit (n / 10)) (String (digit n) EmptyString).

Definition pad4 (n : nat) : string :=
  String (digit (n / 1000)) (String (digit (n / 100)) (pad2 n)).

(** [d.strftime("%Y-%m-%d %H:%M")] *)
Definition strftime (d : datetime) : string :=
  pad4 (year d) ++ "-" ++ pad2 (month d) ++ "-" ++ pad2 (day d)
  ++ " " ++ pad2 (hour d) ++ ":" ++ pad2 (minute d).

(** ** MarkdownConverter *)

Definition dq : string := String (ascii_of_nat 34) EmptyString.

Definition _create_css_template : string :=
  "
        body {
            font-family: 'Segoe UI', Tahoma, Geneva, Verdana, sans-serif;
            line-height: 1.6;
            color: #333;
            max-width: 1200px;
            margin: 0 auto;
            padding: 20px;
            background-color: #fff;
        }

        h1, h2, h3, h4, h5, h6 {
            color: #2c3e50;
            margin-top: 1.5em;
            margin-bottom: 0.5em;
            font-weight: bold;
            page-break-after: avoid;
        }

        h1 {
            font-size: 2.2em;
            border-bottom: 3px solid #3498db;
            padding-bottom: 0.3em;
        }

        h2 {
            font-size: 1.8em;
            border-bottom: 2px solid #95a5a6;
            padding-bottom: 0.2em;
        }

        h3 { font-size: 1.4em; color: #34495e; }
        h4 { font-size: 1.2em; color: #34495e; }

        p {
            margin-bottom: 1em;
            text-align: justify;
        }

        ul, ol {
            margin-bottom: 1em;
            padding-left: 2em;
        }

        li { margin-bottom: 0.3em; }

        table {
            border-collapse: collapse;
            width: 100%;
            margin: 1em 0;
            font-size: 0.9em;
            box-shadow: 0 2px 4px rgba(0,0,0,0.1);
            page-break-inside: avoid;
        }

        th, td {
            border: 1px solid #ddd;
            padding: 12px 15px;
            text-align: left;
            vertical-align: top;
        }

        th {
            background: linear-gradient(135deg, #667eea 0%, #764ba2 100%);
            color: white;
            font-weight: bold;
        }

        tr:nth-child(even) { background-color: #f8f9fa; }
        tr:hover { background-color: #e8f4fd; }

        code {
            background-color: #f4f4f4;
            padding: 2px 6px;
            border-radius: 4px;
            font-family: 'Courier New', Consolas, monospace;
            font-size: 0.9em;
            color: #e74c3c;
            border: 1px solid #e1e1e1;
        }

        pre {
            background-color: #f8f8f8;
            border: 1px solid #ddd;
            border-radius: 6px;
            padding: 1.2em;
            overflow-x: auto;
            margin: 1em 0;
            box-shadow: inset 0 1px 3px rgba(0,0,0,0.1);
            page-break-inside: avoid;
        }

        pre code {
            background-color: transparent;
            padding: 0;
            color: #333;
            border: none;
        }

        blockquote {
            border-left: 4px solid #3498db;
            margin: 1em 0;
            padding: 1em 1em 1em 2em;
            color: #666;
            font-style: italic;
            background-color: #f9f9f9;
            border-radius: 0 4px 4px 0;
        }

        a {
            color: #3498db;
            text-decoration: none;
            transition: color 0.3s ease;
        }

        a:hover {
            color: #2980b9;
            text-decoration: underline;
        }

        hr {
            border: none;
            border-top: 2px solid #ecf0f1;
            margin: 2em 0;
        }

        strong, b { font-weight: bold; color: #2c3e50; }
        em, i { font-style: italic; }

        .status-complete { color: #27ae60; font-weight: bold; }
        .status-progress { color: #f39c12; font-weight: bold; }
        .status-pending { color: #95a5a6; font-weight: bold; }

        @media print {
            body { font-size: 12pt; line-height: 1.4; }
            h1, h2, h3 { page-break-after: avoid; }
            table, pre { page-break-inside: avoid; }
        }

        @media (max-width: 768px) {
            body { padding: 10px; }
            table { font-size: 0.8em; }
            th, td { padding: 8px 10px; }
        }
        ".

Definition _create_html_template : string :=
  "<!DOCTYPE html>
<html lang=" ++ dq ++ "en" ++ dq ++ ">
<head>
    <meta charset=" ++ dq ++ "UTF-8" ++ dq ++ ">
    <meta name=" ++ dq ++ "viewport" ++ dq ++ " content=" ++ dq ++ "width=device-width, initial-scale=1.0" ++ dq ++ ">
    <title>{title}</title>
    <style>{css}</style>
</head>
<body>
    {header_section}
    <div class=" ++ dq ++ "content" ++ dq ++ ">
        {content}
    </div>
    {footer_section}
</body>
</html>".

Definition _create_header_section (title date : string) : string :=
  "    <div class=" ++ dq ++ "header" ++ dq ++ ">
        <h1 class=" ++ dq ++ "document-title" ++ dq ++ ">" ++ title ++ "</h1>
        <p class=" ++ dq ++ "document-meta" ++ dq ++ ">Generated on " ++ date ++ " | <a href=" ++ dq ++ "#" ++ dq ++ " onclick=" ++ dq ++ "window.print()" ++ dq ++ ">Print to PDF</a></p>
    </div>".

Definition _create_footer_section : string :=
  "    <div class=" ++ dq ++ "footer" ++ dq ++ ">
        <hr>
        <p style=" ++ dq ++ "text-align: center; color: #666; font-size: 0.9em;" ++ dq ++ ">
            Converted with Universal Markdown Converter
        </p>
    </div>".

(** [self.css_template] and [self.html_template], set by [__init__]. *)
Definition css_template : string := _create_css_template.
Definition html_template : string := _create_html_template.

Definition extensions : list string :=
  [ "markdown.extensions.tables";
    "markdown.extensions.fenced_code";
    "markdown.extensions.codehilite";
    "markdown.extensions.toc";
    "markdown.extensions.attr_list";
    "markdown.extensions.def_list";
    "markdown.extensions.footnotes" ].

Definition chrome_paths : list string :=
  [ "chrome"; "google-chrome"; "chromium"; "chromium-browser";
    "C:\Program Files\Google\Chrome\Application\chrome.exe";
    "C:\Program Files (x86)\Google\Chrome\Application\chrome.exe";
    "/Applications/Google Chrome.app/Contents/MacOS/Google Chrome" ].

Section Converter.

Variable E : Env.

(** [input_path.stem.replace('_', ' ').title()] *)
Definition document_title (input_path : path) : string :=
  str_title (replace_char "_" " " (stem input_path)).

(** [if output_file is None: output_file = input_path.with_suffix(suffix)] *)
Definition default_output (input_path : path) (suffix : string)
    (output_file : option pathlike) : result pathlike :=
  match output_file with
  | None =>
      match with_suffix input_path suffix with
      | Ok p => Ok (as_path p)
      | Raise e => Raise e
      end
  | Some o => Ok o
  end.

(** The document built from the text read (lines 245-280): the engine's
    body, the optional header and footer, the filled template. *)
Definition full_html (input_path : path) (md_content : string)
    (include_headers : bool) : result string :=
  let html_content := markdown_convert E extensions md_content in
  let '(header_section, footer_section) :=
    if include_headers then
      (_create_header_section (document_title input_path) (strftime (now E)),
       _create_footer_section)
    else (EmptyString, EmptyString) in
  format html_template
    [ ("title", document_title input_path);
      ("css", css_template);
      ("content", html_content);
      ("header_section", header_section);
      ("footer_section", footer_section) ].

Definition convert_md_to_html (input_file : string)
    (output_file : option pathlike) (include_headers : bool) : M string :=
  if negb (MARKDOWN_AVAILABLE E) then
    raise (ImportError
             "Markdown library not available. Install with: pip install markdown")
  else
    let input_path := Path input_file in
    there <- path_exists input_path ;;
    if negb there then
      raise (FileNotFoundError ("Input file not found: " ++ input_file))
    else
      output_file <- lift (default_output input_path ".html" output_file) ;;
      md_content <- open_read (str input_path) ;;
      full_html <- lift (full_html input_path md_content include_headers) ;;
      open_write (fspath output_file) full_html ;;;
      ret (fspath output_file).

(** [subprocess.run(cmd, check=check, timeout=timeout)]: the return code. *)
Definition subprocess_run (cmd : list string) (check : bool) (timeout : nat)
  : M Z :=
  fun w =>
    let w := log (ev_run cmd) w in
    match spawn E cmd timeout (files w) with
    | Failed e => (w, Raise e)
    | Completed returncode written =>
        let w' := set_files (apply_writes written (files w)) w in
        if check && negb (Z.eqb returncode 0)
        then (w', Raise (CalledProcessError returncode cmd))
        else (w', Ok returncode)
    end.

(** One turn of the loop over [chrome_paths]: [Some true] for
    [return True], [None] for falling through to the next candidate. *)
Definition try_chrome (chrome_path html_file : string) (pdf_file : pathlike)
  : M (option bool) :=
  try_except
    (subprocess_run [chrome_path; "--version"] true 5 ;;;
     let cmd :=
       [ chrome_path; "--headless"; "--disable-gpu";
         "--print-to-pdf=" ++ fspath pdf_file;
         "--print-to-pdf-no-header";
         "--no-margins"; html_file ] in
     returncode <- subprocess_run cmd false 30 ;;
     if Z.eqb returncode 0 then ret (Some true) else ret None)
    (fun e =>
       if catches [cls_CalledProcessError; cls_FileNotFoundError;
                   cls_TimeoutExpired] e
       then ret None
       else raise e).

Fixpoint html_to_pdf_scan (candidates : list string) (html_file : string)
    (pdf_file : pathlike) : M bool :=
  match candidates with
  | [] => ret false
  | chrome_path :: rest =>
      r <- try_chrome chrome_path html_file pdf_file ;;
      match r with
      | Some b => ret b
      | None => html_to_pdf_scan rest html_file pdf_file
      end
  end.

Definition html_to_pdf_chrome (html_file : string) (pdf_file : pathlike)
  : M bool :=
  html_to_pdf_scan chrome_paths html_file pdf_file.

(** [webbrowser.open(url)] *)
Definition webbrowser_open_ (url : string) : M unit :=
  emit (ev_browser url) ;;;
  match webbrowser_open E url with
  | Some e => raise e
  | None => ret tt
  end.

Definition convert_md_to_pdf (input_file : string)
    (output_file : option pathlike) (include_headers : bool) : M string :=
  let input_path := Path input_file in
  output_file <- lift (default_output input_path ".pdf" output_file) ;;
  html_file <- convert_md_to_html input_file None include_headers ;;
  ok <- html_to_pdf_chrome html_file output_file ;;
  if ok : bool then
    try_except (os_unlink html_file) (fun _ => ret tt) ;;;
    ret (fspath output_file)
  else
    print (line_chrome_not_found html_file) ;;;
    print (line_pdf_hint html_file) ;;;
    try_except
      (webbrowser_open_
         ("file://" ++ str (absolute (getcwd E) (Path html_file))))
      (fun _ => ret tt) ;;;
    ret html_file.

(** *** [Path.glob]

    [Path.glob] of Python 3.11 parses the pattern into components,
    builds a chain of selectors from them, one per component, and asks
    the first to select from the path.  [list(...)] runs the generator to
    its end, so an exception raised on the way leaves no list. *)

(** [os.scandir(parent_path)]: the names of the entries of the directory
    with what they are, in enumeration order. *)
Definition scandir (f : fs) (parent_path : path) : list (string * node) :=
  map (fun kv => (name (Path (fst kv)), snd kv))
    (filter
       (fun kv =>
          let q := Path (fst kv) in
          negb (eqs (name q) EmptyString) && path_eqb (parent q) parent_path)
       f).

Definition entry_is_dir (entry : string * node) : bool :=
  match snd entry with Dir => true | File _ => false end.

(** [parent_path._make_child_relpath(name)] *)
Definition make_child_relpath (parent_path : path) (name : string) : path :=
  mkPath (root parent_path) (parts parent_path ++ [name])%list.

(** The selectors: [dironly] holds when components follow. *)
Inductive selector :=
| TerminatingSelector
| PreciseSelector (name : string) (dironly : bool) (successor : selector)
| WildcardSelector (pat : string) (dironly : bool) (successor : selector)
| RecursiveWildcardSelector (dironly : bool) (successor : selector).

(** [_is_wildcard_pattern] *)
Definition is_wildcard_pattern (pat : string) : bool :=
  contains_char "*" pat || contains_char "?" pat || contains_char "[" pat.

(** [_make_selector(pattern_parts)]; [_Selector.__init__] makes the
    successor from the components that follow, or ends the chain. *)
Fixpoint make_selector (pattern_parts : list string) : result selector :=
  match pattern_parts with
  | [] => Raise (IndexError "tuple index out of range")
  | pat :: child_parts =>
      let dironly :=
        match child_parts with [] => false | _ => true end in
      let successor :=
        match child_parts with
        | [] => Ok TerminatingSelector
        | _ => make_selector child_parts
        end in
      let init (cls : bool -> selector -> selector) :=
        match successor with
        | Ok s => Ok (cls dironly s)
        | Raise e => Raise e
        end in
      if eqs pat EmptyString then Ok TerminatingSelector
      else if eqs pat "**" then init RecursiveWildcardSelector
      else if (0 <? count_sub "**" pat)%nat then
        Raise (ValueError
                 "Invalid pattern: '**' can only be an entire path component")
      else if is_wildcard_pattern pat then init (WildcardSelector pat)
      else init (PreciseSelector pat)
  end.

(** [s.endswith(c)] for one character. *)
Fixpoint ends_with_char (c : ascii) (s : string) : bool :=
  match s with
  | EmptyString => false
  | String a EmptyString => Ascii.eqb a c
  | String _ s' => ends_with_char c s'
  end.

(** The components of a relative pattern, with an empty one at the end
    when the pattern ends with a separator. *)
Definition pattern_parts (pattern : string) : list string :=
  (parts (Path pattern)
   ++ (if ends_with_char "/" pattern then [EmptyString] else []))%list.

(** The paths selected from each starting point in turn. *)
Fixpoint select_each (select : path -> result (list path))
    (starting_points : list path) : result (list path) :=
  match starting_points with
  | [] => Ok []
  | p :: rest =>
      match select p with
      | Raise e => Raise e
      | Ok found =>
          match select_each select rest with
          | Raise e => Raise e
          | Ok more => Ok (found ++ more)%list
          end
      end
  end.

(** [_RecursiveWildcardSelector._iterate_directories]: the directory, then
    the directories below each of its entries that is one.  A nest of
    directories is no deeper than the file system has entries, which is
    what [depth] is given as. *)
Fixpoint iterate_directories (depth : nat) (f : fs) (parent_path : path)
  : list path :=
  parent_path ::
  match depth with
  | O => []
  | S depth' =>
      flat_map
        (fun entry =>
           if entry_is_dir entry
           then iterate_directories depth' f
                  (make_child_relpath parent_path (fst entry))
           else [])
        (scandir f parent_path)
  end.

(** The paths not [yielded] before, each once. *)
Fixpoint unique (yielded : list path) (ps : list path) : list path :=
  match ps with
  | [] => []
  | p :: rest =>
      if existsb (path_eqb p) yielded then unique yielded rest
      else p :: unique (p :: yielded) rest
  end.

(** [selector._select_from(parent_path, ...)], listed. *)
Fixpoint _select_from (f : fs) (s : selector) (parent_path : path)
  : result (list path) :=
  match s with
  | TerminatingSelector => Ok [parent_path]
  | PreciseSelector name dironly successor =>
      let path := make_child_relpath parent_path name in
      match (if dironly then stat_is_dir f path else stat_exists f path) with
      | Raise e => Raise e
      | Ok true => _select_from f successor path
      | Ok false => Ok []
      end
  | WildcardSelector pat dironly successor =>
      select_each (_select_from f successor)
        (map (fun entry => make_child_relpath parent_path (fst entry))
           (filter
              (fun entry =>
                 (negb dironly || entry_is_dir entry)
                 && fnmatch E (fst entry) pat)
              (scandir f parent_path)))
  | RecursiveWildcardSelector dironly successor =>
      match select_each (_select_from f successor)
              (iterate_directories (List.length f) f parent_path) with
      | Raise e => Raise e
      | Ok found => Ok (unique [] found)
      end
  end.

(** The selector [Path.glob] makes for a pattern and can select from.
    An empty pattern and a rooted one are refused, a pattern with no
    component has no first component to make a selector from, and the
    selector that ends a chain has no [select_from] to call. *)
Definition glob_selector (pattern : string) : result selector :=
  if eqs pattern EmptyString then
    Raise (ValueError "Unacceptable pattern: ''")
  else if negb (eqs (root (Path pattern)) EmptyString) then
    Raise (NotImplementedError "Non-relative patterns are unsupported")
  else
    match make_selector (pattern_parts pattern) with
    | Raise e => Raise e
    | Ok TerminatingSelector =>
        Raise (AttributeError
                 "'_TerminatingSelector' object has no attribute 'select_from'")
    | Ok selector => Ok selector
    end.

(** [list(input_path.glob(pattern))]; [select_from] selects nothing from
    what is not a directory.  A component [..] of a pattern is looked up
    like any other name. *)
Definition glob (f : fs) (input_path : path) (pattern : string)
  : result (list path) :=
  match glob_selector pattern with
  | Raise e => Raise e
  | Ok selector =>
      match stat_is_dir f input_path with
      | Raise e => Raise e
      | Ok false => Ok []
      | Ok true => _select_from f selector input_path
      end
  end.

(** The body of the [try] of the loop of [batch_convert]. *)
Definition convert_one (output_path : path) (to_pdf include_headers : bool)
    (md_file : path) : M string :=
  if to_pdf then
    let output_file := joinpath output_path (stem md_file ++ ".pdf") in
    convert_md_to_pdf (str md_file) (Some (as_str (str output_file)))
      include_headers
  else
    let output_file := joinpath output_path (stem md_file ++ ".html") in
    convert_md_to_html (str md_file) (Some (as_str (str output_file)))
      include_headers.

(** The [for] loop of [batch_convert], [results] being the list built so
    far. *)
Fixpoint batch_loop (output_path : path) (to_pdf include_headers : bool)
    (md_files : list path) (results : list string) : M (list string) :=
  match md_files with
  | [] => ret results
  | md_file :: rest =>
      results' <-
        try_except
          (result <- convert_one output_path to_pdf include_headers md_file ;;
           let results := (results ++ [result])%list in
           print (line_converted (name md_file) (name (Path result))) ;;;
           ret results)
          (fun e =>
             if isinstance e cls_Exception then
               print (line_error (name md_file) e) ;;; ret results
             else raise e) ;;
      batch_loop output_path to_pdf include_headers rest results'
  end.

(** Lines 352-356: the output directory is the input directory, or the
    one given, made with its parents if need be. *)
Definition output_directory (input_path : path) (output_dir : option string)
  : M path :=
  match output_dir with
  | None => ret input_path
  | Some d =>
      let output_path := Path d in
      mkdir output_path true true ;;; ret output_path
  end.

Definition batch_convert (input_dir : string) (output_dir : option string)
    (to_pdf : bool) (pattern : string) (include_headers : bool)
  : M (list string) :=
  let input_path := Path input_dir in
  there <- path_exists input_path ;;
  if negb there then
    raise (ValueError ("Input directory not found: " ++ input_dir))
  else
    output_path <- output_directory input_path output_dir ;;
    md_files <- (fun w => (w, glob (files w) input_path pattern)) ;;
    match md_files with
    | [] => ret []
    | _ => batch_loop output_path to_pdf include_headers md_files []
    end.

End Converter.

(** ** Sample collaborators and worlds *)

(** A matcher for patterns made of literal characters, [*] and [?]. *)
Fixpoint fnmatch_simple (pat name : string) : bool :=
  match pat with
  | EmptyString => eqs name EmptyString
  | String "*" pat' =>
      (fix star (n : string) : bool :=
         fnmatch_simple pat' n
         || match n with
            | EmptyString => false
            | String _ n' => star n'
            end) name
  | String "?" pat' =>
      match name with
      | String _ name' => fnmatch_simple pat' name'
      | EmptyString => false
      end
  | String c pat' =>
      match name with
      | String d name' => Ascii.eqb c d && fnmatch_simple pat' name'
      | EmptyString => false
      end
  end.

(** An engine that wraps its input in one paragraph, as Python-Markdown
    does with a single line of plain words. *)
Definition paragraph_engine (_ : list string) (text : string) : string :=
  "<p>" ++ text ++ "</p>".

(** No candidate is installed: every command is a [FileNotFoundError]. *)
Definition no_browser (cmd : list string) (_ : nat) (_ : fs) : proc_outcome :=
  Failed (OSError ENOENT (hd EmptyString cmd)).

Fixpoint print_to_pdf_target (cmd : list string) : option string :=
  match cmd with
  | [] => None
  | a :: cmd' =>
      if startswith "--print-to-pdf=" a
      then Some (substring 15 (String.length a - 15) a)
      else print_to_pdf_target cmd'
  end.

(** Only [chromium] is installed, and it prints. *)
Definition chromium_only (cmd : list string) (_ : nat) (_ : fs)
  : proc_outcome :=
  if eqs (hd EmptyString cmd) "chromium" then
    match print_to_pdf_target cmd with
    | Some target => Completed 0 [(target, "%PDF-1.4")]
    | None => Completed 0 []
    end
  else Failed (OSError ENOENT (hd EmptyString cmd)).

(** A file named [chrome] is on the search path without the execute
    permission, and [chromium] is installed: running [chrome] is a
    [PermissionError]. *)
Definition chrome_not_executable (cmd : list string) (t : nat) (f : fs)
  : proc_outcome :=
  if eqs (hd EmptyString cmd) "chrome" then Failed (OSError EACCES "chrome")
  else chromium_only cmd t f.

Definition sample_now : datetime := mkDatetime 2024 5 17 9 3.

Definition sample_env (available : bool)
    (sp : list string -> nat -> fs -> proc_outcome) : Env :=
  mkEnv available paragraph_engine sample_now "/home/user" sp
        (fun _ => None) (fun name pat => fnmatch_simple pat name).

Definition env_no_browser : Env := sample_env true no_browser.
Definition env_chromium : Env := sample_env true chromium_only.
Definition env_denied : Env := sample_env true chrome_not_executable.

(** A directory [docs] with three entries matching [*.md], one of them a
    directory, an entry that does not match, and a file beside it. *)
Definition sample_fs : fs :=
  [ ("docs", Dir);
    ("docs/my_notes.md", File "Hello");
    ("docs/drafts.md", Dir);
    ("docs/todo_list.md", File "Generated on Monday");
    ("docs/readme.txt", File "plain");
    ("notes.md", File "Hello") ].

Definition sample_world : world := mkWorld sample_fs [].

(** A name of 300 characters, more than a directory takes. *)
Definition long_name : string :=
  String.concat EmptyString (repeat "a" 300).

(** The document [convert_md_to_html] left at the path it returned. *)
Definition written_document (E : Env) (input_file : string)
    (output_file : option pathlike) (include_headers : bool) (w : world)
  : option string :=
  match convert_md_to_html E input_file output_file include_headers w with
  | (w', Ok out) =>
      match fs_lookup (files w') out with
      | Some (File doc) => Some doc
      | _ => None
      end
  | _ => None
  end.














(** A character that is not cased followed by a lower-case letter. *)
Fixpoint has_uncased_lower (s : string) : bool :=
  match s with
  | String a ((String b _) as s') =>
      (negb (is_cased a) && is_lower b) || has_uncased_lower s'
  | _ => false
  end.

(** A component [Path] keeps: not empty, not ["."], without separator. *)
Definition good_part (x : string) : bool :=
  keep_part x && negb (contains_char "/" x).

(** The paths [Path] builds. *)
Definition wf_path (p : path) : Prop :=
  (root p = EmptyString \/ root p = "/" \/ root p = "//")
  /\ Forall (fun x => good_part x = true) (parts p).



(** The fixed text of [html_template] and of the header block, cut at
    characters that occur in neither text searched for below ([<], [>]
    and the line feed). *)
Definition nl : ascii := "010"%char.

Definition page_0 : string :=
  "<!DOCTYPE html>
<html lang=" ++ dq ++ "en" ++ dq ++ ">
<head>
    <meta charset=" ++ dq ++ "UTF-8" ++ dq ++ ">
    <meta name=" ++ dq ++ "viewport" ++ dq ++ " content=" ++ dq ++ "width=device-width, initial-scale=1.0" ++ dq ++ ">
    <title".

Definition page_1 : string :=
  "/title>
    <style".

Definition page_2 : string :=
  "/style>
</head>
<body>".

Definition page_3 : string :=
  "    <div class=" ++ dq ++ "content" ++ dq ++ ">".

Definition page_4 : string :=
  "    </div>".

Definition page_5 : string :=
  "</body>
</html>".

Definition header_0 : string :=
  "    <div class=" ++ dq ++ "header" ++ dq ++ ">
        <h1 class=" ++ dq ++ "document-title" ++ dq.

Definition header_1 : string :=
  "/h1>
        <p class=" ++ dq ++ "document-meta" ++ dq.

Definition header_2 : string :=
  "a href=" ++ dq ++ "#" ++ dq ++ " onclick=" ++ dq ++ "window.print()" ++ dq ++ ">Print to PDF</a></p>
    </div>".

(** [html_template] with its five fields filled. *)
Definition page (title css header_section content footer_section : string)
  : string :=
  page_0 ++ String ">" (title ++ String "<" (page_1 ++ String ">"
  (css ++ String "<" (page_2 ++ String nl
  (("    " ++ header_section) ++ String nl (page_3 ++ String nl
  (("        " ++ content) ++ String nl (page_4 ++ String nl
  (("    " ++ footer_section) ++ String nl page_5))))))))).

(** The header block around its two holes. *)
Definition header_form (title date : string) : string :=
  header_0 ++ String ">" (title ++ String "<" (header_1 ++ String ">"
  (("Generated on " ++ date ++ " | ") ++ String "<" header_2))).

Definition generated_on : string := "Generated on".
Definition attribution : string := "Converted with Universal Markdown Converter".

(** The errors of the specification, as the source raises them. *)
Definition DependencyMissing : exn :=
  ImportError
    "Markdown library not available. Install with: pip install markdown".

Definition InputNotFound (input_file : string) : exn :=
  FileNotFoundError ("Input file not found: " ++ input_file).

Definition InputDirectoryNotFound (input_dir : string) : exn :=
  ValueError ("Input directory not found: " ++ input_dir).

(** An extension as the converter uses them: [html], [pdf]. *)
Definition plain_ext (ext : string) : Prop :=
  ext <> EmptyString /\ contains_char "/" ext = false
  /\ contains_char "." ext = false.

(** Regular files stay regular files; directories stay directories. *)
Definition keeps_files (f f' : fs) : Prop :=
  forall s, is_file f s = true -> is_file f' s = true.

Definition keeps_dirs (f f' : fs) : Prop :=
  forall s, is_dir f s = true -> is_dir f' s = true.

Definition grows (f f' : fs) : Prop := keeps_files f f' /\ keeps_dirs f f'.

(** A method whose runs relate the file system before and after by [R]. *)
Definition preserves (R : fs -> fs -> Prop) {A} (c : M A) : Prop :=
  forall w w' r, c w = (w', r) -> R (files w) (files w').

(** *** The HTML-to-PDF stage in the words of its specification

    A candidate succeeds when it passes the version check and exits with
    status zero on the render.  A failure is swallowed when it is a
    non-zero exit or one of the exceptions the [except] clause names;
    any other exception aborts the scan. *)

Inductive verdict := Succeeds | Swallowed | Aborts (e : exn).

Definition swallowed (e : exn) : bool :=
  match e with
  | CalledProcessError _ _ => true
  | TimeoutExpired _ _ => true
  | FileNotFoundError _ => true
  | OSError ENOENT _ => true
  | _ => false
  end.

Definition failure (e : exn) : verdict :=
  if swallowed e then Swallowed else Aborts e.

(** The world after running [cmd], and what the process did. *)
Definition run_command (E : Env) (cmd : list string) (timeout : nat)
    (w : world) : world * proc_outcome :=
  let w := log (ev_run cmd) w in
  match spawn E cmd timeout (files w) with
  | Failed e => (w, Failed e)
  | Completed rc written =>
      (set_files (apply_writes written (files w)) w, Completed rc written)
  end.

Definition attempt (E : Env) (chrome_path html_file : string)
    (pdf_file : pathlike) (w : world) : world * verdict :=
  match run_command E [chrome_path; "--version"] 5 w with
  | (w1, Failed e) => (w1, failure e)
  | (w1, Completed version_status _) =>
      if Z.eqb version_status 0 then
        match run_command E
                [ chrome_path; "--headless"; "--disable-gpu";
                  "--print-to-pdf=" ++ fspath pdf_file;
                  "--print-to-pdf-no-header"; "--no-margins"; html_file ]
                30 w1 with
        | (w2, Failed e) => (w2, failure e)
        | (w2, Completed render_status _) =>
            (w2, if Z.eqb render_status 0 then Succeeds else Swallowed)
        end
      else (w1, Swallowed)
  end.

(** First success wins, in the order of the list. *)
Fixpoint first_success (E : Env) (candidates : list string)
    (html_file : string) (pdf_file : pathlike) (w : world)
  : world * result bool :=
  match candidates with
  | [] => (w, Ok false)
  | chrome_path :: rest =>
      match attempt E chrome_path html_file pdf_file w with
      | (w', Succeeds) => (w', Ok true)
      | (w', Swallowed) => first_success E rest html_file pdf_file w'
      | (w', Aborts e) => (w', Raise e)
      end
  end.

(** *** The batch in the words of its specification

    Each matched file, in enumeration order, is given to the single-file
    pipeline in the world its predecessors left; its outcome is logged.
    The batch returns the paths of the outcomes that are not failures. *)

Definition outcome_line (md_file : path) (r : result string) : line :=
  match r with
  | Ok result => line_converted (name md_file) (name (Path result))
  | Raise e => line_error (name md_file) e
  end.

Fixpoint batch_trace (E : Env) (output_path : path)
    (to_pdf include_headers : bool) (md_files : list path) (w : world)
  : world * list (result string) :=
  match md_files with
  | [] => (w, [])
  | md_file :: rest =>
      let '(w1, r) :=
        convert_one E output_path to_pdf include_headers md_file w in
      let w2 := log (ev_print (outcome_line md_file r)) w1 in
      let '(w3, rs) :=
        batch_trace E output_path to_pdf include_headers rest w2 in
      (w3, r :: rs)
  end.

Fixpoint successes (outcomes : list (result string)) : list string :=
  match outcomes with
  | [] => []
  | Ok result :: rest => result :: successes rest
  | Raise _ :: rest => successes rest
  end.

Fixpoint failures (outcomes : list (result string)) : nat :=
  match outcomes with
  | [] => 0
  | Ok _ :: rest => failures rest
  | Raise _ :: rest => S (failures rest)
  end.

(** The sources of the successful outcomes, paired with their results. *)
Fixpoint converted (md_files : list path) (outcomes : list (result string))
  : list (path * string) :=
  match md_files, outcomes with
  | md_file :: md_files', Ok result :: outcomes' =>
      (md_file, result) :: converted md_files' outcomes'
  | _ :: md_files', Raise _ :: outcomes' => converted md_files' outcomes'
  | _, _ => []
  end.

(** [l1] is [l2] with some elements left out. *)
Inductive subseq {A : Type} : list A -> list A -> Prop :=
| subseq_nil : subseq [] []
| subseq_skip x l1 l2 : subseq l1 l2 -> subseq l1 (x :: l2)
| subseq_keep x l1 l2 : subseq l1 l2 -> subseq (x :: l1) (x :: l2).



(** [q] lies below [p], at whatever depth. *)
Fixpoint is_prefix (l1 l2 : list string) : bool :=
  match l1, l2 with
  | [], _ => true
  | x :: l1', y :: l2' => eqs x y && is_prefix l1' l2'
  | _ :: _, [] => false
  end.

Definition strictly_below (p q : path) : bool :=
  eqs (root p) (root q)
  && is_prefix (parts p) (parts q)
  && (List.length (parts p) <? List.length (parts q))%nat.



(** *** What a method adds to the journal *)

(** The journal is extended, by events that satisfy [P]. *)
Definition journal_grows (P : event -> Prop) (w w' : world) : Prop :=
  exists evs, journal w' = (journal w ++ evs)%list /\ Forall P evs.

Definition emits (P : event -> Prop) {A} (c : M A) : Prop :=
  forall w w' r, c w = (w', r) -> journal_grows P w w'.

(** The lines the loop of [batch_convert] prints, one per file. *)
Definition is_outcome (e : event) : bool :=
  match e with
  | ev_print (line_converted _ _) => true
  | ev_print (line_error _ _) => true
  | _ => false
  end.

Definition quiet (e : event) : Prop := is_outcome e = false.

Fixpoint outcome_lines (j : list event) : list line :=
  match j with
  | [] => []
  | ev_print l :: j' =>
      if is_outcome (ev_print l) then l :: outcome_lines j'
      else outcome_lines j'
  | _ :: j' => outcome_lines j'
  end.

(** [s.endswith(p)] *)
Definition endswith (p s : string) : bool :=
  (String.length p <=? String.length s)%nat
  && eqs (substring (String.length s - String.length p) (String.length p) s) p.

Definition is_error_line (l : line) : bool :=
  match l with line_error _ _ => true | _ => false end.

(** The lines a trace prints: one per file, for its outcome. *)
Definition trace_lines (md_files : list path) (outcomes : list (result string))
  : list line :=
  map (fun fr => outcome_line (fst fr) (snd fr)) (combine md_files outcomes).

(** An event that runs one of the candidates. *)
Definition runs_one_of (candidates : list string) (e : event) : Prop :=
  exists chrome_path args, e = ev_run (chrome_path :: args)
                           /\ In chrome_path candidates.


(** The path holds a document made from the page template. *)
Definition holds_page (f : fs) (s : string) : Prop :=
  exists doc,
    fs_lookup f s = Some (File doc)
    /\ startswith "<!DOCTYPE html>" doc = true.

(** An event that makes a directory. *)
Definition is_mkdir (e : event) : Prop := exists filename, e = ev_mkdir filename.

(** * The graphical front end

    The handlers of the two buttons of [ConverterGUI] and the bodies of
    the worker threads they start.  The widgets are the state: the five
    variables the handlers read, and what the handlers do to the progress
    bar, the log and the message boxes, recorded in order.  Calls on
    widgets return normally; a worker is run to its end where it is
    started, and the fields are not edited while it runs. *)

Module ConverterGUI.

Record widgets := mkWidgets {
  file_var : string;
  dir_var : string;
  output_dir_var : string;
  output_format : string;
  remove_headers : bool
}.

(** The lines written to the log, by their format string. *)
Inductive message :=
| msg_converting (name : string)
| msg_success (result : string)
| msg_error (e : exn)
| msg_batch_converting (directory : string)
| msg_batch_completed (count : nat)
| msg_batch_error (e : exn).

(** The message boxes, by their call. *)
Inductive dialog :=
| showerror_select_file
| showerror_select_directory
| showerror (e : exn)
| showinfo_converted (result : string)
| showinfo_batch (count : nat).

Inductive signal :=
| progress_start
| progress_stop
| logged (m : message)
| shown (d : dialog).

Record gui := mkGui {
  vars : widgets;
  shell : world;
  signals : list signal
}.

Definition G (A : Type) : Type := gui -> gui * result A.

Definition gret {A} (a : A) : G A := fun g => (g, Ok a).

Definition gbind {A B} (c : G A) (k : A -> G B) : G B :=
  fun g =>
    match c g with
    | (g1, Ok a) => k a g1
    | (g1, Raise e) => (g1, Raise e)
    end.

Definition gthen {A} (c : G unit) (k : G A) : G A := gbind c (fun _ => k).

(** [try: c  except Exception as e: h e] *)
Definition gtry {A} (c : G A) (h : exn -> G A) : G A :=
  fun g =>
    match c g with
    | (g1, Ok a) => (g1, Ok a)
    | (g1, Raise e) =>
        if isinstance e cls_Exception then h e g1 else (g1, Raise e)
    end.

(** [try: c  finally: fin] *)
Definition gfinally {A} (c : G A) (fin : G unit) : G A :=
  fun g =>
    let '(g1, r) := c g in
    match fin g1 with
    | (g2, Ok _) => (g2, r)
    | (g2, Raise e) => (g2, Raise e)
    end.

Definition send (s : signal) : G unit :=
  fun g => (mkGui (vars g) (shell g) (signals g ++ [s]), Ok tt).

(** A method of [self.converter], run on the files of the shell. *)
Definition call {A} (c : M A) : G A :=
  fun g =>
    let '(w, r) := c (shell g) in
    (mkGui (vars g) w (signals g), r).

(** [self.log(message)] *)
Definition log (m : message) : G unit := send (logged m).

(** Line 534: [self.output_dir_var.get() or str(Path(...).parent)] *)
Definition single_output_dir (v : widgets) : string :=
  if eqs (output_dir_var v) EmptyString
  then str (parent (Path (file_var v)))
  else output_dir_var v.

(** Lines 540 and 546: the output path handed to the converter. *)
Definition single_target (v : widgets) (ext : string) : string :=
  str (joinpath (Path (single_output_dir v))
         (stem (Path (file_var v)) ++ ext)).

(** Lines 537-548: the call on the converter. *)
Definition single_call (E : Env) (v : widgets) : M string :=
  let include_headers := negb (remove_headers v) in
  if eqs (output_format v) "pdf" then
    convert_md_to_pdf E (file_var v) (Some (as_str (single_target v ".pdf")))
      include_headers
  else
    convert_md_to_html E (file_var v)
      (Some (as_str (single_target v ".html"))) include_headers.

(** Lines 529-557. *)
Definition convert_thread (E : Env) : G unit :=
  gfinally
    (gtry
       (gthen (send progress_start)
          (fun g =>
             let v := vars g in
             gthen (log (msg_converting (name (Path (file_var v)))))
               (gbind (call (single_call E v))
                  (fun result =>
                     gthen (log (msg_success result))
                       (send (shown (showinfo_converted result))))) g))
       (fun e => gthen (log (msg_error e)) (send (shown (showerror e)))))
    (send progress_stop).

(** Lines 523-559. *)
Definition convert_file (E : Env) : G unit :=
  fun g =>
    if eqs (file_var (vars g)) EmptyString then
      send (shown showerror_select_file) g
    else convert_thread E g.

(** Line 572: [self.output_dir_var.get() or self.dir_var.get()] *)
Definition batch_output_dir (v : widgets) : string :=
  if eqs (output_dir_var v) EmptyString then dir_var v else output_dir_var v.

(** Lines 572-578: the call on the converter, with the default pattern. *)
Definition batch_call (E : Env) (v : widgets) : M (list string) :=
  let output_dir := batch_output_dir v in
  let to_pdf := eqs (output_format v) "pdf" in
  let include_headers := negb (remove_headers v) in
  batch_convert E (dir_var v) (Some output_dir) to_pdf "*.md" include_headers.

(** Lines 567-587. *)
Definition batch_thread (E : Env) : G unit :=
  gfinally
    (gtry
       (gthen (send progress_start)
          (fun g =>
             let v := vars g in
             gthen (log (msg_batch_converting (dir_var v)))
               (gbind (call (batch_call E v))
                  (fun results =>
                     gthen (log (msg_batch_completed (List.length results)))
                       (send (shown (showinfo_batch (List.length results))))))
               g))
       (fun e => gthen (log (msg_batch_error e)) (send (shown (showerror e)))))
    (send progress_stop).

(** Lines 561-589. *)
Definition batch_convert (E : Env) : G unit :=
  fun g =>
    if eqs (dir_var (vars g)) EmptyString then
      send (shown showerror_select_directory) g
    else batch_thread E g.

(** The message boxes among the signals, and the state they leave the
    progress bar in. *)
Fixpoint dialogs (evs : list signal) : list dialog :=
  match evs with
  | [] => []
  | shown d :: evs' => d :: dialogs evs'
  | _ :: evs' => dialogs evs'
  end.

Fixpoint running (evs : list signal) (before : bool) : bool :=
  match evs with
  | [] => before
  | progress_start :: evs' => running evs' true
  | progress_stop :: evs' => running evs' false
  | _ :: evs' => running evs' before
  end.

End ConverterGUI.

(** * The icon script (create_icon.py)

    What the script does is recorded call by call: the lines it prints,
    the calls on Pillow and the file it writes.  Whether a call raises is
    up to the environment, which sees what was done before; [print] does
    not raise. *)

Module create_icon.

Inductive line :=
| line_pil_missing
| line_install_hint
| line_icon_created
| line_fallback_created
| line_fallback_failed (e : exn)
| line_creating
| line_trying_fallback
| line_creation_failed
| line_done.

Inductive font :=
| truetype_font (name : string) (size : Z)
| default_font.

Definition rgba : Type := Z * Z * Z * Z.

Inductive act :=
| act_print (l : line)
| act_new (mode : string) (size : Z * Z) (color : rgba)
| act_Draw
| act_truetype (name : string) (size : Z)
| act_load_default
| act_textbbox (xy : Z * Z) (text : string) (f : font)
| act_text (xy : Z * Z) (text : string) (fill : rgba) (f : font)
| act_polygon (points : list (Z * Z)) (fill : rgba)
| act_save (filename format : string) (sizes : list (Z * Z))
| act_write (filename : string) (data : list Z).

Record Pillow := mkPillow {
  PIL_AVAILABLE : bool;
  raises : list act -> act -> option exn;
  bbox : list act -> font -> Z * Z * Z * Z
}.

Definition I (A : Type) : Type := list act -> list act * result A.

Definition iret {A} (a : A) : I A := fun h => (h, Ok a).

Definition ibind {A B} (c : I A) (k : A -> I B) : I B :=
  fun h =>
    match c h with
    | (h1, Ok a) => k a h1
    | (h1, Raise e) => (h1, Raise e)
    end.

Definition ithen {A} (c : I unit) (k : I A) : I A := ibind c (fun _ => k).

(** [try: c  except: h] *)
Definition itry {A} (c : I A) (handler : exn -> I A) : I A :=
  fun h =>
    match c h with
    | (h1, Ok a) => (h1, Ok a)
    | (h1, Raise e) => handler e h1
    end.

Definition ilift {A} (r : result A) : I A := fun h => (h, r).

Definition print (l : line) : I unit := fun h => ((h ++ [act_print l])%list, Ok tt).

(** A call on the environment, recorded whether it raises or not. *)
Definition do (P : Pillow) (a : act) : I unit :=
  fun h =>
    match raises P h a with
    | Some e => ((h ++ [a])%list, Raise e)
    | None => ((h ++ [a])%list, Ok tt)
    end.

(** [bytes(ints)] for a list of integers. *)
Fixpoint bytes_ (ints : list Z) : result (list Z) :=
  match ints with
  | [] => Ok []
  | i :: rest =>
      if ((0 <=? i) && (i <? 256))%Z then
        match bytes_ rest with
        | Ok data => Ok (i :: data)
        | Raise e => Raise e
        end
      else Raise (ValueError "bytes must be in range(0, 256)")
  end.

Definition arial : font := truetype_font "arial.ttf" 24.
Definition calibri : font := truetype_font "calibri.ttf" 24.

(** Lines 28-36: the fonts, in the order they are tried. *)
Definition load_font (P : Pillow) : I font :=
  itry
    (ithen (do P (act_truetype "arial.ttf" 24))
       (iret (truetype_font "arial.ttf" 24)))
    (fun _ =>
       itry
         (ithen (do P (act_truetype "calibri.ttf" 24))
            (iret (truetype_font "calibri.ttf" 24)))
         (fun _ => ithen (do P act_load_default) (iret default_font))).

(** Lines 40-45: where the text is drawn, from its bounding box. *)
Definition text_origin (size : Z) (box : Z * Z * Z * Z) : Z * Z :=
  let '(x0, y0, x1, y1) := box in
  let text_width := (x1 - x0)%Z in
  let text_height := (y1 - y0)%Z in
  (((size - text_width) / 2)%Z, ((size - text_height) / 2)%Z).

Definition white : rgba := (255, 255, 255, 255)%Z.

Definition create_simple_icon (P : Pillow) : I bool :=
  if negb (PIL_AVAILABLE P) then
    ithen (print line_pil_missing)
      (ithen (print line_install_hint) (iret false))
  else
    let size := 64%Z in
    ithen (do P (act_new "RGBA" (size, size) (52, 152, 219, 255)%Z))
      (ithen (do P act_Draw)
      (ibind (load_font P)
         (fun font =>
            let text := "MD" in
            ithen (do P (act_textbbox (0, 0)%Z text font))
              (fun h =>
                 let xy := text_origin size (bbox P h font) in
                 ithen (do P (act_text xy text white font))
                   (ithen
                      (do P (act_polygon [(45, 15); (55, 20); (45, 25)]%Z
                               white))
                      (ithen
                         (do P (act_save "icon.ico" "ICO"
                                  [(16, 16); (32, 32); (48, 48); (64, 64)]%Z))
                         (ithen (print line_icon_created) (iret true)))) h)))).

(** Lines 61-73, row by row: the header, the directory entry, the
    bitmap header. *)
Definition ico_header : list Z :=
  ([0x00; 0x00; 0x01; 0x00; 0x01; 0x00]
   ++ [0x10; 0x10; 0x00; 0x00; 0x01; 0x00; 0x20; 0x00]
   ++ [0x68; 0x04; 0x00; 0x00; 0x16; 0x00; 0x00; 0x00]
   ++ [0x28; 0x00; 0x00; 0x00; 0x10; 0x00; 0x00; 0x00]
   ++ [0x20; 0x00; 0x00; 0x00; 0x01; 0x00; 0x20; 0x00]
   ++ [0x00; 0x00; 0x00; 0x00; 0x00; 0x04; 0x00; 0x00]
   ++ [0x00; 0x00; 0x00; 0x00; 0x00; 0x00; 0x00; 0x00]
   ++ [0x00; 0x00; 0x00; 0x00; 0x00; 0x00; 0x00; 0x00])%Z%list.

(** [for _ in range(n): data += pixel] *)
Fixpoint add_pixels (n : nat) (data pixel : list Z) : list Z :=
  match n with
  | O => data
  | S n' => add_pixels n' (data ++ pixel) pixel
  end.

Definition create_fallback_icon (P : Pillow) : I bool :=
  ibind (ilift (bytes_ ico_header))
    (fun ico_data =>
       ibind (ilift (bytes_ [0x3498db; 0xff]%Z))
         (fun blue_pixel =>
            let ico_data := add_pixels 256 ico_data blue_pixel in
            let ico_data := (ico_data ++ repeat 0%Z 32)%list in
            itry
              (ithen (do P (act_write "icon.ico" ico_data))
                 (ithen (print line_fallback_created) (iret true)))
              (fun e =>
                 if isinstance e cls_Exception then
                   ithen (print (line_fallback_failed e)) (iret false)
                 else ilift (Raise e)))).

(** Lines 92-100: the script. *)
Definition script (P : Pillow) : I unit :=
  ithen (print line_creating)
    (ibind (create_simple_icon P)
       (fun created =>
          ithen
            (if negb created then
               ithen (print line_trying_fallback)
                 (ibind (create_fallback_icon P)
                    (fun created' =>
                       if negb created' then print line_creation_failed
                       else iret tt))
             else iret tt)
            (print line_done))).

(** The calls of [create_simple_icon] once the font is loaded. *)
Definition drawing (P : Pillow) (h : list act) (f : font) : list act :=
  [ act_textbbox (0, 0)%Z "MD" f;
    act_text (text_origin 64 (bbox P (h ++ [act_textbbox (0, 0)%Z "MD" f]) f))
      "MD" white f;
    act_polygon [(45, 15); (55, 20); (45, 25)]%Z white;
    act_save "icon.ico" "ICO" [(16, 16); (32, 32); (48, 48); (64, 64)]%Z;
    act_print line_icon_created ].

Definition pillow_call (a : act) : bool :=
  match a with
  | act_print _ | act_write _ _ => false
  | _ => true
  end.

(** A Pillow whose calls all return, one without Arial, and no Pillow. *)
Definition sample_box : Z * Z * Z * Z := (1, 5, 32, 22)%Z.

Definition sample_pillow : Pillow :=
  mkPillow true (fun _ _ => None) (fun _ _ => sample_box).

Definition pillow_without_arial : Pillow :=
  mkPillow true
    (fun _ a =>
       match a with
       | act_truetype "arial.ttf" _ => Some (OSError ENOENT "arial.ttf")
       | _ => None
       end)
    (fun _ _ => sample_box).

Definition no_pillow : Pillow :=
  mkPillow false (fun _ _ => None) (fun _ _ => sample_box).

(** The lines the script is seen to print. *)
Definition script_lines : list line :=
  [ line_creating; line_pil_missing; line_install_hint;
    line_trying_fallback; line_icon_created; line_done ].

Definition is_write (a : act) : bool :=
  match a with act_write _ _ => true | _ => false end.

Definition is_save (a : act) : bool :=
  match a with act_save _ _ _ => true | _ => false end.

Definition prints (l : line) (a : act) : Prop := a = act_print l.

End create_icon.

(** Lines 405-409 of [setup_gui]: the size the window has and the corner
    it is moved to, [//] being the division that rounds down. *)
Definition centered_geometry (width height screenwidth screenheight : Z)
  : Z * Z * Z * Z :=
  let x := (screenwidth / 2 - width / 2)%Z in
  let y := (screenheight / 2 - height / 2)%Z in
  (width, height, x, y).

(** * The entry point ([main], lines 597-671)

    [main] binds the names [tk] and [messagebox] in its own body, by the
    [import] statements of its two last handlers (lines 652-653 and
    664-665); Python therefore treats both as local variables of [main]
    throughout its body, unbound until one of those statements has run,
    and a use of an unbound local raises [UnboundLocalError].  The frame
    records which of the two are bound, with the calls made so far. *)

Module launcher.

Inductive error :=
| UnboundLocalError (name : string)
| raised (e : exn).

Definition is_ImportError (e : error) : bool :=
  match e with raised (ImportError _) => true | _ => false end.

Definition is_CalledProcessError (e : error) : bool :=
  match e with raised (CalledProcessError _ _) => true | _ => false end.

Inductive outcome (A : Type) :=
| Returns (a : A)
| Raises (e : error).
Arguments Returns {A} a.
Arguments Raises {A} e.

(** The message boxes of [main], by their call. *)
Inductive box :=
| box_corrupted
| box_offer_install
| box_installed
| box_install_failed (e : error)
| box_manual
| box_missing_gui (e : error)
| box_application_error (e : error).

Inductive line :=
| line_installing
| line_installed
| line_restart
| line_install_failed (e : error)
| line_install_manually
| line_no_gui
| line_requires_tkinter
| line_error (e : error)
| line_start_error (e : error).

Inductive act :=
| act_print (l : line)
| act_Tk
| act_withdraw
| act_destroy
| act_box (b : box)
| act_pip
| act_ConverterGUI
| act_run
| act_import_tkinter
| act_import_messagebox.

Record frame := mkFrame {
  acts : list act;
  tk : bool;
  messagebox : bool
}.

Record Host := mkHost {
  MARKDOWN_AVAILABLE : bool;
  frozen : bool;
  answers_yes : list act -> bool;
  raises : list act -> act -> option error
}.

Definition L (A : Type) : Type := frame -> frame * outcome A.

Definition lret {A} (a : A) : L A := fun s => (s, Returns a).

Definition lbind {A B} (c : L A) (k : A -> L B) : L B :=
  fun s =>
    match c s with
    | (s1, Returns a) => k a s1
    | (s1, Raises e) => (s1, Raises e)
    end.

Definition lthen {A} (c : L unit) (k : L A) : L A := lbind c (fun _ => k).

(** [try: c  except cls as e: h e], [catches] telling the instances of
    [cls]. *)
Definition ltry {A} (c : L A) (catches : error -> bool) (h : error -> L A)
  : L A :=
  fun s =>
    match c s with
    | (s1, Returns a) => (s1, Returns a)
    | (s1, Raises e) => if catches e then h e s1 else (s1, Raises e)
    end.

Definition record (a : act) (s : frame) : frame :=
  mkFrame (acts s ++ [a])%list (tk s) (messagebox s).

Definition print (l : line) : L unit :=
  fun s => (record (act_print l) s, Returns tt).

(** A call on the host, recorded whether it raises or not. *)
Definition do (H : Host) (a : act) : L unit :=
  fun s =>
    match raises H (acts s) a with
    | Some e => (record a s, Raises e)
    | None => (record a s, Returns tt)
    end.

(** The value of the local variable [tk], of [messagebox]. *)
Definition load_tk : L unit :=
  fun s => if tk s then (s, Returns tt)
           else (s, Raises (UnboundLocalError "tk")).

Definition load_messagebox : L unit :=
  fun s => if messagebox s then (s, Returns tt)
           else (s, Raises (UnboundLocalError "messagebox")).

(** [import tkinter as tk]; [from tkinter import messagebox] *)
Definition import_tkinter (H : Host) : L unit :=
  lthen (do H act_import_tkinter)
    (fun s => (mkFrame (acts s) true (messagebox s), Returns tt)).

Definition import_messagebox (H : Host) : L unit :=
  lthen (do H act_import_messagebox)
    (fun s => (mkFrame (acts s) (tk s) true, Returns tt)).

(** [root = tk.Tk()]; [messagebox.show...(...)] *)
Definition Tk (H : Host) : L unit := lthen load_tk (do H act_Tk).

Definition show (H : Host) (b : box) : L unit :=
  lthen load_messagebox (do H (act_box b)).

Definition askyesno (H : Host) : L bool :=
  lthen load_messagebox
    (fun s =>
       lthen (do H (act_box box_offer_install))
         (lret (answers_yes H (acts s))) s).

Definition everything (e : error) : bool := true.

(** Lines 600-643: the branch taken without the Markdown library; each
    of its paths ends in [return] or in an exception. *)
Definition offer_install (H : Host) : L unit :=
  ltry
    (lthen (Tk H)
       (lthen (do H act_withdraw)
          (lthen
             (if frozen H then show H box_corrupted
              else
                lbind (askyesno H)
                  (fun result =>
                     if result : bool then
                       ltry
                         (lthen (print line_installing)
                            (lthen (do H act_pip)
                               (lthen (show H box_installed)
                                  (lthen (print line_installed)
                                     (print line_restart)))))
                         is_CalledProcessError
                         (fun e =>
                            lthen (show H (box_install_failed e))
                              (print (line_install_failed e)))
                     else
                       lthen (show H box_manual)
                         (print line_install_manually)))
             (do H act_destroy))))
    is_ImportError
    (fun _ => lthen (print line_no_gui) (print line_install_manually)).

(** Lines 651-657 and 663-669: the error box of a failed start. *)
Definition report (H : Host) (b : box) : L unit :=
  lthen (import_tkinter H)
    (lthen (import_messagebox H)
       (lthen (Tk H)
          (lthen (do H act_withdraw)
             (lthen (show H b) (do H act_destroy))))).

(** Lines 645-671. *)
Definition launch (H : Host) : L unit :=
  ltry
    (lthen (do H act_ConverterGUI) (do H act_run))
    everything
    (fun e =>
       if is_ImportError e then
         ltry (report H (box_missing_gui e)) everything
           (fun _ => lthen (print line_requires_tkinter) (print (line_error e)))
       else
         ltry (report H (box_application_error e)) everything
           (fun _ => print (line_start_error e))).

Definition main (H : Host) : L unit :=
  if negb (MARKDOWN_AVAILABLE H) then offer_install H else launch H.

(** The frame [main] is entered with: nothing done, no local bound. *)
Definition entry : frame := mkFrame [] false false.

Definition is_box (a : act) : bool :=
  match a with act_box _ => true | _ => false end.

(** A host whose calls all return, with or without the library. *)
Definition sample_host (available : bool) : Host :=
  mkHost available false (fun _ => true) (fun _ _ => None).

End launcher.


(** * Properties *)

(** ** Strings *)

Lemma eqs_true a b : eqs a b = true <-> a = b.
Proof. apply String.eqb_eq. Qed.

Lemma eqs_false a b : eqs a b = false <-> a <> b.
Proof. apply String.eqb_neq. Qed.

Lemma eqs_refl a : eqs a a = true.
Proof. apply String.eqb_refl. Qed.

Lemma sapp_nil_r (s : string) : s ++ EmptyString = s.
Proof. induction s; simpl; congruence. Qed.

Lemma sapp_assoc (a b c : string) : (a ++ b) ++ c = a ++ (b ++ c).
Proof. induction a; simpl; congruence. Qed.

Lemma slength_app (a b : string) :
  String.length (a ++ b) = String.length a + String.length b.
Proof. induction a; simpl; congruence. Qed.

Lemma contains_char_app c (a b : string) :
  contains_char c (a ++ b) = contains_char c a || contains_char c b.
Proof.
  induction a as [|x a IH]; simpl; [reflexivity|].
  rewrite IH. now rewrite orb_assoc.
Qed.

Lemma substring_0_app (a b : string) : substring 0 (String.length a) (a ++ b) = a.
Proof. induction a; simpl; [destruct b; reflexivity | congruence]. Qed.

Lemma substring_0_all (a : string) : substring 0 (String.length a) a = a.
Proof. rewrite <- (sapp_nil_r a) at 2. apply substring_0_app. Qed.

Lemma substring_skip (a b : string) n :
  substring (String.length a) n (a ++ b) = substring 0 n b.
Proof. induction a; simpl; auto. Qed.

Lemma slength_substring (s : string) i n :
  i + n <= String.length s -> String.length (substring i n s) = n.
Proof.
  revert i n. induction s as [|c s IH]; intros i n H; simpl in *.
  - assert (i = 0) by lia. assert (n = 0) by lia. subst. reflexivity.
  - destruct i as [|i].
    + destruct n as [|n]; simpl; [reflexivity|].
      f_equal. apply (IH 0 n). lia.
    + apply IH. lia.
Qed.

Lemma substring_split (s : string) i :
  i <= String.length s ->
  s = substring 0 i s ++ substring i (String.length s - i) s.
Proof.
  revert i. induction s as [|c s IH]; intros i H; simpl in *.
  - assert (i = 0) by lia. subst. reflexivity.
  - destruct i as [|i]; simpl.
    + f_equal. symmetry. apply substring_0_all.
    + f_equal. apply IH. lia.
Qed.

Lemma contains_char_substring c (s : string) i n :
  contains_char c s = false -> contains_char c (substring i n s) = false.
Proof.
  revert i n. induction s as [|x s IH]; intros i n H; simpl in *.
  - destruct i, n; reflexivity.
  - apply orb_false_iff in H. destruct H as [Hx Hs].
    destruct i as [|i].
    + destruct n as [|n]; simpl; [reflexivity|].
      rewrite Hx. simpl. now apply IH.
    + now apply IH.
Qed.

(** *** Occurrences of a pattern *)

Lemma startswith_app_sep c pat a b :
  contains_char c pat = false ->
  startswith pat (a ++ String c b) = startswith pat a.
Proof.
  revert a. induction pat as [|x pat IH]; intros a H; simpl in *.
  - reflexivity.
  - apply orb_false_iff in H. destruct H as [Hx Hp].
    destruct a as [|y a]; simpl.
    + now rewrite Hx.
    + now rewrite IH.
Qed.

Lemma count_sub_app_sep c pat a b :
  pat <> EmptyString -> contains_char c pat = false ->
  count_sub pat (a ++ String c b) = count_sub pat a + count_sub pat b.
Proof.
  intros Hne Hc. induction a as [|y a IH].
  - simpl (EmptyString ++ _). simpl count_sub at 2.
    change (count_sub pat (String c b))
      with ((if startswith pat (String c b) then 1 else 0) + count_sub pat b).
    destruct pat as [|x pat]; [congruence|].
    simpl in Hc. apply orb_false_iff in Hc. destruct Hc as [Hx _].
    simpl. now rewrite Hx.
  - change (count_sub pat (String y a ++ String c b))
      with ((if startswith pat (String y a ++ String c b) then 1 else 0)
            + count_sub pat (a ++ String c b)).
    change (count_sub pat (String y a))
      with ((if startswith pat (String y a) then 1 else 0) + count_sub pat a).
    rewrite startswith_app_sep by assumption. rewrite IH. lia.
Qed.

Lemma count_sub_absent x pat s :
  contains_char x s = false -> count_sub (String x pat) s = 0.
Proof.
  induction s as [|c s IH]; intros H; simpl in *; [reflexivity|].
  apply orb_false_iff in H. destruct H as [Hc Hs].
  rewrite Ascii.eqb_sym, Hc. simpl. now apply IH.
Qed.


Lemma startswith_uncased_lower pat s :
  startswith pat s = true -> has_uncased_lower pat = true ->
  has_uncased_lower s = true.
Proof.
  revert s. induction pat as [|a pat IH]; intros s Hs Hp; [discriminate|].
  destruct s as [|a' s]; [discriminate|].
  simpl in Hs. apply andb_true_iff in Hs. destruct Hs as [Ha Hs].
  apply Ascii.eqb_eq in Ha. subst a'.
  destruct pat as [|b pat]; [discriminate|].
  destruct s as [|b' s]; [discriminate|].
  assert (Hb : b = b').
  { simpl in Hs. apply andb_true_iff in Hs. now apply Ascii.eqb_eq. }
  subst b'.
  change (has_uncased_lower (String a (String b pat)))
    with ((negb (is_cased a) && is_lower b) || has_uncased_lower (String b pat))
    in Hp.
  change (has_uncased_lower (String a (String b s)))
    with ((negb (is_cased a) && is_lower b) || has_uncased_lower (String b s)).
  apply orb_true_iff in Hp. apply orb_true_iff.
  destruct Hp as [Hp|Hp]; [now left | right; now apply IH].
Qed.

Lemma count_sub_uncased_lower pat s :
  has_uncased_lower pat = true -> has_uncased_lower s = false ->
  count_sub pat s = 0.
Proof.
  intros Hp. induction s as [|c s IH]; intros Hs; [reflexivity|].
  change (count_sub pat (String c s))
    with ((if startswith pat (String c s) then 1 else 0) + count_sub pat s).
  destruct (startswith pat (String c s)) eqn:Hst.
  - rewrite (startswith_uncased_lower _ _ Hst Hp) in Hs. discriminate.
  - rewrite IH; [reflexivity|].
    destruct s as [|d s]; [reflexivity|].
    change (has_uncased_lower (String c (String d s)))
      with ((negb (is_cased c) && is_lower d) || has_uncased_lower (String d s))
      in Hs.
    now apply orb_false_iff in Hs.
Qed.

(** *** Case mapping *)

Lemma is_cased_to_lower c : is_cased (to_lower c) = is_cased c.
Proof. destruct c as [[] [] [] [] [] [] [] []]; reflexivity. Qed.

Lemma is_cased_to_upper c : is_cased (to_upper c) = is_cased c.
Proof. destruct c as [[] [] [] [] [] [] [] []]; reflexivity. Qed.

Lemma is_lower_to_upper c : is_lower (to_upper c) = false.
Proof. destruct c as [[] [] [] [] [] [] [] []]; reflexivity. Qed.

Lemma to_lower_slash c : Ascii.eqb (to_lower c) "/" = Ascii.eqb c "/".
Proof. destruct c as [[] [] [] [] [] [] [] []]; reflexivity. Qed.

Lemma to_upper_slash c : Ascii.eqb (to_upper c) "/" = Ascii.eqb c "/".
Proof. destruct c as [[] [] [] [] [] [] [] []]; reflexivity. Qed.

(** In a title-cased string a lower-case letter never follows a
    character that is not cased. *)
Lemma title_from_uncased_lower b s : has_uncased_lower (title_from b s) = false.
Proof.
  revert b. induction s as [|c s IH]; intros b; [reflexivity|].
  destruct s as [|d s]; [reflexivity|].
  specialize (IH (is_cased c)).
  change (title_from b (String c (String d s)))
    with (String (if b then to_lower c else to_upper c)
                 (title_from (is_cased c) (String d s))).
  change (title_from (is_cased c) (String d s))
    with (String (if is_cased c then to_lower d else to_upper d)
                 (title_from (is_cased d) s)) in *.
  set (c' := if b then to_lower c else to_upper c).
  set (d' := if is_cased c then to_lower d else to_upper d) in *.
  change (has_uncased_lower (String c' (String d' (title_from (is_cased d) s))))
    with ((negb (is_cased c') && is_lower d')
          || has_uncased_lower (String d' (title_from (is_cased d) s))).
  rewrite IH, orb_false_r.
  assert (Hc : is_cased c' = is_cased c).
  { unfold c'. destruct b; [apply is_cased_to_lower | apply is_cased_to_upper]. }
  rewrite Hc. unfold d'. destruct (is_cased c); [reflexivity|].
  simpl. apply is_lower_to_upper.
Qed.

Lemma title_from_slash b s :
  contains_char "/" (title_from b s) = contains_char "/" s.
Proof.
  revert b. induction s as [|c s IH]; intros b; [reflexivity|].
  simpl. rewrite IH. f_equal.
  destruct b; [apply to_lower_slash | apply to_upper_slash].
Qed.

Lemma replace_char_slash s :
  contains_char "/" (replace_char "_" " " s) = contains_char "/" s.
Proof.
  induction s as [|c s IH]; [reflexivity|].
  simpl. rewrite IH. f_equal.
  destruct (Ascii.eqb c "_") eqn:Hc; [|reflexivity].
  apply Ascii.eqb_eq in Hc. subst c. reflexivity.
Qed.

(** *** Dates *)

Lemma digit_cases n :
  In (digit n) ["0"; "1"; "2"; "3"; "4"; "5"; "6"; "7"; "8"; "9"]%char.
Proof.
  unfold digit. pose proof (Nat.mod_upper_bound n 10 ltac:(lia)) as H.
  destruct (n mod 10) as [|[|[|[|[|[|[|[|[|[|k]]]]]]]]]];
    [ | | | | | | | | | | exfalso; lia ]; vm_compute; tauto.
Qed.

Lemma digit_not c n :
  (nat_of_ascii c <? 48)%nat || (57 <? nat_of_ascii c)%nat = true ->
  Ascii.eqb (digit n) c = false.
Proof.
  intros Hc. apply Ascii.eqb_neq. intros Heq. subst c.
  pose proof (digit_cases n) as H.
  cbn [In] in H.
  repeat (destruct H as [H|H]; [rewrite <- H in Hc; vm_compute in Hc; discriminate|]).
  exact H.
Qed.

Lemma contains_char_cons c a s :
  contains_char c (String a s) = Ascii.eqb a c || contains_char c s.
Proof. reflexivity. Qed.

Lemma strftime_without c d :
  (nat_of_ascii c <? 48)%nat || (57 <? nat_of_ascii c)%nat = true ->
  Ascii.eqb "-" c = false -> Ascii.eqb " " c = false ->
  Ascii.eqb ":" c = false ->
  contains_char c (strftime d) = false.
Proof.
  intros Hc H1 H2 H3. unfold strftime, pad4, pad2.
  cbn [append].
  rewrite !contains_char_cons, !(digit_not _ _ Hc), H1, H2, H3. reflexivity.
Qed.

(** ** The template *)

Lemma format_page t css h c f :
  format html_template
    [ ("title", t); ("css", css); ("content", c);
      ("header_section", h); ("footer_section", f) ]
  = Ok (page t css h c f).
Proof. vm_compute. reflexivity. Qed.

Lemma header_section_form t d : _create_header_section t d = header_form t d.
Proof.
  unfold _create_header_section, header_form, header_0, header_1, header_2.
  rewrite !sapp_assoc. reflexivity.
Qed.

Lemma full_html_page E input_path md_content include_headers :
  full_html E input_path md_content include_headers
  = Ok (page (document_title input_path) css_template
          (if include_headers
           then _create_header_section (document_title input_path)
                  (strftime (now E))
           else EmptyString)
          (markdown_convert E extensions md_content)
          (if include_headers then _create_footer_section else EmptyString)).
Proof.
  unfold full_html. destruct include_headers; apply format_page.
Qed.

Lemma count_sub_skip x p sp b :
  contains_char x sp = false ->
  count_sub (String x p) (sp ++ b) = count_sub (String x p) b.
Proof.
  induction sp as [|c sp IH]; intros H; [reflexivity|].
  simpl in H. apply orb_false_iff in H. destruct H as [Hc Hs].
  simpl. rewrite Ascii.eqb_sym, Hc. simpl. now apply IH.
Qed.

Section Counting.

Variables (x : ascii) (p : string).
Let pat := String x p.
Hypothesis Hsp : Ascii.eqb " " x = false.
Hypothesis Hlt : contains_char "<" pat = false.
Hypothesis Hgt : contains_char ">" pat = false.
Hypothesis Hnl : contains_char nl pat = false.

Lemma pat_nonempty : pat <> EmptyString.
Proof. discriminate. Qed.

Lemma count_sub_indent4 b : count_sub pat ("    " ++ b) = count_sub pat b.
Proof. apply count_sub_skip. cbn [contains_char]. now rewrite Hsp. Qed.

Lemma count_sub_indent8 b : count_sub pat ("        " ++ b) = count_sub pat b.
Proof. apply count_sub_skip. cbn [contains_char]. now rewrite Hsp. Qed.

(** Occurrences in a filled page: those of the fixed text and those of
    each field; none straddles a field boundary. *)
Lemma count_sub_page t css h c f :
  count_sub pat (page t css h c f)
  = count_sub pat page_0 + count_sub pat t + count_sub pat page_1
    + count_sub pat css + count_sub pat page_2 + count_sub pat h
    + count_sub pat page_3 + count_sub pat c + count_sub pat page_4
    + count_sub pat f + count_sub pat page_5.
Proof.
  unfold page.
  rewrite !count_sub_app_sep by (exact pat_nonempty || assumption).
  rewrite !count_sub_indent4, count_sub_indent8. lia.
Qed.

Lemma count_sub_header t d :
  count_sub pat (header_form t d)
  = count_sub pat header_0 + count_sub pat t + count_sub pat header_1
    + count_sub pat ("Generated on " ++ d ++ " | ") + count_sub pat header_2.
Proof.
  unfold header_form.
  rewrite !count_sub_app_sep by (exact pat_nonempty || assumption).
  lia.
Qed.

End Counting.

Lemma count_sub_document_title pat input_path :
  has_uncased_lower pat = true ->
  count_sub pat (document_title input_path) = 0.
Proof.
  intros H. apply count_sub_uncased_lower; [exact H|].
  apply title_from_uncased_lower.
Qed.

Lemma generated_on_line d :
  contains_char "G" d = false ->
  count_sub generated_on ("Generated on " ++ d ++ " | ") = 1.
Proof.
  intros H. unfold generated_on. simpl.
  rewrite count_sub_absent; [reflexivity|].
  rewrite contains_char_app, H. reflexivity.
Qed.

Lemma attribution_line d :
  contains_char "C" d = false ->
  count_sub attribution ("Generated on " ++ d ++ " | ") = 0.
Proof.
  intros H. unfold attribution. apply count_sub_absent.
  rewrite !contains_char_app, H. reflexivity.
Qed.

Lemma count_generated_on_header input_path d :
  count_sub generated_on
    (_create_header_section (document_title input_path) (strftime d)) = 1.
Proof.
  rewrite header_section_form. unfold generated_on.
  rewrite count_sub_header by reflexivity.
  fold generated_on.
  rewrite count_sub_document_title by reflexivity.
  rewrite generated_on_line by (apply strftime_without; reflexivity).
  reflexivity.
Qed.

Lemma count_attribution_header input_path d :
  count_sub attribution
    (_create_header_section (document_title input_path) (strftime d)) = 0.
Proof.
  rewrite header_section_form. unfold attribution.
  rewrite count_sub_header by reflexivity.
  fold attribution.
  rewrite count_sub_document_title by reflexivity.
  rewrite attribution_line by (apply strftime_without; reflexivity).
  reflexivity.
Qed.

Lemma fixed_text_generated_on :
  count_sub generated_on page_0 = 0 /\ count_sub generated_on page_1 = 0
  /\ count_sub generated_on page_2 = 0 /\ count_sub generated_on page_3 = 0
  /\ count_sub generated_on page_4 = 0 /\ count_sub generated_on page_5 = 0
  /\ count_sub generated_on css_template = 0
  /\ count_sub generated_on _create_footer_section = 0.
Proof. vm_compute. repeat split. Qed.

Lemma fixed_text_attribution :
  count_sub attribution page_0 = 0 /\ count_sub attribution page_1 = 0
  /\ count_sub attribution page_2 = 0 /\ count_sub attribution page_3 = 0
  /\ count_sub attribution page_4 = 0 /\ count_sub attribution page_5 = 0
  /\ count_sub attribution css_template = 0
  /\ count_sub attribution _create_footer_section = 1.
Proof. vm_compute. repeat split. Qed.

(** The two texts in the document built for one input: the fixed text,
    the title and the stylesheet hold neither, the header holds the first
    once and the footer the second once. *)
Lemma full_html_counts E input_path md_content include_headers :
  exists doc,
    full_html E input_path md_content include_headers = Ok doc
    /\ count_sub generated_on doc
       = (if include_headers then 1 else 0)
         + count_sub generated_on (markdown_convert E extensions md_content)
    /\ count_sub attribution doc
       = (if include_headers then 1 else 0)
         + count_sub attribution (markdown_convert E extensions md_content).
Proof.
  eexists. split; [apply full_html_page|].
  split.
  - destruct fixed_text_generated_on
      as (H0 & H1 & H2 & H3 & H4 & H5 & Hcss & Hfoot).
    unfold generated_on at 1. rewrite count_sub_page by reflexivity.
    fold generated_on.
    rewrite count_sub_document_title by reflexivity.
    rewrite H0, H1, H2, H3, H4, H5, Hcss.
    destruct include_headers.
    + rewrite count_generated_on_header, Hfoot. lia.
    + simpl. lia.
  - destruct fixed_text_attribution
      as (H0 & H1 & H2 & H3 & H4 & H5 & Hcss & Hfoot).
    unfold attribution at 1. rewrite count_sub_page by reflexivity.
    fold attribution.
    rewrite count_sub_document_title by reflexivity.
    rewrite H0, H1, H2, H3, H4, H5, Hcss.
    destruct include_headers.
    + rewrite count_attribution_header, Hfoot. lia.
    + simpl. lia.
Qed.

(** ** Paths *)

Lemma split_on_without sep s :
  contains_char sep s = false -> split_on sep s = [s].
Proof.
  induction s as [|c s IH]; intros H; [reflexivity|].
  simpl in *. apply orb_false_iff in H. destruct H as [Hc Hs].
  rewrite Hc, (IH Hs). reflexivity.
Qed.

Lemma split_on_app sep a b :
  contains_char sep a = false ->
  split_on sep (a ++ String sep b) = a :: split_on sep b.
Proof.
  induction a as [|c a IH]; intros H.
  - simpl. now rewrite Ascii.eqb_refl.
  - simpl in *. apply orb_false_iff in H. destruct H as [Hc Ha].
    rewrite Hc, (IH Ha). reflexivity.
Qed.

Lemma split_on_parts sep s :
  Forall (fun x => contains_char sep x = false) (split_on sep s).
Proof.
  induction s as [|c s IH]; simpl.
  - constructor; [reflexivity | constructor].
  - destruct (Ascii.eqb c sep) eqn:Hc.
    + constructor; [reflexivity | exact IH].
    + destruct (split_on sep s) as [|w ws].
      * constructor; [simpl; now rewrite Hc | constructor].
      * inversion IH; subst. constructor; [|assumption].
        simpl. rewrite Hc. assumption.
Qed.

Lemma good_part_spec x :
  good_part x = true <->
  x <> EmptyString /\ x <> "." /\ contains_char "/" x = false.
Proof.
  unfold good_part, keep_part.
  rewrite !andb_true_iff, !negb_true_iff, !eqs_false. tauto.
Qed.

Lemma good_part_head x :
  good_part x = true ->
  exists c r, x = String c r /\ Ascii.eqb c "/" = false.
Proof.
  intros H. apply good_part_spec in H. destruct H as (Hne & _ & Hs).
  destruct x as [|c r]; [congruence|].
  exists c, r. split; [reflexivity|].
  simpl in Hs. now apply orb_false_iff in Hs.
Qed.

Lemma join_cons sep x y l : join sep (x :: y :: l) = x ++ sep ++ join sep (y :: l).
Proof. reflexivity. Qed.

Lemma join_head l :
  l <> [] -> Forall (fun x => good_part x = true) l ->
  exists c r, join "/" l = String c r /\ Ascii.eqb c "/" = false.
Proof.
  intros Hne Hl. destruct l as [|x l]; [congruence|].
  inversion Hl; subst.
  destruct (good_part_head _ H1) as (c & r & -> & Hc).
  destruct l as [|y l].
  - exists c, r. auto.
  - rewrite join_cons. simpl. eauto.
Qed.

Lemma split_join l :
  Forall (fun x => good_part x = true) l ->
  filter keep_part (split_on "/" (join "/" l)) = l.
Proof.
  induction l as [|x l IH]; intros Hl; [reflexivity|].
  inversion Hl as [|? ? Hx Hl']; subst.
  pose proof Hx as Hx'. apply good_part_spec in Hx'.
  destruct Hx' as (_ & _ & Hs).
  unfold good_part in Hx. apply andb_true_iff in Hx. destruct Hx as [Hk _].
  destruct l as [|y l].
  - simpl. rewrite split_on_without by assumption. simpl. now rewrite Hk.
  - rewrite join_cons.
    change ("/" ++ join "/" (y :: l)) with (String "/" (join "/" (y :: l))).
    rewrite split_on_app by assumption.
    simpl filter. rewrite Hk. f_equal. now apply IH.
Qed.

Lemma splitroot_relative c r :
  Ascii.eqb c "/" = false -> splitroot (String c r) = (EmptyString, String c r).
Proof.
  intros H. unfold splitroot.
  destruct c as [[] [] [] [] [] [] [] []]; try reflexivity; discriminate.
Qed.

Lemma Path_wf s : wf_path (Path s).
Proof.
  unfold Path. destruct (splitroot s) as [r rel] eqn:Hr. split; simpl.
  - unfold splitroot in Hr.
    destruct s as [|c s]; [inversion Hr; auto|].
    destruct c as [[] [] [] [] [] [] [] []];
      try (inversion Hr; subst; auto; fail).
    destruct (Nat.eqb _ _); inversion Hr; auto.
  - apply Forall_forall. intros x Hx. apply filter_In in Hx.
    destruct Hx as [Hin Hk]. unfold good_part. rewrite Hk. simpl.
    pose proof (split_on_parts "/" rel) as Hall.
    rewrite Forall_forall in Hall. now rewrite (Hall x Hin).
Qed.

Lemma lstrip_join l :
  Forall (fun x => good_part x = true) l ->
  lstrip "/" (join "/" l) = join "/" l.
Proof.
  intros Hl. destruct l as [|x l]; [reflexivity|].
  destruct (@join_head (x :: l) ltac:(discriminate) Hl) as (c & r & -> & Hc).
  simpl. now rewrite Hc.
Qed.

(** [Path (str p) = p] on the paths [Path] builds. *)
Lemma Path_str p : wf_path p -> Path (str p) = p.
Proof.
  destruct p as [r l]. intros [Hr Hl]. simpl in *.
  unfold str, Path. simpl.
  destruct Hr as [-> | [-> | ->]].
  - rewrite eqs_refl.
    destruct l as [|x l]; [reflexivity|].
    destruct (@join_head (x :: l) ltac:(discriminate) Hl) as (c & r & Hj & Hc).
    rewrite Hj, (splitroot_relative _ _ Hc), <- Hj, split_join by assumption.
    reflexivity.
  - change (eqs "/" EmptyString) with false. cbv iota.
    change ("/" ++ join "/" l) with (String "/" (join "/" l)).
    unfold splitroot.
    change (lstrip "/" (String "/" (join "/" l))) with (lstrip "/" (join "/" l)).
    rewrite lstrip_join by assumption.
    change (String.length (String "/" (join "/" l)))
      with (S (String.length (join "/" l))).
    replace (S (String.length (join "/" l)) - String.length (join "/" l)) with 1
      by lia.
    simpl Nat.eqb. cbv iota. rewrite split_join by assumption. reflexivity.
  - change (eqs "//" EmptyString) with false. cbv iota.
    change ("//" ++ join "/" l) with (String "/" (String "/" (join "/" l))).
    unfold splitroot.
    change (lstrip "/" (String "/" (String "/" (join "/" l))))
      with (lstrip "/" (join "/" l)).
    rewrite lstrip_join by assumption.
    change (String.length (String "/" (String "/" (join "/" l))))
      with (S (S (String.length (join "/" l)))).
    replace (S (S (String.length (join "/" l))) - String.length (join "/" l))
      with 2 by lia.
    simpl Nat.eqb. cbv iota. rewrite split_join by assumption. reflexivity.
Qed.

Lemma Path_str_Path s : Path (str (Path s)) = Path s.
Proof. apply Path_str, Path_wf. Qed.

Lemma fs_key_idem s : fs_key (fs_key s) = fs_key s.
Proof. unfold fs_key. now rewrite Path_str_Path. Qed.


(** *** Names, stems and suffixes *)

Lemma rfind_absent c s : contains_char c s = false -> rfind c s = None.
Proof.
  induction s as [|a s IH]; intros H; [reflexivity|].
  simpl in *. apply orb_false_iff in H. destruct H as [Ha Hs].
  now rewrite (IH Hs), Ha.
Qed.

Lemma rfind_last_dot s ext :
  contains_char "." ext = false ->
  rfind "." (s ++ String "." ext) = Some (String.length s).
Proof.
  intros H. induction s as [|a s IH]; simpl.
  - now rewrite (rfind_absent _ _ H).
  - now rewrite IH.
Qed.

Lemma suffix_index_dot s ext :
  s <> EmptyString -> ext <> EmptyString -> contains_char "." ext = false ->
  suffix_index (s ++ String "." ext) = Some (String.length s).
Proof.
  intros Hs He Hd. unfold suffix_index. rewrite rfind_last_dot by assumption.
  rewrite slength_app. simpl String.length.
  destruct s as [|a s]; [congruence|]. destruct ext as [|b ext]; [congruence|].
  simpl String.length.
  replace ((0 <? S (String.length s))%nat) with true
    by (symmetry; apply Nat.ltb_lt; lia).
  replace ((S (String.length s)
            <? S (String.length s) + S (S (String.length ext)) - 1)%nat)
    with true by (symmetry; apply Nat.ltb_lt; lia).
  reflexivity.
Qed.

Lemma stem_of_dot s ext :
  s <> EmptyString -> ext <> EmptyString -> contains_char "." ext = false ->
  stem_of (s ++ String "." ext) = s.
Proof.
  intros Hs He Hd. unfold stem_of. rewrite suffix_index_dot by assumption.
  apply substring_0_app.
Qed.

Lemma suffix_of_dot s ext :
  s <> EmptyString -> ext <> EmptyString -> contains_char "." ext = false ->
  suffix_of (s ++ String "." ext) = String "." ext.
Proof.
  intros Hs He Hd. unfold suffix_of. rewrite suffix_index_dot by assumption.
  rewrite substring_skip, slength_app.
  replace (String.length s + String.length (String "." ext) - String.length s)
    with (String.length (String "." ext)) by lia.
  apply substring_0_all.
Qed.

Lemma suffix_index_bound nm i :
  suffix_index nm = Some i -> 0 < i /\ i < String.length nm - 1.
Proof.
  unfold suffix_index. destruct (rfind "." nm) as [j|]; [|discriminate].
  destruct ((0 <? j)%nat && (j <? String.length nm - 1)%nat) eqn:H;
    [|discriminate].
  intros Heq. inversion Heq; subst.
  apply andb_true_iff in H. destruct H as [H1 H2].
  apply Nat.ltb_lt in H1. apply Nat.ltb_lt in H2. auto.
Qed.

Lemma stem_of_nonempty nm : nm <> EmptyString -> stem_of nm <> EmptyString.
Proof.
  intros Hn. unfold stem_of. destruct (suffix_index nm) as [i|] eqn:Hi;
    [|assumption].
  apply suffix_index_bound in Hi. intros Heq.
  assert (Hl : String.length (substring 0 i nm) = i)
    by (apply slength_substring; lia).
  rewrite Heq in Hl. simpl in Hl. lia.
Qed.

Lemma stem_of_no_slash nm :
  contains_char "/" nm = false -> contains_char "/" (stem_of nm) = false.
Proof.
  intros H. unfold stem_of. destruct (suffix_index nm);
    [now apply contains_char_substring | assumption].
Qed.

(** The name [with_suffix] builds is the stem followed by the suffix. *)
Lemma with_suffix_name nm suf :
  (if eqs (suffix_of nm) EmptyString then nm ++ suf
   else substring 0 (String.length nm - String.length (suffix_of nm)) nm ++ suf)
  = stem_of nm ++ suf.
Proof.
  unfold suffix_of, stem_of. destruct (suffix_index nm) as [i|] eqn:Hi.
  - apply suffix_index_bound in Hi.
    assert (Hl : String.length (substring i (String.length nm - i) nm)
                 = String.length nm - i)
      by (apply slength_substring; lia).
    destruct (eqs _ _) eqn:He.
    + apply eqs_true in He. rewrite He in Hl. simpl in Hl. lia.
    + rewrite Hl.
      replace (String.length nm - (String.length nm - i)) with i by lia.
      reflexivity.
  - reflexivity.
Qed.

Lemma plain_html : plain_ext "html".
Proof. repeat split; discriminate. Qed.

Lemma plain_pdf : plain_ext "pdf".
Proof. repeat split; discriminate. Qed.

Lemma with_suffix_spec p ext :
  plain_ext ext ->
  with_suffix p (String "." ext)
  = if eqs (name p) EmptyString
    then Raise (ValueError (path_repr p ++ " has an empty name"))
    else Ok (mkPath (root p)
               (removelast (parts p) ++ [stem p ++ String "." ext])).
Proof.
  intros (Hne & Hsl & Hd). unfold with_suffix.
  cbn [contains_char]. rewrite Hsl.
  change (Ascii.eqb "." "/") with false. cbn [orb].
  change (startswith "." (String "." ext)) with true.
  replace (eqs (String "." ext) ".") with false.
  2:{ symmetry. apply eqs_false. intros H. inversion H. congruence. }
  cbn [negb andb orb].
  replace (negb (eqs (String "." ext) EmptyString) && false) with false
    by (now rewrite andb_false_r).
  cbn [orb]. destruct (eqs (name p) EmptyString); [reflexivity|].
  unfold stem. now rewrite with_suffix_name.
Qed.

Lemma name_snoc r l x : name (mkPath r (l ++ [x])) = x.
Proof. unfold name. simpl. apply last_last. Qed.

Lemma parent_snoc r l x : parent (mkPath r (l ++ [x])) = mkPath r l.
Proof. unfold parent. simpl. now rewrite removelast_last. Qed.

Lemma last_In {A} (l : list A) d : l <> [] -> In (last l d) l.
Proof.
  induction l as [|x l IH]; intros H; [congruence|].
  destruct l as [|y l]; [now left|].
  right. apply IH. discriminate.
Qed.

Lemma wf_name p :
  wf_path p -> name p = EmptyString \/ good_part (name p) = true.
Proof.
  intros [_ Hl]. unfold name. destruct (parts p) as [|x l]; [now left|].
  right. rewrite Forall_forall in Hl. apply Hl. apply last_In. discriminate.
Qed.

Lemma wf_stem p :
  wf_path p -> name p <> EmptyString ->
  stem p <> EmptyString /\ contains_char "/" (stem p) = false.
Proof.
  intros Hw Hn. destruct (wf_name _ Hw) as [H|H]; [congruence|].
  apply good_part_spec in H. destruct H as (_ & _ & Hs). unfold stem. split.
  - now apply stem_of_nonempty.
  - now apply stem_of_no_slash.
Qed.

Lemma good_part_stem_ext s ext :
  s <> EmptyString -> contains_char "/" s = false -> plain_ext ext ->
  good_part (s ++ String "." ext) = true.
Proof.
  intros Hs Hsl (He & Hesl & _). apply good_part_spec. repeat split.
  - destruct s; [congruence | discriminate].
  - destruct s as [|a s]; [congruence|]. simpl. intros H. inversion H.
    destruct s; discriminate.
  - rewrite contains_char_app, Hsl. simpl. exact Hesl.
Qed.

Lemma Forall_removelast {A} (P : A -> Prop) l :
  Forall P l -> Forall P (removelast l).
Proof.
  induction l as [|x l IH]; intros H; [constructor|].
  inversion H; subst. simpl. destruct l; [constructor|].
  constructor; auto.
Qed.

Lemma wf_snoc p x :
  wf_path p -> good_part x = true -> wf_path (mkPath (root p) (parts p ++ [x])).
Proof.
  intros [Hr Hl] Hx. split; [exact Hr|]. simpl.
  apply Forall_app. split; [assumption | constructor; [assumption|constructor]].
Qed.

Lemma wf_parent p : wf_path p -> wf_path (parent p).
Proof. intros [Hr Hl]. split; [exact Hr|]. now apply Forall_removelast. Qed.

(** What [with_suffix] returns: same directory, same stem, the suffix
    asked for. *)
Lemma with_suffix_ok p ext q :
  wf_path p -> plain_ext ext -> with_suffix p (String "." ext) = Ok q ->
  wf_path q /\ parent q = parent p /\ stem q = stem p
  /\ suffix q = String "." ext /\ name q = stem p ++ String "." ext
  /\ name p <> EmptyString.
Proof.
  intros Hw He H. rewrite with_suffix_spec in H by assumption.
  destruct (eqs (name p) EmptyString) eqn:Hn; [discriminate|].
  apply eqs_false in Hn. inversion H; subst q; clear H.
  destruct (wf_stem _ Hw Hn) as [Hs Hsl].
  pose proof He as (He1 & He2 & He3).
  split; [|split; [|split; [|split; [|split]]]].
  - apply (wf_snoc (parent p)); [now apply wf_parent|].
    now apply good_part_stem_ext.
  - rewrite parent_snoc. reflexivity.
  - unfold stem at 1. rewrite name_snoc. now apply stem_of_dot.
  - unfold suffix. rewrite name_snoc. now apply suffix_of_dot.
  - apply name_snoc.
  - assumption.
Qed.

(** [p / x] for one good component [x]. *)
Lemma Path_single x : good_part x = true -> Path x = mkPath EmptyString [x].
Proof.
  intros Hx. destruct (good_part_head _ Hx) as (c & r & Heq & Hc).
  unfold Path. rewrite Heq, (splitroot_relative _ _ Hc), <- Heq.
  pose proof Hx as Hk. unfold good_part in Hk.
  apply andb_true_iff in Hk. destruct Hk as [Hk _].
  apply good_part_spec in Hx. destruct Hx as (_ & _ & Hs).
  rewrite split_on_without by assumption.
  simpl filter. now rewrite Hk.
Qed.

Lemma joinpath_single p x :
  good_part x = true -> joinpath p x = mkPath (root p) (parts p ++ [x]).
Proof.
  intros Hx. unfold joinpath. now rewrite (Path_single _ Hx).
Qed.

(** ** The file system *)

Lemma assoc_set_same k v f : assoc k (fs_set k v f) = Some v.
Proof.
  induction f as [|[k' v'] f IH]; simpl.
  - now rewrite eqs_refl.
  - destruct (eqs k' k) eqn:Hk; simpl.
    + now rewrite eqs_refl.
    + now rewrite Hk.
Qed.

Lemma assoc_set_other k k' v f :
  k' <> k -> assoc k' (fs_set k v f) = assoc k' f.
Proof.
  intros Hne. induction f as [|[k0 v0] f IH]; simpl.
  - replace (eqs k k') with false; [reflexivity|].
    symmetry. apply eqs_false. congruence.
  - destruct (eqs k0 k) eqn:Hk; simpl.
    + apply eqs_true in Hk. subst k0.
      replace (eqs k k') with false; [reflexivity|].
      symmetry. apply eqs_false. congruence.
    + destruct (eqs k0 k'); [reflexivity | exact IH].
Qed.


Lemma fs_lookup_key f s : fs_lookup f (fs_key s) = fs_lookup f s.
Proof. unfold fs_lookup. now rewrite fs_key_idem. Qed.

Lemma fs_lookup_same_key f s s' :
  fs_key s = fs_key s' -> fs_lookup f s = fs_lookup f s'.
Proof. intros H. unfold fs_lookup. now rewrite H. Qed.

Lemma not_dir_not_always f s :
  fs_lookup f s <> Some Dir -> always_dir (fs_key s) = false.
Proof.
  unfold fs_lookup. destruct (always_dir (fs_key s)); [congruence | reflexivity].
Qed.

Lemma fs_lookup_set_same f s v :
  always_dir (fs_key s) = false ->
  fs_lookup (fs_set (fs_key s) v f) s = Some v.
Proof. intros H. unfold fs_lookup. rewrite H. apply assoc_set_same. Qed.

Lemma fs_lookup_set_other f s s' v :
  fs_key s' <> fs_key s ->
  fs_lookup (fs_set (fs_key s) v f) s' = fs_lookup f s'.
Proof.
  intros H. unfold fs_lookup. destruct (always_dir (fs_key s')); [reflexivity|].
  now apply assoc_set_other.
Qed.


Lemma keeps_files_refl f : keeps_files f f.
Proof. intros s H. exact H. Qed.

Lemma keeps_files_trans f g h :
  keeps_files f g -> keeps_files g h -> keeps_files f h.
Proof. intros H1 H2 s H. auto. Qed.

Lemma keeps_dirs_refl f : keeps_dirs f f.
Proof. intros s H. exact H. Qed.

Lemma keeps_dirs_trans f g h :
  keeps_dirs f g -> keeps_dirs g h -> keeps_dirs f h.
Proof. intros H1 H2 s H. auto. Qed.

Lemma keeps_files_set_file f s text :
  keeps_files f (fs_set (fs_key s) (File text) f).
Proof.
  intros s' H. unfold is_file in *.
  destruct (string_dec (fs_key s') (fs_key s)) as [Heq|Hne].
  - rewrite (fs_lookup_same_key f s' s Heq) in H.
    rewrite (fs_lookup_same_key _ s' s Heq).
    rewrite fs_lookup_set_same; [reflexivity|].
    apply (not_dir_not_always f). intros Hd. rewrite Hd in H. discriminate.
  - now rewrite fs_lookup_set_other.
Qed.

Lemma keeps_files_set_dir f s :
  fs_lookup f s = None -> keeps_files f (fs_set (fs_key s) Dir f).
Proof.
  intros Hnone s' H. unfold is_file in *.
  destruct (string_dec (fs_key s') (fs_key s)) as [Heq|Hne].
  - rewrite (fs_lookup_same_key f s' s Heq), Hnone in H. discriminate.
  - now rewrite fs_lookup_set_other.
Qed.

Lemma keeps_dirs_set f s v :
  fs_lookup f s <> Some Dir -> keeps_dirs f (fs_set (fs_key s) v f).
Proof.
  intros Hnd s' H. unfold is_dir in *.
  destruct (string_dec (fs_key s') (fs_key s)) as [Heq|Hne].
  - rewrite (fs_lookup_same_key f s' s Heq) in H.
    destruct (fs_lookup f s) as [[]|]; simpl in *; congruence.
  - now rewrite fs_lookup_set_other.
Qed.


Lemma apply_writes_keeps written f :
  keeps_files f (apply_writes written f) /\ keeps_dirs f (apply_writes written f).
Proof.
  revert f. induction written as [|[filename bytes] rest IH]; intros f; simpl.
  - split; [apply keeps_files_refl | apply keeps_dirs_refl].
  - set (f' := match fs_lookup f (parent_of filename) with
               | Some Dir =>
                   match fs_lookup f filename with
                   | Some Dir => f
                   | _ => fs_set (fs_key filename) (File bytes) f
                   end
               | _ => f
               end).
    assert (Hstep : keeps_files f f' /\ keeps_dirs f f').
    { unfold f'. destruct (fs_lookup f (parent_of filename)) as [[]|];
        try (split; [apply keeps_files_refl | apply keeps_dirs_refl]).
      destruct (fs_lookup f filename) as [[]|] eqn:Hl;
        try (split; [apply keeps_files_refl | apply keeps_dirs_refl]);
        (split; [apply keeps_files_set_file
                | apply keeps_dirs_set; rewrite Hl; discriminate]). }
    destruct Hstep as [Hf Hd]. destruct (IH f') as [Hf' Hd'].
    replace (match fs_lookup f (parent_of filename) with
             | Some (File _) => f
             | Some Dir =>
                 match fs_lookup f filename with
                 | Some Dir => f
                 | _ => fs_set (fs_key filename) (File bytes) f
                 end
             | None => f
             end) with f'.
    + split; [eapply keeps_files_trans | eapply keeps_dirs_trans]; eauto.
    + unfold f'. destruct (fs_lookup f (parent_of filename)) as [[]|];
        reflexivity.
Qed.

(** ** What the methods keep of the file system *)

Lemma grows_refl f : grows f f.
Proof. split; [apply keeps_files_refl | apply keeps_dirs_refl]. Qed.

Lemma grows_trans f g h : grows f g -> grows g h -> grows f h.
Proof.
  intros [A B] [C D].
  split; [eapply keeps_files_trans | eapply keeps_dirs_trans]; eauto.
Qed.

Section Preservation.

Variable R : fs -> fs -> Prop.
Hypothesis R_refl : forall f, R f f.
Hypothesis R_trans : forall f g h, R f g -> R g h -> R f h.

Lemma preserves_ret {A} (a : A) : preserves R (ret a).
Proof. intros w w' r H. inversion H; subst. apply R_refl. Qed.

Lemma preserves_raise {A} e : preserves R (@raise A e).
Proof. intros w w' r H. inversion H; subst. apply R_refl. Qed.

Lemma preserves_lift {A} (x : result A) : preserves R (lift x).
Proof. intros w w' r H. inversion H; subst. apply R_refl. Qed.

Lemma preserves_emit e : preserves R (emit e).
Proof. intros w w' r H. inversion H; subst. apply R_refl. Qed.

Lemma preserves_bind {A B} (c : M A) (k : A -> M B) :
  preserves R c -> (forall a, preserves R (k a)) -> preserves R (bind c k).
Proof.
  intros Hc Hk w w' r H. unfold bind in H.
  destruct (c w) as [w1 [a|e]] eqn:Hcw.
  - eapply R_trans; [eapply Hc; eauto | eapply Hk; eauto].
  - inversion H; subst. eapply Hc; eauto.
Qed.

Lemma preserves_try {A} (c : M A) (h : exn -> M A) :
  preserves R c -> (forall e, preserves R (h e)) -> preserves R (try_except c h).
Proof.
  intros Hc Hh w w' r H. unfold try_except in H.
  destruct (c w) as [w1 [a|e]] eqn:Hcw.
  - inversion H; subst. eapply Hc; eauto.
  - eapply R_trans; [eapply Hc; eauto | eapply Hh; eauto].
Qed.

Lemma preserves_open_read filename : preserves R (open_read filename).
Proof.
  intros w w' r H. unfold open_read in H.
  destruct (fs_lookup (files w) filename) as [[bytes|]|];
    try (inversion H; subst; apply R_refl).
  destruct (decode_utf8 bytes); inversion H; subst; apply R_refl.
Qed.

End Preservation.


Lemma grows_open_write filename text : preserves grows (open_write filename text).
Proof.
  intros w w' r H. unfold open_write in H. cbv zeta in H.
  destruct (fs_lookup (files w) (parent_of filename)) as [[|]|];
    try (inversion H; subst; apply grows_refl).
  destruct (fs_lookup (files w) filename) as [[|]|] eqn:Hl;
    try destruct (creation_refused filename);
    inversion H; subst; simpl; try apply grows_refl;
    (split; [apply keeps_files_set_file
            | apply keeps_dirs_set; rewrite Hl; discriminate]).
Qed.

Lemma grows_os_mkdir filename : preserves grows (os_mkdir filename).
Proof.
  intros w w' r H. unfold os_mkdir in H.
  destruct (fs_lookup (files w) (parent_of filename)) as [[|]|];
    try (inversion H; subst; apply grows_refl).
  destruct (fs_lookup (files w) filename) as [n|] eqn:Hl;
    try destruct (creation_refused filename);
    inversion H; subst; simpl; try apply grows_refl.
  split; [now apply keeps_files_set_dir
         | apply keeps_dirs_set; rewrite Hl; discriminate].
Qed.


Ltac grows_bind :=
  apply preserves_bind; [apply grows_trans | | intro].
Ltac grows_try :=
  apply preserves_try; [apply grows_trans | | intro].
Ltac grows_done :=
  solve [ apply preserves_ret, grows_refl
        | apply preserves_raise, grows_refl
        | apply preserves_lift, grows_refl
        | apply preserves_emit, grows_refl
        | apply preserves_open_read, grows_refl ].

Lemma grows_mkdir_single p exist_ok : preserves grows (mkdir_single p exist_ok).
Proof.
  unfold mkdir_single. grows_try; [apply grows_os_mkdir|].
  intros w w' r H.
  destruct (negb exist_ok || negb (is_dir (files w) (str p)));
    inversion H; subst; apply grows_refl.
Qed.

Lemma mkdir_parents_eq r rparts exist_ok :
  mkdir_parents r rparts exist_ok
  = let p := mkPath r (rev rparts) in
    try_except (os_mkdir (str p))
      (fun e =>
         if isinstance e cls_FileNotFoundError then
           match rparts with
           | [] => raise e
           | _ :: rparent =>
               mkdir_parents r rparent true ;;; mkdir_single p exist_ok
           end
         else
           fun w =>
             if negb exist_ok || negb (is_dir (files w) (str p))
             then (w, Raise e) else (w, Ok tt)).
Proof. destruct rparts; reflexivity. Qed.

Lemma grows_mkdir_parents r rparts exist_ok :
  preserves grows (mkdir_parents r rparts exist_ok).
Proof.
  revert exist_ok. induction rparts as [|x rparent IH]; intros exist_ok;
    rewrite mkdir_parents_eq; cbv zeta;
    (grows_try; [apply grows_os_mkdir|]);
    destruct (isinstance e cls_FileNotFoundError).
  - grows_done.
  - intros w w' r0 H.
    destruct (negb exist_ok || negb (is_dir (files w) _));
      inversion H; subst; apply grows_refl.
  - grows_bind; [apply IH | apply grows_mkdir_single].
  - intros w w' r0 H.
    destruct (negb exist_ok || negb (is_dir (files w) _));
      inversion H; subst; apply grows_refl.
Qed.

Lemma grows_mkdir p parents exist_ok : preserves grows (mkdir p parents exist_ok).
Proof.
  unfold mkdir. destruct parents;
    [apply grows_mkdir_parents | apply grows_mkdir_single].
Qed.

Section ConverterKeeps.

Variable E : Env.

Lemma grows_subprocess_run cmd check timeout :
  preserves grows (subprocess_run E cmd check timeout).
Proof.
  intros w w' r H. unfold subprocess_run in H. simpl in H.
  destruct (spawn E cmd timeout (files w)) as [rc written|e].
  - destruct (check && negb (Z.eqb rc 0)); inversion H; subst; simpl;
      apply apply_writes_keeps.
  - inversion H; subst. apply grows_refl.
Qed.

Lemma grows_try_chrome chrome_path html_file pdf_file :
  preserves grows (try_chrome E chrome_path html_file pdf_file).
Proof.
  unfold try_chrome. grows_try.
  - grows_bind; [apply grows_subprocess_run|].
    grows_bind; [apply grows_subprocess_run|].
    destruct (Z.eqb _ 0); cbv iota; grows_done.
  - destruct (catches _ e); cbv iota; grows_done.
Qed.

Lemma grows_html_to_pdf_scan candidates html_file pdf_file :
  preserves grows (html_to_pdf_scan E candidates html_file pdf_file).
Proof.
  induction candidates as [|c rest IH]; simpl.
  - grows_done.
  - grows_bind; [apply grows_try_chrome|].
    destruct a as [b|]; [grows_done | exact IH].
Qed.


End ConverterKeeps.

(** ** Running the monad *)

Lemma bind_ok_inv {A B} (c : M A) (k : A -> M B) w w' b :
  bind c k w = (w', Ok b) ->
  exists w1 a, c w = (w1, Ok a) /\ k a w1 = (w', Ok b).
Proof.
  unfold bind. destruct (c w) as [w1 [a|e]]; intros H; [eauto|discriminate].
Qed.

Lemma bind_raise_inv {A B} (c : M A) (k : A -> M B) w w' e :
  bind c k w = (w', Raise e) ->
  c w = (w', Raise e)
  \/ exists w1 a, c w = (w1, Ok a) /\ k a w1 = (w', Raise e).
Proof.
  unfold bind. destruct (c w) as [w1 [a|e']]; intros H.
  - right. eauto.
  - left. inversion H; subst. reflexivity.
Qed.

Lemma bind_ok_step {A B} (c : M A) (k : A -> M B) w w1 a :
  c w = (w1, Ok a) -> bind c k w = k a w1.
Proof. intros H. unfold bind. now rewrite H. Qed.

Lemma bind_raise_step {A B} (c : M A) (k : A -> M B) w w1 e :
  c w = (w1, Raise e) -> bind c k w = (w1, Raise e).
Proof. intros H. unfold bind. now rewrite H. Qed.

Lemma lift_inv {A} (x : result A) w w' r : lift x w = (w', r) -> w' = w /\ r = x.
Proof. unfold lift. intros H. inversion H. auto. Qed.

Lemma open_read_ok filename w w' text :
  open_read filename w = (w', Ok text) ->
  exists bytes,
    fs_lookup (files w) filename = Some (File bytes)
    /\ decode_utf8 bytes = Some text
    /\ w' = log (ev_read filename) w.
Proof.
  unfold open_read.
  destruct (fs_lookup (files w) filename) as [[bytes|]|]; try discriminate.
  destruct (decode_utf8 bytes) as [t|] eqn:Hd; intros H; inversion H; subst.
  eauto.
Qed.

Lemma open_read_raise filename w w' e :
  open_read filename w = (w', Raise e) ->
  files w' = files w
  /\ (e = OSError (absent_errno (files w) filename) filename
      \/ e = OSError EISDIR filename
      \/ e = UnicodeDecodeError filename).
Proof.
  unfold open_read.
  destruct (fs_lookup (files w) filename) as [[bytes|]|].
  - destruct (decode_utf8 bytes); intros H; inversion H; subst. auto.
  - intros H; inversion H; subst. auto.
  - intros H; inversion H; subst. auto.
Qed.

Lemma open_write_ok filename text w w' u :
  open_write filename text w = (w', Ok u) ->
  fs_lookup (files w) (parent_of filename) = Some Dir
  /\ fs_lookup (files w) filename <> Some Dir
  /\ w' = log (ev_write filename)
            (set_files (fs_set (fs_key filename) (File text) (files w)) w).
Proof.
  unfold open_write. cbv zeta.
  destruct (fs_lookup (files w) (parent_of filename)) as [[|]|];
    try discriminate.
  destruct (fs_lookup (files w) filename) as [[|]|];
    try destruct (creation_refused filename); intros H;
    inversion H; subst; repeat split; discriminate.
Qed.

Lemma open_write_raise filename text w w' e :
  open_write filename text w = (w', Raise e) ->
  w' = w /\ exists errno, e = OSError errno filename.
Proof.
  unfold open_write. cbv zeta.
  destruct (fs_lookup (files w) (parent_of filename)) as [[|]|];
    try (intros H; inversion H; subst; eauto; fail).
  destruct (fs_lookup (files w) filename) as [[|]|];
    try destruct (creation_refused filename); intros H;
    inversion H; subst; eauto.
Qed.

Lemma default_output_raise p suf o e :
  default_output p suf o = Raise e -> exists msg, e = ValueError msg.
Proof.
  unfold default_output, with_suffix. destruct o; [discriminate|].
  destruct (contains_char "/" suf); [intros H; inversion H; eauto|].
  destruct (_ || _); [intros H; inversion H; eauto|].
  destruct (eqs (name p) EmptyString); intros H; inversion H; eauto.
Qed.

Section SingleFile.

Variable E : Env.

Lemma convert_md_to_html_unavailable input o hdr w :
  MARKDOWN_AVAILABLE E = false ->
  convert_md_to_html E input o hdr w = (w, Raise DependencyMissing).
Proof. intros H. unfold convert_md_to_html. now rewrite H. Qed.

Lemma convert_md_to_html_missing input o hdr w :
  MARKDOWN_AVAILABLE E = true ->
  exists_ (files w) (str (Path input)) = false ->
  lookup_refused (files w) (str (Path input)) = false ->
  convert_md_to_html E input o hdr w = (w, Raise (InputNotFound input)).
Proof.
  intros H H' H''. unfold convert_md_to_html. rewrite H. cbn [negb].
  unfold bind, path_exists. now rewrite H', H''.
Qed.

Lemma convert_md_to_html_refused input o hdr w :
  MARKDOWN_AVAILABLE E = true ->
  exists_ (files w) (str (Path input)) = false ->
  lookup_refused (files w) (str (Path input)) = true ->
  convert_md_to_html E input o hdr w
  = (w, Raise (OSError ENAMETOOLONG (str (Path input)))).
Proof.
  intros H H' H''. unfold convert_md_to_html. rewrite H. cbn [negb].
  unfold bind, path_exists. now rewrite H', H''.
Qed.

(** An input path that is not there: the call raises, and does nothing. *)
Lemma convert_md_to_html_absent input o hdr w :
  MARKDOWN_AVAILABLE E = true ->
  exists_ (files w) (str (Path input)) = false ->
  exists e,
    convert_md_to_html E input o hdr w = (w, Raise e)
    /\ ((e = InputNotFound input
         /\ lookup_refused (files w) (str (Path input)) = false)
        \/ (e = OSError ENAMETOOLONG (str (Path input))
            /\ lookup_refused (files w) (str (Path input)) = true)).
Proof.
  intros H H'.
  destruct (lookup_refused (files w) (str (Path input))) eqn:Hr.
  - eexists. split; [now apply convert_md_to_html_refused|]. auto.
  - eexists. split; [now apply convert_md_to_html_missing|]. auto.
Qed.

(** The run of [convert_md_to_html] once both checks have passed. *)
Lemma convert_md_to_html_checked input o hdr w :
  MARKDOWN_AVAILABLE E = true ->
  exists_ (files w) (str (Path input)) = true ->
  convert_md_to_html E input o hdr w
  = (output_file <- lift (default_output (Path input) ".html" o) ;;
     md_content <- open_read (str (Path input)) ;;
     doc <- lift (full_html E (Path input) md_content hdr) ;;
     open_write (fspath output_file) doc ;;;
     ret (fspath output_file)) w.
Proof.
  intros H H'. unfold convert_md_to_html. rewrite H. cbn [negb].
  unfold bind at 1, path_exists. now rewrite H'.
Qed.

Lemma convert_md_to_html_ok input o hdr w w' out :
  convert_md_to_html E input o hdr w = (w', Ok out) ->
  exists target bytes md doc,
    MARKDOWN_AVAILABLE E = true
    /\ exists_ (files w) (str (Path input)) = true
    /\ default_output (Path input) ".html" o = Ok target
    /\ out = fspath target
    /\ fs_lookup (files w) (str (Path input)) = Some (File bytes)
    /\ decode_utf8 bytes = Some md
    /\ full_html E (Path input) md hdr = Ok doc
    /\ fs_lookup (files w) (parent_of out) = Some Dir
    /\ fs_lookup (files w) out <> Some Dir
    /\ w' = log (ev_write out)
              (set_files (fs_set (fs_key out) (File doc) (files w))
                 (log (ev_read (str (Path input))) w)).
Proof.
  intros H.
  destruct (MARKDOWN_AVAILABLE E) eqn:Hm.
  2:{ rewrite convert_md_to_html_unavailable in H by assumption. discriminate. }
  destruct (exists_ (files w) (str (Path input))) eqn:Hex.
  2:{ destruct (convert_md_to_html_absent input o hdr w Hm Hex)
        as (e0 & He0 & _).
      rewrite He0 in H. discriminate. }
  rewrite convert_md_to_html_checked in H by assumption.
  apply bind_ok_inv in H. destruct H as (w1 & target & H1 & H).
  apply lift_inv in H1. destruct H1 as [-> H1].
  apply bind_ok_inv in H. destruct H as (w2 & md & H2 & H).
  apply open_read_ok in H2. destruct H2 as (bytes & Hl & Hd & ->).
  apply bind_ok_inv in H. destruct H as (w3 & doc & H3 & H).
  apply lift_inv in H3. destruct H3 as [-> H3].
  apply bind_ok_inv in H. destruct H as (w4 & u & H4 & H).
  apply open_write_ok in H4. destruct H4 as (Hp & Hnd & ->).
  inversion H; subst.
  exists target, bytes, md, doc. simpl files in *. repeat split; auto.
Qed.

(** After a successful run the document is at the returned path. *)
Lemma convert_md_to_html_written input o hdr w w' out :
  convert_md_to_html E input o hdr w = (w', Ok out) ->
  exists bytes md doc,
    fs_lookup (files w) (str (Path input)) = Some (File bytes)
    /\ decode_utf8 bytes = Some md
    /\ full_html E (Path input) md hdr = Ok doc
    /\ fs_lookup (files w') out = Some (File doc).
Proof.
  intros H. apply convert_md_to_html_ok in H.
  destruct H as (target & bytes & md & doc & _ & _ & _ & _ & Hl & Hd & Hf
                 & _ & Hnd & ->).
  exists bytes, md, doc. repeat split; auto.
  simpl. apply fs_lookup_set_same. eapply not_dir_not_always; eauto.
Qed.

(** The only exceptions of [convert_md_to_html], and the state they
    leave: the two checks come before any input or output. *)
Lemma convert_md_to_html_raise input o hdr w w' e :
  convert_md_to_html E input o hdr w = (w', Raise e) ->
  (e = DependencyMissing /\ MARKDOWN_AVAILABLE E = false /\ w' = w)
  \/ (((e = InputNotFound input
        /\ lookup_refused (files w) (str (Path input)) = false)
       \/ (e = OSError ENAMETOOLONG (str (Path input))
           /\ lookup_refused (files w) (str (Path input)) = true))
      /\ MARKDOWN_AVAILABLE E = true
      /\ exists_ (files w) (str (Path input)) = false /\ w' = w)
  \/ (MARKDOWN_AVAILABLE E = true
      /\ exists_ (files w) (str (Path input)) = true
      /\ files w' = files w
      /\ ((exists msg, e = ValueError msg)
          \/ (exists errno filename, e = OSError errno filename)
          \/ (exists filename, e = UnicodeDecodeError filename))).
Proof.
  intros H.
  destruct (MARKDOWN_AVAILABLE E) eqn:Hm.
  2:{ rewrite convert_md_to_html_unavailable in H by assumption.
      inversion H; subst. auto. }
  destruct (exists_ (files w) (str (Path input))) eqn:Hex.
  2:{ destruct (convert_md_to_html_absent input o hdr w Hm Hex)
        as (e0 & He0 & Hcase).
      rewrite He0 in H. inversion H; subst. right. left. auto. }
  right. right. split; [reflexivity|]. split; [reflexivity|].
  rewrite convert_md_to_html_checked in H by assumption.
  apply bind_raise_inv in H. destruct H as [H|(w1 & target & H1 & H)].
  { apply lift_inv in H. destruct H as [-> H]. symmetry in H.
    apply default_output_raise in H. auto. }
  apply lift_inv in H1. destruct H1 as [-> H1].
  apply bind_raise_inv in H. destruct H as [H|(w2 & md & H2 & H)].
  { apply open_read_raise in H. destruct H as [Hf [-> | [-> | ->]]]; eauto 6. }
  apply open_read_ok in H2. destruct H2 as (bytes & Hl & Hd & ->).
  apply bind_raise_inv in H. destruct H as [H|(w3 & doc & H3 & H)].
  { apply lift_inv in H. destruct H as [_ H].
    rewrite full_html_page in H. discriminate. }
  apply lift_inv in H3. destruct H3 as [-> H3].
  apply bind_raise_inv in H. destruct H as [H|(w4 & u & H4 & H)].
  { apply open_write_raise in H. destruct H as [-> (errno & ->)].
    split; [reflexivity|]. eauto. }
  discriminate.
Qed.

End SingleFile.

(** ** The title element *)



Lemma stem_no_slash p : wf_path p -> contains_char "/" (stem p) = false.
Proof.
  intros Hw. unfold stem. apply stem_of_no_slash.
  destruct (wf_name _ Hw) as [-> | H]; [reflexivity|].
  now apply good_part_spec in H.
Qed.

Lemma document_title_no_slash s :
  contains_char "/" (document_title (Path s)) = false.
Proof.
  unfold document_title, str_title.
  rewrite title_from_slash, replace_char_slash.
  apply stem_no_slash, Path_wf.
Qed.

(** ** Claims about [convert_md_to_html] *)








(** C3, amended.  The template adds ["Generated on"] and the attribution
    line once each when headers are included and not at all otherwise:
    in the written document each text occurs as often as in the converted
    body, plus one with headers.  So with a body that holds neither text,
    both are absent without headers and present exactly once with them. *)
Theorem header_footer_texts_counted E input_file output_file include_headers
    w w' out :
  convert_md_to_html E input_file output_file include_headers w = (w', Ok out) ->
  exists bytes md_content doc,
    fs_lookup (files w) (str (Path input_file)) = Some (File bytes)
    /\ decode_utf8 bytes = Some md_content
    /\ fs_lookup (files w') out = Some (File doc)
    /\ count_sub generated_on doc
       = (if include_headers then 1 else 0)
         + count_sub generated_on (markdown_convert E extensions md_content)
    /\ count_sub attribution doc
       = (if include_headers then 1 else 0)
         + count_sub attribution (markdown_convert E extensions md_content).
Proof.
  intros H. apply convert_md_to_html_written in H.
  destruct H as (bytes & md & doc & Hb & Hd & Hf & Hl).
  exists bytes, md, doc. repeat (split; [assumption|]).
  destruct (full_html_counts E (Path input_file) md include_headers)
    as (doc' & Hf' & Hg & Ha).
  rewrite Hf in Hf'. inversion Hf'; subst doc'. auto.
Qed.

Lemma header_footer_texts_counted_witness :
  exists bytes md_content doc,
    fs_lookup sample_fs "docs/my_notes.md" = Some (File bytes)
    /\ decode_utf8 bytes = Some md_content
    /\ fs_lookup
         (files (fst (convert_md_to_html env_no_browser "docs/my_notes.md"
                        None true sample_world)))
         "docs/my_notes.html" = Some (File doc)
    /\ count_sub generated_on doc
       = 1 + count_sub generated_on (paragraph_engine extensions md_content)
    /\ count_sub attribution doc
       = 1 + count_sub attribution (paragraph_engine extensions md_content).
Proof.
  apply (header_footer_texts_counted env_no_browser "docs/my_notes.md" None
           true sample_world
           (fst (convert_md_to_html env_no_browser "docs/my_notes.md" None
                   true sample_world))
           "docs/my_notes.html").
  vm_compute. reflexivity.
Defined.

(** C3 as stated fails: a Markdown file whose text says
    ["Generated on Monday"] converts, without headers, to a document that
    contains ["Generated on"], and with headers to one that contains it
    twice. *)
Lemma header_footer_texts_counterexample :
  option_map (count_sub generated_on)
    (written_document env_no_browser "docs/todo_list.md" None false
       sample_world) = Some 1
  /\ option_map (count_sub generated_on)
       (written_document env_no_browser "docs/todo_list.md" None true
          sample_world) = Some 2.
Proof. split; vm_compute; reflexivity. Qed.


(** An input path that is not there, with a name longer than the file
    system takes: [Path.exists] raises, and [InputNotFound] is not what
    the caller sees. *)
Lemma long_name_is_refused :
  exists_ (files sample_world) long_name = false
  /\ convert_md_to_html env_no_browser long_name None true sample_world
     = (sample_world, Raise (OSError ENAMETOOLONG long_name)).
Proof. split; vm_compute; reflexivity. Qed.


(** ** The HTML-to-PDF stage *)

Lemma swallowed_catches e :
  catches [cls_CalledProcessError; cls_FileNotFoundError; cls_TimeoutExpired] e
  = swallowed e.
Proof. destruct e as [| | | | | |[] ?| | |]; reflexivity. Qed.

Lemma subprocess_run_command E cmd check timeout w :
  subprocess_run E cmd check timeout w
  = match run_command E cmd timeout w with
    | (w', Failed e) => (w', Raise e)
    | (w', Completed rc _) =>
        if check && negb (Z.eqb rc 0)
        then (w', Raise (CalledProcessError rc cmd))
        else (w', Ok rc)
    end.
Proof.
  unfold subprocess_run, run_command.
  destruct (spawn E cmd timeout (files (log (ev_run cmd) w))); reflexivity.
Qed.

Lemma try_chrome_attempt E chrome_path html_file pdf_file w :
  try_chrome E chrome_path html_file pdf_file w
  = match attempt E chrome_path html_file pdf_file w with
    | (w', Succeeds) => (w', Ok (Some true))
    | (w', Swallowed) => (w', Ok None)
    | (w', Aborts e) => (w', Raise e)
    end.
Proof.
  unfold try_chrome, attempt, try_except, bind.
  rewrite subprocess_run_command.
  destruct (run_command E [chrome_path; "--version"] 5 w) as [w1 [rc wr|e]].
  - cbn [andb]. destruct (Z.eqb rc 0) eqn:Hrc; cbn [negb].
    + rewrite subprocess_run_command.
      destruct (run_command E _ 30 w1) as [w2 [rc' wr'|e]].
      * cbn [andb]. destruct (Z.eqb rc' 0); reflexivity.
      * rewrite swallowed_catches. unfold failure.
        destruct (swallowed e); reflexivity.
    + reflexivity.
  - rewrite swallowed_catches. unfold failure.
    destruct (swallowed e); reflexivity.
Qed.

Lemma html_to_pdf_scan_first_success E candidates html_file pdf_file w :
  html_to_pdf_scan E candidates html_file pdf_file w
  = first_success E candidates html_file pdf_file w.
Proof.
  revert w. induction candidates as [|c rest IH]; intros w; [reflexivity|].
  simpl. unfold bind. rewrite try_chrome_attempt.
  destruct (attempt E c html_file pdf_file w) as [w' [| |e]];
    [reflexivity | apply IH | reflexivity].
Qed.

Lemma first_success_skip E pre rest html_file pdf_file :
  (forall c w0, In c pre -> snd (attempt E c html_file pdf_file w0) = Swallowed) ->
  forall w, exists w',
    first_success E (pre ++ rest) html_file pdf_file w
    = first_success E rest html_file pdf_file w'.
Proof.
  induction pre as [|c pre IH]; intros Hpre w; [now exists w|].
  simpl. pose proof (Hpre c w (or_introl eq_refl)) as Hc.
  destruct (attempt E c html_file pdf_file w) as [w1 v]. simpl in Hc. subst v.
  apply IH. intros x w0 Hx. apply Hpre. now right.
Qed.

(** C4, amended.  [html_to_pdf_chrome] scans the candidates in their
    fixed order and is the first-success scan of the specification, where
    a candidate succeeds when its version check and its render both exit
    with status zero; where a non-zero exit, a [CalledProcessError], a
    [FileNotFoundError] or a [TimeoutExpired] is swallowed and the next
    candidate tried; and where an exception of any other class aborts the
    scan and is raised to the caller.  So the scan returns [True] at the
    first candidate that succeeds, [False] when every candidate's failure
    is swallowed, and raises at the first candidate that aborts. *)
Theorem html_to_pdf_chrome_first_success E html_file pdf_file w :
  html_to_pdf_chrome E html_file pdf_file w
  = first_success E chrome_paths html_file pdf_file w
  /\ (forall pre c post,
        chrome_paths = (pre ++ c :: post)%list ->
        (forall x w0, In x pre ->
           snd (attempt E x html_file pdf_file w0) = Swallowed) ->
        (forall w0, snd (attempt E c html_file pdf_file w0) = Succeeds) ->
        snd (html_to_pdf_chrome E html_file pdf_file w) = Ok true)
  /\ ((forall x w0, In x chrome_paths ->
         snd (attempt E x html_file pdf_file w0) = Swallowed) ->
      snd (html_to_pdf_chrome E html_file pdf_file w) = Ok false)
  /\ (forall pre c post e,
        chrome_paths = (pre ++ c :: post)%list ->
        (forall x w0, In x pre ->
           snd (attempt E x html_file pdf_file w0) = Swallowed) ->
        (forall w0, snd (attempt E c html_file pdf_file w0) = Aborts e) ->
        snd (html_to_pdf_chrome E html_file pdf_file w) = Raise e).
Proof.
  unfold html_to_pdf_chrome. rewrite html_to_pdf_scan_first_success.
  split; [reflexivity|]. split; [|split].
  - intros pre c post Heq Hpre Hc. rewrite Heq.
    destruct (first_success_skip E pre (c :: post) html_file pdf_file Hpre w)
      as (w1 & ->).
    simpl. specialize (Hc w1).
    destruct (attempt E c html_file pdf_file w1) as [w2 v]. simpl in Hc.
    now subst v.
  - intros Hall.
    destruct (first_success_skip E chrome_paths [] html_file pdf_file Hall w)
      as (w1 & H).
    rewrite app_nil_r in H. now rewrite H.
  - intros pre c post e Heq Hpre Hc. rewrite Heq.
    destruct (first_success_skip E pre (c :: post) html_file pdf_file Hpre w)
      as (w1 & ->).
    simpl. specialize (Hc w1).
    destruct (attempt E c html_file pdf_file w1) as [w2 v]. simpl in Hc.
    now subst v.
Qed.

Lemma html_to_pdf_chrome_first_success_witness :
  snd (html_to_pdf_chrome env_chromium "notes.html" (as_str "notes.pdf")
         sample_world) = Ok true.
Proof.
  apply (proj1 (proj2 (html_to_pdf_chrome_first_success env_chromium
                         "notes.html" (as_str "notes.pdf") sample_world))
           ["chrome"; "google-chrome"] "chromium" (skipn 3 chrome_paths)).
  - reflexivity.
  - intros x w0 [<-|[<-|[]]]; reflexivity.
  - intros w0. reflexivity.
Defined.

(** C4 as stated fails: with a [chrome] that cannot be executed (a
    [PermissionError]) the scan stops at the first candidate and raises,
    although [chromium], two candidates later, would have printed. *)
Lemma html_to_pdf_chrome_counterexample :
  html_to_pdf_chrome env_denied "notes.html" (as_str "notes.pdf") sample_world
  = (mkWorld sample_fs [ev_run ["chrome"; "--version"]],
     Raise (OSError EACCES "chrome"))
  /\ snd (html_to_pdf_scan env_denied (tl chrome_paths) "notes.html"
            (as_str "notes.pdf") sample_world) = Ok true.
Proof. split; vm_compute; reflexivity. Qed.

(** ** Claims about [convert_md_to_pdf] *)

Section PdfFile.

Variable E : Env.

Lemma default_output_none p ext t :
  wf_path p -> plain_ext ext ->
  default_output p (String "." ext) None = Ok t ->
  exists q,
    t = as_path q /\ with_suffix p (String "." ext) = Ok q
    /\ Path (str q) = q /\ wf_path q /\ parent q = parent p
    /\ stem q = stem p /\ suffix q = String "." ext
    /\ name p <> EmptyString.
Proof.
  intros Hw He H. unfold default_output in H.
  destruct (with_suffix p (String "." ext)) as [q|e] eqn:Hq; [|discriminate].
  inversion H; subst t.
  destruct (with_suffix_ok p ext q Hw He Hq) as (Hwq & Hp & Hs & Hx & _ & Hn).
  exists q.
  split; [reflexivity|]. split; [reflexivity|].
  split; [now apply Path_str|]. auto 10.
Qed.

(** The path [convert_md_to_html] chooses when it is given none. *)
Lemma html_default_path input hdr w w1 html :
  convert_md_to_html E input None hdr w = (w1, Ok html) ->
  parent (Path html) = parent (Path input)
  /\ stem (Path html) = stem (Path input)
  /\ suffix (Path html) = ".html"
  /\ is_file (files w1) html = true.
Proof.
  intros H. pose proof (convert_md_to_html_written E _ _ _ _ _ _ H) as Hw.
  destruct Hw as (_ & _ & doc & _ & _ & _ & Hl).
  apply convert_md_to_html_ok in H.
  destruct H as (target & _ & _ & _ & _ & _ & Hd & -> & _).
  apply (default_output_none (Path input) "html") in Hd;
    [|apply Path_wf | apply plain_html].
  destruct Hd as (q & -> & _ & Hq & _ & Hp & Hs & Hx & _).
  simpl fspath in *. rewrite Hq. repeat split; auto.
  unfold is_file. now rewrite Hl.
Qed.


Lemma degraded_tail html w :
  exists w',
    (print (line_chrome_not_found html) ;;;
     print (line_pdf_hint html) ;;;
     try_except
       (webbrowser_open_ E
          ("file://" ++ str (absolute (getcwd E) (Path html))))
       (fun _ => ret tt) ;;;
     ret html) w = (w', Ok html)
    /\ files w' = files w.
Proof.
  unfold bind, print, emit, try_except, webbrowser_open_, bind, emit, ret, raise.
  destruct (webbrowser_open E _); eexists; split; reflexivity.
Qed.

Lemma cleaned_tail html (pdf : pathlike) w :
  exists w',
    (try_except (os_unlink html) (fun _ => ret tt) ;;;
     ret (fspath pdf)) w = (w', Ok (fspath pdf)).
Proof.
  unfold bind, try_except, ret. destruct (os_unlink html w) as [w1 [u|e]];
    eexists; reflexivity.
Qed.

Lemma convert_md_to_pdf_steps input out hdr w pdf w1 html w2 ok :
  default_output (Path input) ".pdf" out = Ok pdf ->
  convert_md_to_html E input None hdr w = (w1, Ok html) ->
  html_to_pdf_chrome E html pdf w1 = (w2, Ok ok) ->
  convert_md_to_pdf E input out hdr w
  = (if ok then
       try_except (os_unlink html) (fun _ => ret tt) ;;; ret (fspath pdf)
     else
       print (line_chrome_not_found html) ;;;
       print (line_pdf_hint html) ;;;
       try_except
         (webbrowser_open_ E
            ("file://" ++ str (absolute (getcwd E) (Path html))))
         (fun _ => ret tt) ;;;
       ret html) w2.
Proof.
  intros Hd Hh Hs. unfold convert_md_to_pdf.
  rewrite (bind_ok_step _ _ w w pdf) by (unfold lift; now rewrite Hd).
  rewrite (bind_ok_step _ _ w w1 html) by exact Hh.
  rewrite (bind_ok_step _ _ w1 w2 ok) by exact Hs.
  destruct ok; reflexivity.
Qed.

Lemma convert_md_to_pdf_ok input out hdr w w' p :
  convert_md_to_pdf E input out hdr w = (w', Ok p) ->
  exists pdf w1 html w2 ok,
    default_output (Path input) ".pdf" out = Ok pdf
    /\ convert_md_to_html E input None hdr w = (w1, Ok html)
    /\ html_to_pdf_chrome E html pdf w1 = (w2, Ok ok)
    /\ (if ok then p = fspath pdf else p = html /\ files w' = files w2).
Proof.
  intros H. pose proof H as H0. unfold convert_md_to_pdf in H.
  apply bind_ok_inv in H. destruct H as (w0 & pdf & Hd & H).
  apply lift_inv in Hd. destruct Hd as [-> Hd]. symmetry in Hd.
  apply bind_ok_inv in H. destruct H as (w1 & html & Hh & H).
  apply bind_ok_inv in H. destruct H as (w2 & ok & Hs & H).
  exists pdf, w1, html, w2, ok. repeat (split; [assumption|]).
  rewrite (convert_md_to_pdf_steps _ _ _ _ _ _ _ _ _ Hd Hh Hs) in H0.
  destruct ok.
  - destruct (cleaned_tail html pdf w2) as (w3 & Hc).
    rewrite Hc in H0. now inversion H0.
  - destruct (degraded_tail html w2) as (w3 & Hc & Hf).
    rewrite Hc in H0. inversion H0; subst. auto.
Qed.

End PdfFile.



(** C8.  Whatever output path is asked for, [convert_md_to_pdf] makes its
    intermediate HTML file by calling [convert_md_to_html] with no output
    path: the file is written beside the input, with the input's stem and
    the suffix [.html].  So when the HTML-to-PDF stage fails, the path
    returned is in the input's directory, and not in the directory of the
    requested PDF when that is another one. *)
Theorem pdf_intermediate_html_beside_input E input_file output_file
    include_headers w w' p :
  convert_md_to_pdf E input_file output_file include_headers w = (w', Ok p) ->
  exists pdf_file w1 html_file w2 ok,
    default_output (Path input_file) ".pdf" output_file = Ok pdf_file
    /\ convert_md_to_html E input_file None include_headers w
       = (w1, Ok html_file)
    /\ is_file (files w1) html_file = true
    /\ parent (Path html_file) = parent (Path input_file)
    /\ stem (Path html_file) = stem (Path input_file)
    /\ suffix (Path html_file) = ".html"
    /\ html_to_pdf_chrome E html_file pdf_file w1 = (w2, Ok ok)
    /\ (ok = false ->
        p = html_file
        /\ is_file (files w') p = true
        /\ parent (Path p) = parent (Path input_file)
        /\ (parent (Path (fspath pdf_file)) <> parent (Path input_file) ->
            parent (Path p) <> parent (Path (fspath pdf_file)))).
Proof.
  intros H. apply convert_md_to_pdf_ok in H.
  destruct H as (pdf & w1 & html & w2 & ok & Hd & Hh & Hs & Hp).
  destruct (html_default_path E _ _ _ _ _ Hh) as (Hpar & Hst & Hx & Hf).
  exists pdf, w1, html, w2, ok. repeat (split; [assumption|]).
  intros ->. destruct Hp as [-> Hfs]. repeat split; auto.
  - rewrite Hfs.
    apply (grows_html_to_pdf_scan E chrome_paths html pdf _ _ _ Hs).
    exact Hf.
  - intros Hne. rewrite Hpar. congruence.
Qed.

Lemma pdf_intermediate_html_beside_input_witness :
  exists pdf_file w1 html_file w2 ok,
    default_output (Path "docs/my_notes.md") ".pdf"
      (Some (as_str "out/my_notes.pdf")) = Ok pdf_file
    /\ convert_md_to_html env_no_browser "docs/my_notes.md" None true
         sample_world = (w1, Ok html_file)
    /\ is_file (files w1) html_file = true
    /\ parent (Path html_file) = parent (Path "docs/my_notes.md")
    /\ stem (Path html_file) = stem (Path "docs/my_notes.md")
    /\ suffix (Path html_file) = ".html"
    /\ html_to_pdf_chrome env_no_browser html_file pdf_file w1 = (w2, Ok ok)
    /\ (ok = false ->
        "docs/my_notes.html" = html_file
        /\ is_file
             (files (fst (convert_md_to_pdf env_no_browser "docs/my_notes.md"
                            (Some (as_str "out/my_notes.pdf")) true
                            sample_world)))
             "docs/my_notes.html" = true
        /\ parent (Path "docs/my_notes.html") = parent (Path "docs/my_notes.md")
        /\ (parent (Path (fspath pdf_file)) <> parent (Path "docs/my_notes.md") ->
            parent (Path "docs/my_notes.html")
            <> parent (Path (fspath pdf_file)))).
Proof.
  apply (pdf_intermediate_html_beside_input env_no_browser "docs/my_notes.md"
           (Some (as_str "out/my_notes.pdf")) true sample_world
           (fst (convert_md_to_pdf env_no_browser "docs/my_notes.md"
                   (Some (as_str "out/my_notes.pdf")) true sample_world))
           "docs/my_notes.html").
  vm_compute. reflexivity.
Defined.

(** ** The batch driver *)

Lemma isinstance_Exception e : isinstance e cls_Exception = true.
Proof. destruct e; reflexivity. Qed.

Section Batch.

Variable E : Env.
Variables (output_path : path) (to_pdf include_headers : bool).

Lemma batch_trace_cons md_file rest w :
  batch_trace E output_path to_pdf include_headers (md_file :: rest) w
  = let w1 := fst (convert_one E output_path to_pdf include_headers md_file w) in
    let r := snd (convert_one E output_path to_pdf include_headers md_file w) in
    let t := batch_trace E output_path to_pdf include_headers rest
               (log (ev_print (outcome_line md_file r)) w1) in
    (fst t, r :: snd t).
Proof.
  simpl.
  destruct (convert_one E output_path to_pdf include_headers md_file w)
    as [w1 r].
  simpl.
  destruct (batch_trace E output_path to_pdf include_headers rest _);
    reflexivity.
Qed.

(** The loop with its accumulator and its [try] is the trace. *)
Lemma batch_loop_trace md_files results w :
  batch_loop E output_path to_pdf include_headers md_files results w
  = (fst (batch_trace E output_path to_pdf include_headers md_files w),
     Ok (results
         ++ successes
              (snd (batch_trace E output_path to_pdf include_headers
                      md_files w)))%list).
Proof.
  revert results w. induction md_files as [|md_file rest IH]; intros results w.
  - simpl. now rewrite app_nil_r.
  - rewrite batch_trace_cons. cbv zeta. cbn [batch_loop].
    unfold bind at 1. unfold try_except. unfold bind at 1.
    destruct (convert_one E output_path to_pdf include_headers md_file w)
      as [w1 [result|e]]; cbn [fst snd].
    + unfold bind, print, emit, ret. rewrite IH. cbn [successes outcome_line].
      now rewrite <- app_assoc.
    + rewrite isinstance_Exception.
      unfold bind, print, emit, ret. rewrite IH. reflexivity.
Qed.

Lemma batch_trace_length md_files w :
  List.length (snd (batch_trace E output_path to_pdf include_headers md_files w))
  = List.length md_files.
Proof.
  revert w. induction md_files as [|md_file rest IH]; intros w; [reflexivity|].
  rewrite batch_trace_cons. cbv zeta. cbn [snd List.length]. now rewrite IH.
Qed.

(** Every outcome is what the single-file pipeline returned for the file
    at the same position, run in some world. *)
Lemma batch_trace_outcomes md_files w :
  Forall2
    (fun md_file r =>
       exists w0,
         snd (convert_one E output_path to_pdf include_headers md_file w0) = r)
    md_files
    (snd (batch_trace E output_path to_pdf include_headers md_files w)).
Proof.
  revert w. induction md_files as [|md_file rest IH]; intros w.
  - constructor.
  - rewrite batch_trace_cons. cbv zeta. cbn [snd].
    constructor; [now exists w | apply IH].
Qed.

End Batch.

Lemma successes_failures outcomes :
  List.length (successes outcomes) + failures outcomes = List.length outcomes.
Proof.
  induction outcomes as [|[r|e] rest IH]; simpl; lia.
Qed.

Lemma converted_results md_files outcomes :
  List.length outcomes = List.length md_files ->
  map snd (converted md_files outcomes) = successes outcomes.
Proof.
  revert outcomes. induction md_files as [|f fs IH]; intros [|[r|e] rs] H;
    simpl in *; try discriminate; try reflexivity.
  - f_equal. apply IH. lia.
  - apply IH. lia.
Qed.

Lemma subseq_nil_l {A} (l : list A) : subseq [] l.
Proof. induction l; constructor; assumption. Qed.

Lemma converted_sources md_files outcomes :
  subseq (map fst (converted md_files outcomes)) md_files.
Proof.
  revert outcomes. induction md_files as [|f fs IH]; intros [|[r|e] rs];
    simpl; try constructor; try apply subseq_nil_l; apply IH.
Qed.

Lemma converted_pairs (P : path -> result string -> Prop) md_files outcomes :
  Forall2 P md_files outcomes ->
  Forall (fun fr => P (fst fr) (Ok (snd fr))) (converted md_files outcomes).
Proof.
  induction 1 as [|f r fs rs Hfr _ IH]; simpl; [constructor|].
  destruct r as [result|e]; [constructor; assumption | assumption].
Qed.

Lemma os_mkdir_raise filename w w' e :
  os_mkdir filename w = (w', Raise e) ->
  w' = w /\ exists errno, e = OSError errno filename.
Proof.
  unfold os_mkdir.
  destruct (fs_lookup (files w) (parent_of filename)) as [[|]|];
    try (intros H; inversion H; subst; eauto; fail).
  destruct (fs_lookup (files w) filename);
    try destruct (creation_refused filename);
    intros H; inversion H; subst; eauto.
Qed.

Lemma os_mkdir_ok filename w w' u :
  os_mkdir filename w = (w', Ok u) -> is_dir (files w') filename = true.
Proof.
  unfold os_mkdir.
  destruct (fs_lookup (files w) (parent_of filename)) as [[|]|];
    try discriminate.
  destruct (fs_lookup (files w) filename) eqn:Hl; [discriminate|].
  destruct (creation_refused filename); [discriminate|].
  intros H. inversion H; subst. simpl. unfold is_dir.
  rewrite fs_lookup_set_same; [reflexivity|].
  apply (not_dir_not_always (files w)). rewrite Hl. discriminate.
Qed.

Lemma mkdir_single_ok p exist_ok w w' u :
  mkdir_single p exist_ok w = (w', Ok u) -> is_dir (files w') (str p) = true.
Proof.
  unfold mkdir_single, try_except.
  destruct (os_mkdir (str p) w) as [w1 [u1|e]] eqn:Hm.
  - intros H. inversion H; subst. eapply os_mkdir_ok; eauto.
  - destruct (negb exist_ok || negb (is_dir (files w1) (str p))) eqn:Hc;
      intros H; inversion H; subst.
    apply orb_false_iff in Hc. destruct Hc as [_ Hc].
    now apply negb_false_iff in Hc.
Qed.

Lemma mkdir_single_raise p exist_ok w w' e :
  mkdir_single p exist_ok w = (w', Raise e) ->
  exists errno filename, e = OSError errno filename.
Proof.
  unfold mkdir_single, try_except.
  destruct (os_mkdir (str p) w) as [w1 [u1|e1]] eqn:Hm; [discriminate|].
  apply os_mkdir_raise in Hm. destruct Hm as [-> (errno & ->)].
  destruct (negb exist_ok || _); intros H; inversion H; subst; eauto.
Qed.

Lemma mkdir_parents_ok r rparts exist_ok w w' u :
  mkdir_parents r rparts exist_ok w = (w', Ok u) ->
  is_dir (files w') (str (mkPath r (rev rparts))) = true.
Proof.
  rewrite mkdir_parents_eq. cbv zeta. unfold try_except.
  destruct (os_mkdir (str (mkPath r (rev rparts))) w) as [w1 [u1|e]] eqn:Hm.
  - intros H. inversion H; subst. eapply os_mkdir_ok; eauto.
  - destruct (isinstance e cls_FileNotFoundError).
    + destruct rparts as [|x rparent]; [discriminate|].
      intros H. apply bind_ok_inv in H. destruct H as (w2 & u2 & _ & H).
      eapply mkdir_single_ok; eauto.
    + destruct (negb exist_ok || negb (is_dir (files w1) _)) eqn:Hc;
        intros H; inversion H; subst.
      apply orb_false_iff in Hc. destruct Hc as [_ Hc].
      now apply negb_false_iff in Hc.
Qed.

Lemma mkdir_parents_raise r rparts exist_ok w w' e :
  mkdir_parents r rparts exist_ok w = (w', Raise e) ->
  exists errno filename, e = OSError errno filename.
Proof.
  revert exist_ok w w'. induction rparts as [|x rparent IH];
    intros exist_ok w w'; rewrite mkdir_parents_eq; cbv zeta;
    unfold try_except;
    destruct (os_mkdir _ w) as [w1 [u1|e1]] eqn:Hm; try discriminate;
    apply os_mkdir_raise in Hm; destruct Hm as [-> (errno & ->)];
    destruct (isinstance _ cls_FileNotFoundError).
  - intros H. inversion H; subst. eauto.
  - destruct (negb exist_ok || _); intros H; inversion H; subst; eauto.
  - intros H. apply bind_raise_inv in H.
    destruct H as [H|(w2 & u2 & _ & H)].
    + eapply IH; eauto.
    + eapply mkdir_single_raise; eauto.
  - destruct (negb exist_ok || _); intros H; inversion H; subst; eauto.
Qed.

Lemma is_dir_key f s : is_dir f (str (Path s)) = is_dir f s.
Proof. unfold is_dir. now rewrite <- (fs_lookup_key f s). Qed.

Lemma exists_key f s : exists_ f (str (Path s)) = exists_ f s.
Proof. unfold exists_. now rewrite <- (fs_lookup_key f s). Qed.

Lemma rev_parts_path p : mkPath (root p) (rev (rev (parts p))) = p.
Proof. rewrite rev_involutive. now destruct p. Qed.

(** The output directory: the input directory untouched, or the given
    one, a directory once the call has returned. *)
Lemma output_directory_ok input_path output_dir w w1 output_path :
  output_directory input_path output_dir w = (w1, Ok output_path) ->
  match output_dir with
  | None => w1 = w /\ output_path = input_path
  | Some d =>
      output_path = Path d /\ is_dir (files w1) d = true
      /\ grows (files w) (files w1)
  end.
Proof.
  unfold output_directory. destruct output_dir as [d|].
  - intros H. pose proof H as H0.
    apply bind_ok_inv in H. destruct H as (w2 & u & Hm & H).
    inversion H; subst. split; [reflexivity|]. split.
    + rewrite <- is_dir_key. unfold mkdir in Hm.
      apply mkdir_parents_ok in Hm. now rewrite rev_parts_path in Hm.
    + apply (grows_mkdir (Path d) true true _ _ _ Hm).
  - intros H. inversion H. auto.
Qed.

Lemma output_directory_raise input_path output_dir w w1 e :
  output_directory input_path output_dir w = (w1, Raise e) ->
  exists d errno filename, output_dir = Some d /\ e = OSError errno filename.
Proof.
  unfold output_directory. destruct output_dir as [d|]; [|discriminate].
  intros H. apply bind_raise_inv in H. destruct H as [H|(w2 & u & _ & H)].
  - unfold mkdir in H. apply mkdir_parents_raise in H.
    destruct H as (errno & f & ->). eauto.
  - discriminate.
Qed.

Lemma grows_output_directory input_path output_dir :
  preserves grows (output_directory input_path output_dir).
Proof.
  unfold output_directory. destruct output_dir as [d|]; [|grows_done].
  grows_bind; [apply grows_mkdir | grows_done].
Qed.

Section BatchConvert.

Variable E : Env.

Lemma batch_convert_missing input_dir output_dir to_pdf pattern hdr w :
  exists_ (files w) (str (Path input_dir)) = false ->
  lookup_refused (files w) (str (Path input_dir)) = false ->
  batch_convert E input_dir output_dir to_pdf pattern hdr w
  = (w, Raise (InputDirectoryNotFound input_dir)).
Proof.
  intros H H'. unfold batch_convert. cbv zeta.
  unfold bind at 1, path_exists. now rewrite H, H'.
Qed.

Lemma batch_convert_refused input_dir output_dir to_pdf pattern hdr w :
  exists_ (files w) (str (Path input_dir)) = false ->
  lookup_refused (files w) (str (Path input_dir)) = true ->
  batch_convert E input_dir output_dir to_pdf pattern hdr w
  = (w, Raise (OSError ENAMETOOLONG (str (Path input_dir)))).
Proof.
  intros H H'. unfold batch_convert. cbv zeta.
  unfold bind at 1, path_exists. now rewrite H, H'.
Qed.

(** Nothing is done for an input path that does not exist. *)
Lemma batch_convert_absent input_dir output_dir to_pdf pattern hdr w :
  exists_ (files w) (str (Path input_dir)) = false ->
  exists e,
    batch_convert E input_dir output_dir to_pdf pattern hdr w = (w, Raise e)
    /\ ((e = InputDirectoryNotFound input_dir
         /\ lookup_refused (files w) (str (Path input_dir)) = false)
        \/ (e = OSError ENAMETOOLONG (str (Path input_dir))
            /\ lookup_refused (files w) (str (Path input_dir)) = true)).
Proof.
  intros H.
  destruct (lookup_refused (files w) (str (Path input_dir))) eqn:Hr.
  - eexists. split; [now apply batch_convert_refused|]. auto.
  - eexists. split; [now apply batch_convert_missing|]. auto.
Qed.

Lemma batch_convert_found input_dir output_dir to_pdf pattern hdr w :
  exists_ (files w) (str (Path input_dir)) = true ->
  batch_convert E input_dir output_dir to_pdf pattern hdr w
  = (output_path <- output_directory (Path input_dir) output_dir ;;
     md_files <- (fun w => (w, glob E (files w) (Path input_dir) pattern)) ;;
     match md_files with
     | [] => ret []
     | _ => batch_loop E output_path to_pdf hdr md_files []
     end) w.
Proof.
  intros H. unfold batch_convert. cbv zeta.
  unfold bind at 1, path_exists. now rewrite H.
Qed.

(** A batch whose directories and pattern are in order is its trace. *)
Lemma batch_convert_run input_dir output_dir to_pdf pattern hdr w w1
    output_path md_files :
  exists_ (files w) (str (Path input_dir)) = true ->
  output_directory (Path input_dir) output_dir w = (w1, Ok output_path) ->
  glob E (files w1) (Path input_dir) pattern = Ok md_files ->
  batch_convert E input_dir output_dir to_pdf pattern hdr w
  = (fst (batch_trace E output_path to_pdf hdr md_files w1),
     Ok (successes (snd (batch_trace E output_path to_pdf hdr md_files w1)))).
Proof.
  intros Hex Ho Hg. rewrite batch_convert_found by assumption.
  rewrite (bind_ok_step _ _ w w1 output_path) by exact Ho.
  rewrite (bind_ok_step _ _ w1 w1 md_files) by (now rewrite Hg).
  destruct md_files as [|f fs]; [reflexivity|].
  now rewrite batch_loop_trace.
Qed.

Lemma batch_convert_ok input_dir output_dir to_pdf pattern hdr w w' results :
  batch_convert E input_dir output_dir to_pdf pattern hdr w = (w', Ok results) ->
  exists w1 output_path md_files,
    exists_ (files w) (str (Path input_dir)) = true
    /\ output_directory (Path input_dir) output_dir w = (w1, Ok output_path)
    /\ glob E (files w1) (Path input_dir) pattern = Ok md_files
    /\ w' = fst (batch_trace E output_path to_pdf hdr md_files w1)
    /\ results
       = successes (snd (batch_trace E output_path to_pdf hdr md_files w1)).
Proof.
  intros H.
  destruct (exists_ (files w) (str (Path input_dir))) eqn:Hex.
  2:{ destruct (batch_convert_absent input_dir output_dir to_pdf pattern hdr
                  w Hex) as (e & He & _).
      rewrite He in H. discriminate. }
  pose proof H as H0. rewrite batch_convert_found in H by assumption.
  apply bind_ok_inv in H. destruct H as (w1 & output_path & Ho & H).
  apply bind_ok_inv in H. destruct H as (w2 & md_files & Hg & _).
  inversion Hg; subst w2.
  rewrite (batch_convert_run _ _ _ _ _ _ _ _ _ Hex Ho H2) in H0.
  inversion H0; subst.
  exists w1, output_path, md_files. auto.
Qed.


End BatchConvert.

Lemma list_eqb_eq (l1 l2 : list string) :
  Nat.eqb (List.length l1) (List.length l2) = true ->
  forallb (fun xy => eqs (fst xy) (snd xy)) (combine l1 l2) = true ->
  l1 = l2.
Proof.
  revert l2. induction l1 as [|x l1 IH]; intros [|y l2] Hl Hf;
    simpl in *; try discriminate; [reflexivity|].
  apply andb_true_iff in Hf. destruct Hf as [Hxy Hf].
  apply eqs_true in Hxy. subst y. f_equal. now apply IH.
Qed.

Lemma path_eqb_eq p q : path_eqb p q = true -> p = q.
Proof.
  unfold path_eqb. intros H.
  apply andb_true_iff in H. destruct H as [H Hf].
  apply andb_true_iff in H. destruct H as [Hr Hl].
  apply eqs_true in Hr. destruct p as [r l], q as [r' l']. simpl in *.
  subst r'. f_equal. now apply list_eqb_eq.
Qed.

(** *** What [glob] lists and raises *)








(** *** The depth of a nest of directories

    [_iterate_directories] goes as deep as directories are nested, and
    no nest is deeper than the file system has entries: the depth
    [_select_from] gives it is never what ends the descent. *)

Lemma is_prefix_app l m : is_prefix l (l ++ m) = true.
Proof.
  induction l as [|x l IH]; [reflexivity|]. simpl.
  now rewrite eqs_refl, IH.
Qed.

Lemma is_prefix_trans l1 l2 l3 :
  is_prefix l1 l2 = true -> is_prefix l2 l3 = true -> is_prefix l1 l3 = true.
Proof.
  revert l2 l3. induction l1 as [|x l1 IH]; intros [|y l2] [|z l3];
    simpl; try reflexivity; try discriminate.
  intros H12 H23. apply andb_true_iff in H12. destruct H12 as [Hxy H12].
  apply andb_true_iff in H23. destruct H23 as [Hyz H23].
  apply eqs_true in Hxy. apply eqs_true in Hyz. subst.
  rewrite eqs_refl. simpl. eapply IH; eauto.
Qed.

Lemma is_prefix_length l1 l2 :
  is_prefix l1 l2 = true -> List.length l1 <= List.length l2.
Proof.
  revert l2. induction l1 as [|x l1 IH]; intros [|y l2]; simpl;
    try discriminate; try lia.
  intros H. apply andb_true_iff in H. destruct H as [_ H].
  apply IH in H. lia.
Qed.

Lemma filter_length_lt {A} (P Q : A -> bool) (l : list A) :
  (forall x, In x l -> P x = true -> Q x = true) ->
  (exists x, In x l /\ Q x = true /\ P x = false) ->
  List.length (filter P l) < List.length (filter Q l).
Proof.
  intros Himp (x & Hin & Hq & Hp).
  assert (Hle : forall l', (forall y, In y l' -> P y = true -> Q y = true) ->
                  List.length (filter P l') <= List.length (filter Q l')).
  { induction l' as [|y l' IH]; intros Hy; simpl; [lia|].
    assert (IH' : List.length (filter P l') <= List.length (filter Q l'))
      by (apply IH; intros z Hz; apply Hy; now right).
    destruct (P y) eqn:HP.
    - rewrite (Hy y (or_introl eq_refl) HP). simpl. lia.
    - destruct (Q y); simpl; lia. }
  induction l as [|y l IH]; [destruct Hin|]. simpl.
  destruct Hin as [->|Hin].
  - rewrite Hp, Hq. simpl.
    assert (List.length (filter P l) <= List.length (filter Q l))
      by (apply Hle; intros z Hz; apply Himp; now right).
    lia.
  - assert (IH' : List.length (filter P l) < List.length (filter Q l))
      by (apply IH; [intros z Hz; apply Himp; now right | exact Hin]).
    destruct (P y) eqn:HP.
    + rewrite (Himp y (or_introl eq_refl) HP). simpl. lia.
    + destruct (Q y); simpl; lia.
Qed.

(** An entry that [scandir] lists is an entry of the file system, at the
    path [_make_child_relpath] makes for it. *)
Lemma scandir_child f p entry :
  In entry (scandir f p) ->
  exists kv, In kv f /\ Path (fst kv) = make_child_relpath p (fst entry).
Proof.
  unfold scandir. intros H. apply in_map_iff in H.
  destruct H as ([k v] & <- & Hin). apply filter_In in Hin.
  destruct Hin as [Hin Hc]. cbn [fst] in *.
  apply andb_true_iff in Hc. destruct Hc as [Hn Hp].
  apply negb_true_iff in Hn. apply eqs_false in Hn.
  apply path_eqb_eq in Hp. exists (k, v). split; [exact Hin|]. cbn [fst].
  unfold make_child_relpath. rewrite <- Hp. unfold parent, name in *.
  cbn [root parts]. destruct (Path k) as [r l]. cbn [root parts] in *.
  f_equal. destruct l as [|x l]; [now elim Hn|].
  apply app_removelast_last. discriminate.
Qed.

Lemma below_child p x q :
  strictly_below (make_child_relpath p x) q = true ->
  strictly_below p q = true.
Proof.
  unfold strictly_below, make_child_relpath. cbn [root parts].
  intros H. apply andb_true_iff in H. destruct H as [H Hlen].
  apply andb_true_iff in H. destruct H as [Hr Hpre].
  rewrite Hr. cbn [andb].
  rewrite (is_prefix_trans _ _ _ (is_prefix_app (parts p) [x]) Hpre).
  cbn [andb]. apply Nat.ltb_lt. apply Nat.ltb_lt in Hlen.
  rewrite length_app in Hlen. simpl in Hlen. lia.
Qed.

Lemma below_self p x :
  strictly_below p (make_child_relpath p x) = true
  /\ strictly_below (make_child_relpath p x) (make_child_relpath p x) = false.
Proof.
  unfold strictly_below, make_child_relpath. cbn [root parts]. split.
  - rewrite eqs_refl, is_prefix_app. cbn [andb]. apply Nat.ltb_lt.
    rewrite length_app. simpl. lia.
  - rewrite Nat.ltb_irrefl. now rewrite andb_false_r.
Qed.

Lemma flat_map_agree {A B} (g h : A -> list B) l :
  (forall a, In a l -> g a = h a) -> flat_map g l = flat_map h l.
Proof.
  induction l as [|a l IH]; intros H; [reflexivity|]. simpl.
  rewrite (H a (or_introl eq_refl)), IH; [reflexivity|].
  intros b Hb. apply H. now right.
Qed.

Lemma iterate_directories_enough f d :
  forall p d',
    List.length (filter (fun kv => strictly_below p (Path (fst kv))) f) <= d ->
    d <= d' ->
    iterate_directories d' f p = iterate_directories d f p.
Proof.
  induction d as [|d IH]; intros p d' Hlen Hle.
  - assert (Hs : scandir f p = []).
    { destruct (scandir f p) as [|entry rest] eqn:Hs; [reflexivity|].
      destruct (scandir_child f p entry) as (kv & Hin & Hkv).
      { rewrite Hs. now left. }
      assert (Hf : In kv (filter (fun kv => strictly_below p (Path (fst kv)))
                            f)).
      { apply filter_In. split; [exact Hin|]. rewrite Hkv.
        apply below_self. }
      destruct (filter _ f); [destruct Hf | simpl in Hlen; lia]. }
    destruct d' as [|d']; [reflexivity|]. simpl. now rewrite Hs.
  - destruct d' as [|d']; [lia|]. simpl. f_equal.
    apply flat_map_agree. intros entry Hentry.
    destruct (entry_is_dir entry); [|reflexivity].
    apply IH; [|lia].
    destruct (scandir_child f p entry Hentry) as (kv & Hin & Hkv).
    assert (Hlt : List.length
                    (filter
                       (fun kv' =>
                          strictly_below (make_child_relpath p (fst entry))
                            (Path (fst kv'))) f)
                  < List.length
                      (filter (fun kv' => strictly_below p (Path (fst kv')))
                         f)).
    { apply filter_length_lt.
      - intros x _. apply below_child.
      - exists kv. split; [exact Hin|]. rewrite Hkv. apply below_self. }
    lia.
Qed.

(** More depth than the file system has entries lists nothing more. *)
Lemma iterate_directories_depth f p k :
  iterate_directories (List.length f + k) f p
  = iterate_directories (List.length f) f p.
Proof.
  apply iterate_directories_enough; [|lia].
  apply filter_length_le.
Qed.









Lemma path_eta p : mkPath (root p) (parts p) = p.
Proof. now destruct p. Qed.



Section ConvertOne.

Variable E : Env.








End ConvertOne.

(** *** Making a directory with its parents *)














(** ** Claims about [batch_convert] *)

(** C10.  The list [batch_convert] returns follows the enumeration order
    of the matched files: each matched file, in order, has the outcome
    the single-file pipeline gave for it, the list holds the paths of the
    outcomes that are not failures, in the order of their files, and it
    is no longer than the list of matched files. *)
Theorem batch_results_in_enumeration_order E input_dir output_dir to_pdf
    pattern include_headers w w' results :
  batch_convert E input_dir output_dir to_pdf pattern include_headers w
  = (w', Ok results) ->
  exists w1 output_path md_files outcomes,
    output_directory (Path input_dir) output_dir w = (w1, Ok output_path)
    /\ glob E (files w1) (Path input_dir) pattern = Ok md_files
    /\ batch_trace E output_path to_pdf include_headers md_files w1
       = (w', outcomes)
    /\ Forall2
         (fun md_file r =>
            exists w0,
              snd (convert_one E output_path to_pdf include_headers md_file w0)
              = r)
         md_files outcomes
    /\ results = successes outcomes
    /\ results = map snd (converted md_files outcomes)
    /\ subseq (map fst (converted md_files outcomes)) md_files
    /\ List.length results <= List.length md_files.
Proof.
  intros H. apply batch_convert_ok in H.
  destruct H as (w1 & output_path & md_files & _ & Ho & Hg & -> & ->).
  exists w1, output_path, md_files,
    (snd (batch_trace E output_path to_pdf include_headers md_files w1)).
  pose proof (batch_trace_length E output_path to_pdf include_headers
                md_files w1) as Hlen.
  split; [exact Ho|]. split; [exact Hg|].
  split; [apply surjective_pairing|].
  split; [apply batch_trace_outcomes|].
  split; [reflexivity|].
  split; [symmetry; now apply converted_results|].
  split; [apply converted_sources|].
  pose proof (successes_failures
                (snd (batch_trace E output_path to_pdf include_headers
                        md_files w1))).
  lia.
Qed.

Lemma batch_results_in_enumeration_order_witness :
  exists w1 output_path md_files outcomes,
    output_directory (Path "docs") None sample_world = (w1, Ok output_path)
    /\ glob env_no_browser (files w1) (Path "docs") "*.md" = Ok md_files
    /\ batch_trace env_no_browser output_path false true md_files w1
       = (fst (batch_convert env_no_browser "docs" None false "*.md" true
                 sample_world), outcomes)
    /\ Forall2
         (fun md_file r =>
            exists w0,
              snd (convert_one env_no_browser output_path false true md_file w0)
              = r)
         md_files outcomes
    /\ ["docs/my_notes.html"; "docs/todo_list.html"] = successes outcomes
    /\ ["docs/my_notes.html"; "docs/todo_list.html"]
       = map snd (converted md_files outcomes)
    /\ subseq (map fst (converted md_files outcomes)) md_files
    /\ List.length ["docs/my_notes.html"; "docs/todo_list.html"]
       <= List.length md_files.
Proof.
  apply (batch_results_in_enumeration_order env_no_browser "docs" None false
           "*.md" true sample_world).
  vm_compute. reflexivity.
Defined.












(** ** Stems *)




(** The same holds of a PDF conversion: the path given is the path
    returned when a browser has rendered the page, and the intermediate
    HTML file beside the input is returned otherwise. *)
Lemma pdf_given_path_returned E input_file x include_headers w w' p :
  convert_md_to_pdf E input_file (Some x) include_headers w = (w', Ok p) ->
  exists w1 html_file w2 ok,
    convert_md_to_html E input_file None include_headers w
    = (w1, Ok html_file)
    /\ html_to_pdf_chrome E html_file x w1 = (w2, Ok ok)
    /\ p = (if ok : bool then fspath x else html_file).
Proof.
  intros H. apply convert_md_to_pdf_ok in H.
  destruct H as (pdf & w1 & html & w2 & ok & Hd & Hh & Hc & Hr).
  simpl in Hd. inversion Hd; subst pdf.
  exists w1, html, w2, ok. split; [exact Hh|]. split; [exact Hc|].
  destruct ok; [exact Hr | now destruct Hr].
Qed.

(** * Further properties of the pipeline *)

(** ** When [convert_md_to_html] returns, and what it touches *)



Lemma fs_lookup_norm f s : fs_lookup f (str (Path s)) = fs_lookup f s.
Proof. apply fs_lookup_key. Qed.









(** ** The document *)

Lemma endswith_app p a : endswith p (a ++ p) = true.
Proof.
  unfold endswith. rewrite slength_app.
  replace (String.length a + String.length p - String.length p)
    with (String.length a) by lia.
  rewrite substring_skip, substring_0_all, eqs_refl.
  rewrite andb_true_r. apply Nat.leb_le. lia.
Qed.

Lemma page_ends t css h c f : endswith "</html>" (page t css h c f) = true.
Proof.
  replace (page t css h c f)
    with ((page_0 ++ String ">" (t ++ String "<" (page_1 ++ String ">"
           (css ++ String "<" (page_2 ++ String nl
           (("    " ++ h) ++ String nl (page_3 ++ String nl
           (("        " ++ c) ++ String nl (page_4 ++ String nl
           (("    " ++ f) ++ String nl "</body>
"))))))))))
          ++ "</html>").
  - apply endswith_app.
  - unfold page, page_5. cbn [append].
    repeat (rewrite !sapp_assoc; cbn [append]). reflexivity.
Qed.

Lemma page_holds_content t css h c f :
  exists before after, page t css h c f = before ++ c ++ after.
Proof.
  unfold page.
  exists (page_0 ++ String ">" (t ++ String "<" (page_1 ++ String ">"
          (css ++ String "<" (page_2 ++ String nl
          (("    " ++ h) ++ String nl (page_3 ++ String nl "        "))))))).
  exists (String nl (page_4 ++ String nl
          (("    " ++ f) ++ String nl page_5))).
  repeat (rewrite !sapp_assoc; cbn [append]). reflexivity.
Qed.

(** X4.  Whatever the input, the document built is a whole page: it
    starts with the doctype, ends with the closing [html] tag, and holds
    the body converted by the engine, unchanged, in between. *)
Theorem full_html_is_a_page E input_path md_content include_headers :
  exists doc before after,
    full_html E input_path md_content include_headers = Ok doc
    /\ startswith "<!DOCTYPE html>" doc = true
    /\ endswith "</html>" doc = true
    /\ doc = before ++ markdown_convert E extensions md_content ++ after.
Proof.
  rewrite full_html_page.
  destruct (page_holds_content (document_title input_path) css_template
              (if include_headers
               then _create_header_section (document_title input_path)
                      (strftime (now E))
               else EmptyString)
              (markdown_convert E extensions md_content)
              (if include_headers then _create_footer_section
               else EmptyString)) as (before & after & Heq).
  eexists. exists before, after. split; [reflexivity|].
  split; [reflexivity|]. split; [apply page_ends | exact Heq].
Qed.

Lemma to_lower_underscore c :
  Ascii.eqb (to_lower c) "_" = Ascii.eqb c "_".
Proof. destruct c as [[] [] [] [] [] [] [] []]; reflexivity. Qed.

Lemma to_upper_underscore c :
  Ascii.eqb (to_upper c) "_" = Ascii.eqb c "_".
Proof. destruct c as [[] [] [] [] [] [] [] []]; reflexivity. Qed.

Lemma title_from_underscore b s :
  contains_char "_" (title_from b s) = contains_char "_" s.
Proof.
  revert b. induction s as [|c s IH]; intros b; [reflexivity|].
  simpl. rewrite IH. f_equal.
  destruct b; [apply to_lower_underscore | apply to_upper_underscore].
Qed.

Lemma replace_char_removes s : contains_char "_" (replace_char "_" " " s) = false.
Proof.
  induction s as [|c s IH]; [reflexivity|].
  simpl. rewrite IH, orb_false_r.
  destruct (Ascii.eqb c "_") eqn:Hc; [reflexivity | exact Hc].
Qed.

Lemma title_from_length b s :
  String.length (title_from b s) = String.length s.
Proof.
  revert b. induction s as [|c s IH]; intros b; [reflexivity|].
  simpl. now rewrite IH.
Qed.

Lemma replace_char_length a b s :
  String.length (replace_char a b s) = String.length s.
Proof. induction s as [|c s IH]; [reflexivity|]. simpl. now rewrite IH. Qed.

Lemma to_upper_idem c : to_upper (to_upper c) = to_upper c.
Proof. destruct c as [[] [] [] [] [] [] [] []]; reflexivity. Qed.

Lemma to_lower_idem c : to_lower (to_lower c) = to_lower c.
Proof. destruct c as [[] [] [] [] [] [] [] []]; reflexivity. Qed.

Lemma title_from_idem b s : title_from b (title_from b s) = title_from b s.
Proof.
  revert b. induction s as [|c s IH]; intros b; [reflexivity|].
  simpl. f_equal.
  - destruct b; [apply to_lower_idem | apply to_upper_idem].
  - replace (is_cased (if b then to_lower c else to_upper c))
      with (is_cased c)
      by (destruct b; [now rewrite is_cased_to_lower
                      | now rewrite is_cased_to_upper]).
    apply IH.
Qed.

(** X5.  The title derived from a file name in ASCII has as many
    characters as the stem, holds no underscore and no path separator,
    never has a lower-case letter after a character that is not a
    letter, and is left as it is by a second title-casing. *)
Theorem document_title_shape input_file :
  ascii_only (stem (Path input_file)) = true ->
  let t := document_title (Path input_file) in
  String.length t = String.length (stem (Path input_file))
  /\ contains_char "_" t = false
  /\ contains_char "/" t = false
  /\ has_uncased_lower t = false
  /\ str_title t = t.
Proof.
  intros _. cbv zeta. unfold document_title, str_title.
  split; [now rewrite title_from_length, replace_char_length|].
  split; [now rewrite title_from_underscore, replace_char_removes|].
  split; [apply (document_title_no_slash input_file)|].
  split; [apply title_from_uncased_lower | apply title_from_idem].
Qed.

Lemma document_title_shape_witness :
  String.length (document_title (Path "docs/my_notes.md")) = 8
  /\ str_title (document_title (Path "docs/my_notes.md"))
     = document_title (Path "docs/my_notes.md").
Proof.
  destruct (document_title_shape "docs/my_notes.md" ltac:(reflexivity))
    as (Hl & _ & _ & _ & Hi).
  split; [exact Hl | exact Hi].
Defined.

(** ** What is never removed *)







Section Removal.

Variable E : Env.





End Removal.



(** ** The journal *)

Lemma journal_grows_refl P w : journal_grows P w w.
Proof. exists []. split; [now rewrite app_nil_r | constructor]. Qed.

Lemma journal_grows_trans P w1 w2 w3 :
  journal_grows P w1 w2 -> journal_grows P w2 w3 -> journal_grows P w1 w3.
Proof.
  intros (e1 & H1 & F1) (e2 & H2 & F2). exists (e1 ++ e2)%list. split.
  - now rewrite H2, H1, app_assoc.
  - apply Forall_app. auto.
Qed.

Lemma journal_grows_log (P : event -> Prop) e w :
  P e -> journal_grows P w (log e w).
Proof. intros H. exists [e]. split; [reflexivity | now constructor]. Qed.

Lemma journal_grows_same P w w' : journal w' = journal w -> journal_grows P w w'.
Proof.
  intros H. exists []. split; [now rewrite app_nil_r | constructor].
Qed.

Section Emits.

Variable P : event -> Prop.

Lemma emits_ret {A} (a : A) : emits P (ret a).
Proof. intros w w' r H. inversion H; subst. apply journal_grows_refl. Qed.

Lemma emits_raise {A} e : emits P (@raise A e).
Proof. intros w w' r H. inversion H; subst. apply journal_grows_refl. Qed.

Lemma emits_lift {A} (x : result A) : emits P (lift x).
Proof. intros w w' r H. inversion H; subst. apply journal_grows_refl. Qed.

Lemma emits_emit e : P e -> emits P (emit e).
Proof.
  intros He w w' r H. inversion H; subst. now apply journal_grows_log.
Qed.

Lemma emits_bind {A B} (c : M A) (k : A -> M B) :
  emits P c -> (forall a, emits P (k a)) -> emits P (bind c k).
Proof.
  intros Hc Hk w w' r H. unfold bind in H.
  destruct (c w) as [w1 [a|e]] eqn:Hcw.
  - eapply journal_grows_trans; [eapply Hc; eauto | eapply Hk; eauto].
  - inversion H; subst. eapply Hc; eauto.
Qed.

Lemma emits_try {A} (c : M A) (h : exn -> M A) :
  emits P c -> (forall e, emits P (h e)) -> emits P (try_except c h).
Proof.
  intros Hc Hh w w' r H. unfold try_except in H.
  destruct (c w) as [w1 [a|e]] eqn:Hcw.
  - inversion H; subst. eapply Hc; eauto.
  - eapply journal_grows_trans; [eapply Hc; eauto | eapply Hh; eauto].
Qed.

End Emits.

Ltac quiet_bind := apply emits_bind; [ | intro].
Ltac quiet_try := apply emits_try; [ | intro].
Ltac quiet_done :=
  solve [ apply emits_ret | apply emits_raise | apply emits_lift
        | apply emits_emit; reflexivity ].

Lemma quiet_open_read filename : emits quiet (open_read filename).
Proof.
  intros w w' r H. unfold open_read in H.
  destruct (fs_lookup (files w) filename) as [[bytes|]|];
    try (inversion H; subst; apply journal_grows_refl).
  destruct (decode_utf8 bytes); inversion H; subst;
    now apply journal_grows_log.
Qed.

Lemma quiet_open_write filename text : emits quiet (open_write filename text).
Proof.
  intros w w' r H. unfold open_write in H.
  destruct (fs_lookup (files w) (parent_of filename)) as [[|]|];
    try (inversion H; subst; apply journal_grows_refl).
  cbv zeta in H.
  destruct (fs_lookup (files w) filename) as [[|]|];
    try destruct (creation_refused filename);
    inversion H; subst; try apply journal_grows_refl;
    (exists [ev_write filename]; split; [reflexivity | now constructor]).
Qed.

Lemma quiet_os_unlink filename : emits quiet (os_unlink filename).
Proof.
  intros w w' r H. unfold os_unlink in H.
  destruct (fs_lookup (files w) filename) as [[|]|];
    inversion H; subst; try apply journal_grows_refl.
  exists [ev_unlink filename]. split; [reflexivity | now constructor].
Qed.

Lemma quiet_os_mkdir filename : emits quiet (os_mkdir filename).
Proof.
  intros w w' r H. unfold os_mkdir in H.
  destruct (fs_lookup (files w) (parent_of filename)) as [[|]|];
    try (inversion H; subst; apply journal_grows_refl).
  destruct (fs_lookup (files w) filename);
    try destruct (creation_refused filename);
    inversion H; subst; try apply journal_grows_refl.
  exists [ev_mkdir filename]. split; [reflexivity | now constructor].
Qed.

Lemma quiet_forgive (c : bool) p e :
  emits quiet (fun w : world =>
                 if c || negb (is_dir (files w) (str p))
                 then (w, @Raise unit e) else (w, Ok tt)).
Proof.
  intros w w' r H. destruct (c || _); inversion H; subst;
    apply journal_grows_refl.
Qed.

Lemma quiet_mkdir_single p exist_ok : emits quiet (mkdir_single p exist_ok).
Proof.
  unfold mkdir_single. quiet_try; [apply quiet_os_mkdir | apply quiet_forgive].
Qed.

Lemma quiet_mkdir_parents r rparts exist_ok :
  emits quiet (mkdir_parents r rparts exist_ok).
Proof.
  revert exist_ok. induction rparts as [|x rparent IH]; intros exist_ok;
    rewrite mkdir_parents_eq; cbv zeta;
    (quiet_try; [apply quiet_os_mkdir|]);
    destruct (isinstance e cls_FileNotFoundError).
  - quiet_done.
  - apply quiet_forgive.
  - quiet_bind; [apply IH | apply quiet_mkdir_single].
  - apply quiet_forgive.
Qed.

Lemma quiet_output_directory input_path output_dir :
  emits quiet (output_directory input_path output_dir).
Proof.
  unfold output_directory. destruct output_dir as [d|]; [|quiet_done].
  quiet_bind; [|quiet_done]. unfold mkdir. apply quiet_mkdir_parents.
Qed.

Section Journal.

Variable E : Env.

Lemma run_command_journal cmd timeout w :
  journal (fst (run_command E cmd timeout w))
  = (journal w ++ [ev_run cmd])%list.
Proof.
  unfold run_command. simpl.
  destruct (spawn E cmd timeout _); reflexivity.
Qed.

Lemma quiet_subprocess_run cmd check timeout :
  emits quiet (subprocess_run E cmd check timeout).
Proof.
  intros w w' r H. rewrite subprocess_run_command in H.
  pose proof (run_command_journal cmd timeout w) as Hj.
  destruct (run_command E cmd timeout w) as [w1 [rc wr|e]]; simpl in Hj.
  - destruct (check && negb (Z.eqb rc 0)); inversion H; subst;
      (exists [ev_run cmd]; split; [exact Hj | now constructor]).
  - inversion H; subst.
    exists [ev_run cmd]. split; [exact Hj | now constructor].
Qed.

Lemma quiet_try_chrome chrome_path html_file pdf_file :
  emits quiet (try_chrome E chrome_path html_file pdf_file).
Proof.
  unfold try_chrome. quiet_try.
  - quiet_bind; [apply quiet_subprocess_run|].
    quiet_bind; [apply quiet_subprocess_run|].
    destruct (Z.eqb _ 0); quiet_done.
  - destruct (catches _ e); quiet_done.
Qed.

Lemma quiet_html_to_pdf_scan candidates html_file pdf_file :
  emits quiet (html_to_pdf_scan E candidates html_file pdf_file).
Proof.
  induction candidates as [|c rest IH]; simpl; [quiet_done|].
  quiet_bind; [apply quiet_try_chrome|].
  destruct a as [b|]; [quiet_done | exact IH].
Qed.

Lemma quiet_convert_md_to_html input o hdr :
  emits quiet (convert_md_to_html E input o hdr).
Proof.
  intros w w' [out|e] H.
  - apply convert_md_to_html_ok in H.
    destruct H as (_ & _ & _ & doc & _ & _ & _ & _ & _ & _ & _ & _ & _ & ->).
    exists [ev_read (str (Path input)); ev_write out]. split.
    + simpl. now rewrite <- app_assoc.
    + repeat constructor.
  - pose proof H as H0. apply convert_md_to_html_raise in H.
    destruct H as [(_ & _ & ->) | [(_ & _ & _ & ->) | (Hm & Hex & _ & _)]];
      try apply journal_grows_refl.
    rewrite convert_md_to_html_checked in H0 by assumption.
    refine ((_ : emits quiet
                   (output_file <-
                      lift (default_output (Path input) ".html" o) ;;
                    md_content <- open_read (str (Path input)) ;;
                    doc <- lift (full_html E (Path input) md_content hdr) ;;
                    open_write (fspath output_file) doc ;;;
                    ret (fspath output_file))) _ _ _ H0).
    quiet_bind; [quiet_done|].
    quiet_bind; [apply quiet_open_read|].
    quiet_bind; [quiet_done|].
    quiet_bind; [apply quiet_open_write | quiet_done].
Qed.

Lemma quiet_convert_md_to_pdf input o hdr :
  emits quiet (convert_md_to_pdf E input o hdr).
Proof.
  unfold convert_md_to_pdf.
  quiet_bind; [quiet_done|].
  quiet_bind; [apply quiet_convert_md_to_html|].
  quiet_bind; [apply quiet_html_to_pdf_scan|].
  destruct a1.
  - quiet_bind; [|quiet_done].
    quiet_try; [apply quiet_os_unlink | quiet_done].
  - quiet_bind; [quiet_done|]. quiet_bind; [quiet_done|].
    quiet_bind; [|quiet_done].
    quiet_try; [|quiet_done].
    unfold webbrowser_open_. quiet_bind; [quiet_done|].
    destruct (webbrowser_open E _); quiet_done.
Qed.

Lemma quiet_convert_one output_path to_pdf hdr md_file :
  emits quiet (convert_one E output_path to_pdf hdr md_file).
Proof.
  unfold convert_one. destruct to_pdf;
    [apply quiet_convert_md_to_pdf | apply quiet_convert_md_to_html].
Qed.

End Journal.

Lemma outcome_lines_app j1 j2 :
  outcome_lines (j1 ++ j2) = (outcome_lines j1 ++ outcome_lines j2)%list.
Proof.
  induction j1 as [|e j1 IH]; [reflexivity|].
  destruct e; cbn [app outcome_lines]; try exact IH.
  destruct (is_outcome (ev_print l)); cbn [app]; now rewrite IH.
Qed.

Lemma outcome_lines_quiet evs : Forall quiet evs -> outcome_lines evs = [].
Proof.
  induction 1 as [|e evs He _ IH]; [reflexivity|].
  destruct e; cbn [outcome_lines]; try exact IH.
  unfold quiet in He. now rewrite He.
Qed.

Lemma outcome_lines_grows w w' :
  journal_grows quiet w w' ->
  outcome_lines (journal w') = outcome_lines (journal w).
Proof.
  intros (evs & -> & Hq).
  now rewrite outcome_lines_app, (outcome_lines_quiet _ Hq), app_nil_r.
Qed.

Lemma outcome_lines_outcome md_file r j :
  outcome_lines (j ++ [ev_print (outcome_line md_file r)])
  = (outcome_lines j ++ [outcome_line md_file r])%list.
Proof. rewrite outcome_lines_app. destruct r; reflexivity. Qed.

Lemma batch_trace_lines E output_path to_pdf hdr md_files w :
  outcome_lines
    (journal (fst (batch_trace E output_path to_pdf hdr md_files w)))
  = (outcome_lines (journal w)
     ++ trace_lines md_files
          (snd (batch_trace E output_path to_pdf hdr md_files w)))%list.
Proof.
  revert w. induction md_files as [|md_file rest IH]; intros w.
  - simpl. now rewrite app_nil_r.
  - rewrite batch_trace_cons. cbv zeta. cbn [fst snd].
    rewrite IH. unfold trace_lines. cbn [combine map fst snd].
    destruct (convert_one E output_path to_pdf hdr md_file w) as [w1 r] eqn:Hc.
    cbn [fst snd]. simpl journal.
    rewrite outcome_lines_outcome.
    rewrite (outcome_lines_grows _ _ (quiet_convert_one E _ _ _ _ _ _ _ Hc)).
    now rewrite <- app_assoc.
Qed.

Lemma trace_lines_errors md_files outcomes :
  List.length outcomes = List.length md_files ->
  List.length (filter is_error_line (trace_lines md_files outcomes))
  = failures outcomes.
Proof.
  revert outcomes. induction md_files as [|f fs IH]; intros [|[r|e] rs] H;
    simpl in *; try discriminate; try reflexivity.
  - apply IH. lia.
  - f_equal. apply IH. lia.
Qed.

(** X8.  A batch prints one line per matched file, in enumeration order:
    a success line naming the file and its result, or an error line
    naming the file and the exception caught.  Nothing else it does
    prints such a line, and the error lines are as many as the matched
    files that are missing from the results. *)
Theorem batch_prints_one_line_per_file E input_dir output_dir to_pdf pattern
    include_headers w w' results :
  batch_convert E input_dir output_dir to_pdf pattern include_headers w
  = (w', Ok results) ->
  exists w1 output_path md_files outcomes,
    glob E (files w1) (Path input_dir) pattern = Ok md_files
    /\ batch_trace E output_path to_pdf include_headers md_files w1
       = (w', outcomes)
    /\ outcome_lines (journal w')
       = (outcome_lines (journal w) ++ trace_lines md_files outcomes)%list
    /\ List.length (trace_lines md_files outcomes) = List.length md_files
    /\ List.length (filter is_error_line (trace_lines md_files outcomes))
       = List.length md_files - List.length results.
Proof.
  intros H. apply batch_convert_ok in H.
  destruct H as (w1 & output_path & md_files & _ & Ho & Hg & -> & ->).
  pose proof (batch_trace_length E output_path to_pdf include_headers
                md_files w1) as Hlen.
  exists w1, output_path, md_files,
    (snd (batch_trace E output_path to_pdf include_headers md_files w1)).
  split; [exact Hg|]. split; [apply surjective_pairing|]. split; [|split].
  - rewrite batch_trace_lines.
    now rewrite (outcome_lines_grows _ _
                   (quiet_output_directory _ _ _ _ _ Ho)).
  - unfold trace_lines. rewrite length_map, length_combine, Hlen. lia.
  - rewrite trace_lines_errors by exact Hlen.
    pose proof (successes_failures
                  (snd (batch_trace E output_path to_pdf include_headers
                          md_files w1))). lia.
Qed.

Lemma batch_prints_one_line_per_file_witness :
  exists w1 output_path md_files outcomes,
    glob env_no_browser (files w1) (Path "docs") "*.md" = Ok md_files
    /\ batch_trace env_no_browser output_path false true md_files w1
       = (fst (batch_convert env_no_browser "docs" None false "*.md" true
                 sample_world), outcomes)
    /\ outcome_lines
         (journal (fst (batch_convert env_no_browser "docs" None false "*.md"
                          true sample_world)))
       = (outcome_lines (journal sample_world)
          ++ trace_lines md_files outcomes)%list
    /\ List.length (trace_lines md_files outcomes) = List.length md_files
    /\ List.length (filter is_error_line (trace_lines md_files outcomes))
       = List.length md_files
         - List.length ["docs/my_notes.html"; "docs/todo_list.html"].
Proof.
  apply (batch_prints_one_line_per_file env_no_browser "docs" None false
           "*.md" true sample_world).
  vm_compute. reflexivity.
Defined.

(** ** The processes the HTML-to-PDF stage runs *)

Lemma runs_one_of_head c args : runs_one_of [c] (ev_run (c :: args)).
Proof. exists c, args. split; [reflexivity | now left]. Qed.

Lemma attempt_journal E chrome_path html_file pdf_file w :
  exists evs,
    journal (fst (attempt E chrome_path html_file pdf_file w))
    = (journal w ++ evs)%list
    /\ 1 <= List.length evs <= 2
    /\ Forall (runs_one_of [chrome_path]) evs
    /\ hd_error evs = Some (ev_run [chrome_path; "--version"]).
Proof.
  unfold attempt.
  pose proof (run_command_journal E [chrome_path; "--version"] 5 w) as Hj.
  destruct (run_command E [chrome_path; "--version"] 5 w) as [w1 [rc wr|e]];
    cbn [fst] in Hj.
  - destruct (Z.eqb rc 0).
    + match goal with
      | |- context [run_command E ?c 30 w1] =>
          pose proof (run_command_journal E c 30 w1) as Hj2;
          destruct (run_command E c 30 w1) as [w2 [rc' wr'|e]]
      end; cbn [fst] in Hj2 |- *;
        (eexists (_ :: _ :: nil); split;
         [rewrite Hj2, Hj, <- app_assoc; reflexivity|];
         split; [cbn [List.length]; lia|]; split; [|reflexivity];
         apply Forall_cons; [apply runs_one_of_head|];
         apply Forall_cons; [apply runs_one_of_head | apply Forall_nil]).
    + cbn [fst]. eexists. split; [exact Hj|].
      split; [cbn [List.length]; lia|]. split; [|reflexivity].
      apply Forall_cons; [apply runs_one_of_head | apply Forall_nil].
  - cbn [fst]. eexists. split; [exact Hj|].
    split; [cbn [List.length]; lia|]. split; [|reflexivity].
    apply Forall_cons; [apply runs_one_of_head | apply Forall_nil].
Qed.

Lemma runs_one_of_weaken c candidates evs :
  In c candidates -> Forall (runs_one_of [c]) evs ->
  Forall (runs_one_of candidates) evs.
Proof.
  intros Hin. apply Forall_impl. intros e (x & args & -> & [<-|[]]).
  exists c, args. auto.
Qed.

Lemma runs_one_of_cons c candidates evs :
  Forall (runs_one_of candidates) evs ->
  Forall (runs_one_of (c :: candidates)) evs.
Proof.
  apply Forall_impl. intros e (x & args & -> & Hin).
  exists x, args. split; [reflexivity | now right].
Qed.

Lemma first_success_journal E candidates html_file pdf_file w :
  exists evs,
    journal (fst (first_success E candidates html_file pdf_file w))
    = (journal w ++ evs)%list
    /\ List.length evs <= 2 * List.length candidates
    /\ Forall (runs_one_of candidates) evs.
Proof.
  revert w. induction candidates as [|c rest IH]; intros w.
  - exists []. simpl. rewrite app_nil_r. repeat split; auto.
  - simpl first_success.
    destruct (attempt_journal E c html_file pdf_file w)
      as (evs & Hj & [_ Hlen] & Hall & _).
    destruct (attempt E c html_file pdf_file w) as [w1 v]. cbn [fst] in Hj.
    assert (Hhere : Forall (runs_one_of (c :: rest)) evs)
      by (apply (runs_one_of_weaken c); [now left | exact Hall]).
    destruct v as [| |e].
    + exists evs. cbn [fst]. repeat split; auto. simpl. lia.
    + destruct (IH w1) as (evs' & Hj' & Hlen' & Hall').
      exists (evs ++ evs')%list. split; [|split].
      * now rewrite Hj', Hj, app_assoc.
      * rewrite length_app. simpl. lia.
      * apply Forall_app. split; [exact Hhere|].
        now apply runs_one_of_cons.
    + exists evs. cbn [fst]. repeat split; auto. simpl. lia.
Qed.

(** X9.  [html_to_pdf_chrome] runs at most fourteen commands, two for
    each of the seven candidates, and every command it runs is one of
    the candidates; it does nothing else that the journal records. *)
Theorem html_to_pdf_chrome_runs_candidates_only E html_file pdf_file w w' r :
  html_to_pdf_chrome E html_file pdf_file w = (w', r) ->
  exists evs,
    journal w' = (journal w ++ evs)%list
    /\ List.length evs <= 14
    /\ Forall (runs_one_of chrome_paths) evs.
Proof.
  intros H.
  destruct (first_success_journal E chrome_paths html_file pdf_file w)
    as (evs & Hj & Hlen & Hall).
  unfold html_to_pdf_chrome in H.
  rewrite html_to_pdf_scan_first_success in H. rewrite H in Hj.
  exists evs. split; [exact Hj|]. split; [exact Hlen | exact Hall].
Qed.

Lemma html_to_pdf_chrome_runs_candidates_only_witness :
  exists evs,
    journal (fst (html_to_pdf_chrome env_no_browser "notes.html"
                    (as_str "notes.pdf") sample_world))
    = (journal sample_world ++ evs)%list
    /\ List.length evs <= 14
    /\ Forall (runs_one_of chrome_paths) evs.
Proof.
  apply (html_to_pdf_chrome_runs_candidates_only env_no_browser "notes.html"
           (as_str "notes.pdf") sample_world
           (fst (html_to_pdf_chrome env_no_browser "notes.html"
                   (as_str "notes.pdf") sample_world))
           (snd (html_to_pdf_chrome env_no_browser "notes.html"
                   (as_str "notes.pdf") sample_world))).
  vm_compute. reflexivity.
Defined.

(** ** The exceptions and the files of a batch *)

Lemma is_file_not_dir f s : is_file f s = true -> is_dir f s = false.
Proof.
  unfold is_file, is_dir. destruct (fs_lookup f s) as [[|]|]; congruence.
Qed.

Lemma output_directory_on_file input_path d w w1 r :
  is_file (files w) d = true ->
  output_directory input_path (Some d) w = (w1, r) ->
  exists errno filename, r = Raise (OSError errno filename).
Proof.
  intros Hf H. destruct r as [output_path|e].
  - pose proof (output_directory_ok _ _ _ _ _ H) as (_ & Hd & [Hk _]).
    apply Hk in Hf. apply is_file_not_dir in Hf. congruence.
  - apply output_directory_raise in H.
    destruct H as (_ & errno & f & _ & ->). eauto.
Qed.

Section BatchEdges.

Variable E : Env.


End BatchEdges.



(** ** What a batch leaves on the disk *)





Lemma holds_page_written E input o hdr w w' out :
  convert_md_to_html E input o hdr w = (w', Ok out) ->
  holds_page (files w') out.
Proof.
  intros H. apply convert_md_to_html_written in H.
  destruct H as (bytes & md & doc & _ & _ & Hf & Hout).
  exists doc. split; [exact Hout|].
  rewrite full_html_page in Hf. now inversion Hf.
Qed.

Lemma holds_page_kept E input o hdr w w' r s :
  convert_md_to_html E input o hdr w = (w', r) ->
  holds_page (files w) s -> holds_page (files w') s.
Proof.
  intros H Hs. destruct r as [out|e].
  - destruct (string_dec (fs_key s) (fs_key out)) as [Heq|Hne].
    + destruct (holds_page_written _ _ _ _ _ _ _ H) as (doc & Hl & Hd).
      exists doc. split; [|exact Hd].
      now rewrite (fs_lookup_same_key _ s out Heq).
    + apply convert_md_to_html_ok in H.
      destruct H as (_ & _ & _ & doc' & _ & _ & _ & _ & _ & _ & _ & _ & _ & ->).
      destruct Hs as (doc & Hl & Hd). exists doc. split; [|exact Hd].
      simpl. now rewrite fs_lookup_set_other.
  - apply convert_md_to_html_raise in H.
    destruct H as [(_ & _ & ->) | [(_ & _ & _ & ->) | (_ & _ & Hf & _)]];
      auto.
    now rewrite Hf.
Qed.

Lemma html_trace_pages E output_path hdr md_files w :
  (forall s, holds_page (files w) s ->
             holds_page
               (files (fst (batch_trace E output_path false hdr md_files w)))
               s)
  /\ Forall
       (holds_page
          (files (fst (batch_trace E output_path false hdr md_files w))))
       (successes (snd (batch_trace E output_path false hdr md_files w))).
Proof.
  revert w. induction md_files as [|md_file rest IH]; intros w.
  - split; [auto | constructor].
  - rewrite batch_trace_cons. cbv zeta. cbn [fst snd].
    destruct (convert_one E output_path false hdr md_file w) as [w1 r] eqn:Hc.
    cbn [fst snd].
    destruct (IH (log (ev_print (outcome_line md_file r)) w1)) as [IH1 IH2].
    unfold convert_one in Hc. split.
    + intros s Hs. apply IH1. simpl files.
      now apply (holds_page_kept _ _ _ _ _ _ _ _ Hc).
    + destruct r as [out|e]; cbn [successes]; [|exact IH2].
      constructor; [|exact IH2].
      apply IH1. simpl files. now apply (holds_page_written _ _ _ _ _ _ _ Hc).
Qed.

(** X12.  Every path an HTML batch returns holds, when the call has
    returned, a complete document of the page template, also when a later
    file of the batch was written to the same path; in particular it is
    a regular file. *)
Theorem html_batch_results_hold_pages E input_dir output_dir pattern
    include_headers w w' results :
  batch_convert E input_dir output_dir false pattern include_headers w
  = (w', Ok results) ->
  Forall (holds_page (files w')) results
  /\ Forall (fun r => is_file (files w') r = true) results.
Proof.
  intros H. apply batch_convert_ok in H.
  destruct H as (w1 & output_path & md_files & _ & _ & _ & -> & ->).
  assert (Hp := proj2 (html_trace_pages E output_path include_headers
                         md_files w1)).
  split; [exact Hp|].
  revert Hp. apply Forall_impl. intros r (doc & Hl & _).
  unfold is_file. now rewrite Hl.
Qed.

Lemma html_batch_results_hold_pages_witness :
  let run := batch_convert env_no_browser "docs" None false "*.md" true
               sample_world in
  Forall (holds_page (files (fst run)))
    ["docs/my_notes.html"; "docs/todo_list.html"]
  /\ Forall (fun r => is_file (files (fst run)) r = true)
       ["docs/my_notes.html"; "docs/todo_list.html"].
Proof.
  apply (html_batch_results_hold_pages env_no_browser "docs" None "*.md" true
           sample_world).
  vm_compute. reflexivity.
Defined.

(** ** A batch given regular files for directories *)

Lemma is_mkdir_os_mkdir filename : emits is_mkdir (os_mkdir filename).
Proof.
  intros w w' r H. unfold os_mkdir in H.
  destruct (fs_lookup (files w) (parent_of filename)) as [[|]|];
    try (inversion H; subst; apply journal_grows_refl).
  destruct (fs_lookup (files w) filename);
    try destruct (creation_refused filename);
    inversion H; subst; try apply journal_grows_refl.
  exists [ev_mkdir filename]. split; [reflexivity|].
  constructor; [now exists filename | constructor].
Qed.

Lemma is_mkdir_forgive (c : bool) p e :
  emits is_mkdir (fun w : world =>
                    if c || negb (is_dir (files w) (str p))
                    then (w, @Raise unit e) else (w, Ok tt)).
Proof.
  intros w w' r H. destruct (c || _); inversion H; subst;
    apply journal_grows_refl.
Qed.

Lemma is_mkdir_mkdir_single p exist_ok :
  emits is_mkdir (mkdir_single p exist_ok).
Proof.
  unfold mkdir_single.
  apply emits_try; [apply is_mkdir_os_mkdir | intro; apply is_mkdir_forgive].
Qed.

Lemma is_mkdir_mkdir_parents r rparts exist_ok :
  emits is_mkdir (mkdir_parents r rparts exist_ok).
Proof.
  revert exist_ok. induction rparts as [|x rparent IH]; intros exist_ok;
    rewrite mkdir_parents_eq; cbv zeta;
    (apply emits_try; [apply is_mkdir_os_mkdir | intro e]);
    destruct (isinstance e cls_FileNotFoundError).
  - apply emits_raise.
  - apply is_mkdir_forgive.
  - apply emits_bind; [apply IH | intro; apply is_mkdir_mkdir_single].
  - apply is_mkdir_forgive.
Qed.

Lemma is_mkdir_output_directory input_path output_dir :
  emits is_mkdir (output_directory input_path output_dir).
Proof.
  unfold output_directory. destruct output_dir as [d|]; [|apply emits_ret].
  apply emits_bind; [|intro; apply emits_ret].
  unfold mkdir. apply is_mkdir_mkdir_parents.
Qed.

Lemma exists_of_is_file f s : is_file f s = true -> exists_ f s = true.
Proof.
  unfold is_file, exists_. destruct (fs_lookup f s) as [[|]|]; congruence.
Qed.

(** X13.  Regular files where [batch_convert] expects directories.  An
    input path that is a regular file, with no output directory,
    changes nothing: the call gives the empty list for a pattern [glob]
    selects with, and raises the exception of [glob] for one it refuses,
    such as a rooted one.  An output directory that is a regular file,
    as when the input path itself is passed for it, makes the call raise
    an [OSError]: no file is read or converted, the only steps taken
    being attempts to make directories. *)
Theorem batch_convert_on_regular_files E input_dir to_pdf pattern
    include_headers w :
  (is_file (files w) input_dir = true ->
   batch_convert E input_dir None to_pdf pattern include_headers w
   = (w, match glob_selector pattern with
         | Ok _ => Ok []
         | Raise e => Raise e
         end))
  /\ (forall d,
        exists_ (files w) input_dir = true ->
        is_file (files w) d = true ->
        exists w' errno filename,
          batch_convert E input_dir (Some d) to_pdf pattern include_headers w
          = (w', Raise (OSError errno filename))
          /\ journal_grows is_mkdir w w'
          /\ grows (files w) (files w')).
Proof.
  split.
  - intros Hf.
    rewrite batch_convert_found
      by (rewrite exists_key; now apply exists_of_is_file).
    unfold output_directory, bind, ret, glob, stat_is_dir.
    rewrite exists_key, (exists_of_is_file _ _ Hf).
    rewrite is_dir_key, (is_file_not_dir _ _ Hf).
    now destruct (glob_selector pattern).
  - intros d Hex Hf.
    rewrite batch_convert_found by (now rewrite exists_key).
    destruct (output_directory (Path input_dir) (Some d) w) as [w1 r] eqn:Ho.
    destruct (output_directory_on_file _ _ _ _ _ Hf Ho)
      as (errno & filename & ->).
    exists w1, errno, filename. split; [|split].
    + unfold bind. now rewrite Ho.
    + apply (is_mkdir_output_directory _ _ _ _ _ Ho).
    + apply (grows_output_directory _ _ _ _ _ Ho).
Qed.

Lemma batch_convert_on_regular_files_witness :
  batch_convert env_no_browser "notes.md" None false "*.md" true sample_world
  = (sample_world, Ok [])
  /\ exists w' errno filename,
       batch_convert env_no_browser "notes.md" (Some "notes.md") false "*.md"
         true sample_world
       = (w', Raise (OSError errno filename))
       /\ journal_grows is_mkdir sample_world w'
       /\ grows (files sample_world) (files w').
Proof.
  destruct (batch_convert_on_regular_files env_no_browser "notes.md" false
              "*.md" true sample_world) as [H1 H2].
  split.
  - apply H1. reflexivity.
  - apply H2; reflexivity.
Defined.

(** ** The exceptions of [convert_md_to_pdf] *)





(** ** An output directory that is there already *)

Lemma parent_of_key s : parent_of (str (Path s)) = parent_of s.
Proof. unfold parent_of. now rewrite Path_str_Path. Qed.

Lemma output_directory_present input_path d w :
  is_dir (files w) d = true ->
  is_dir (files w) (parent_of d) = true ->
  output_directory input_path (Some d) w = (w, Ok (Path d)).
Proof.
  intros Hd Hp. unfold output_directory, mkdir.
  assert (Hmk : mkdir_parents (root (Path d)) (rev (parts (Path d))) true w
                = (w, Ok tt)).
  { rewrite mkdir_parents_eq. cbv zeta. rewrite rev_involutive, path_eta.
    unfold try_except, os_mkdir. rewrite parent_of_key, fs_lookup_norm.
    unfold is_dir in Hd, Hp.
    destruct (fs_lookup (files w) (parent_of d)) as [[|]|]; try discriminate.
    destruct (fs_lookup (files w) d) as [[|]|] eqn:Hl; try discriminate.
    cbn [isinstance]. cbv iota.
    replace (isinstance (OSError EEXIST (str (Path d)))
               cls_FileNotFoundError) with false by reflexivity.
    unfold is_dir. now rewrite fs_lookup_norm, Hl. }
  unfold bind. now rewrite Hmk.
Qed.

(** X15.  Passing the input directory itself as the output directory, as
    the graphical front end does when its output field is empty, gives the
    run of a batch with no output directory, provided the path is a
    directory in an existing parent: nothing is made, and the results and
    the final state are the same. *)
Theorem batch_into_input_directory E input_dir d to_pdf pattern
    include_headers w :
  Path d = Path input_dir ->
  is_dir (files w) input_dir = true ->
  is_dir (files w) (parent_of input_dir) = true ->
  batch_convert E input_dir (Some d) to_pdf pattern include_headers w
  = batch_convert E input_dir None to_pdf pattern include_headers w.
Proof.
  intros Hk Hd Hp.
  assert (Hex : exists_ (files w) (str (Path input_dir)) = true).
  { rewrite exists_key. unfold is_dir in Hd. unfold exists_.
    destruct (fs_lookup (files w) input_dir); [reflexivity | discriminate]. }
  assert (Hkey : fs_key d = fs_key input_dir)
    by (unfold fs_key; now rewrite Hk).
  rewrite !batch_convert_found by exact Hex.
  unfold bind at 1 3.
  rewrite output_directory_present.
  - now rewrite Hk.
  - unfold is_dir in *. now rewrite (fs_lookup_same_key _ d input_dir Hkey).
  - unfold is_dir, parent_of in *. now rewrite Hk.
Qed.

Lemma batch_into_input_directory_witness :
  batch_convert env_no_browser "docs" (Some "docs/") false "*.md" true
    sample_world
  = batch_convert env_no_browser "docs" None false "*.md" true sample_world.
Proof.
  apply (batch_into_input_directory env_no_browser "docs" "docs/" false
           "*.md" true sample_world); reflexivity.
Defined.

(** * The graphical front end *)

(** ** The output path of the single-file handler *)

Lemma single_target_default v ext :
  ConverterGUI.output_dir_var v = EmptyString ->
  name (Path (ConverterGUI.file_var v)) <> EmptyString ->
  plain_ext ext ->
  exists q,
    with_suffix (Path (ConverterGUI.file_var v)) (String "." ext) = Ok q
    /\ ConverterGUI.single_target v (String "." ext) = str q.
Proof.
  intros Ho Hn He.
  set (p := Path (ConverterGUI.file_var v)) in *.
  assert (Hw : wf_path p) by apply Path_wf.
  destruct (wf_stem _ Hw Hn) as [Hs Hsl].
  pose proof (good_part_stem_ext _ _ Hs Hsl He) as Hg.
  exists (mkPath (root p) (removelast (parts p) ++ [stem p ++ String "." ext])).
  split.
  - rewrite with_suffix_spec by exact He.
    apply eqs_false in Hn. now rewrite Hn.
  - unfold ConverterGUI.single_target, ConverterGUI.single_output_dir.
    rewrite Ho, eqs_refl. fold p.
    rewrite (Path_str (parent p)) by (now apply wf_parent).
    now rewrite (joinpath_single _ _ Hg).
Qed.

(** X16.  With the output field left empty and a source path that has a
    name, the single-file handler calls the converter as a caller who
    gives no output path would: the path it builds from the parent and
    the stem of the source is the converter's default, and headers are
    included exactly when the box "remove headers" is not ticked. *)
Theorem single_call_is_default E v w :
  ConverterGUI.output_dir_var v = EmptyString ->
  name (Path (ConverterGUI.file_var v)) <> EmptyString ->
  ConverterGUI.single_call E v w
  = if eqs (ConverterGUI.output_format v) "pdf"
    then convert_md_to_pdf E (ConverterGUI.file_var v) None
           (negb (ConverterGUI.remove_headers v)) w
    else convert_md_to_html E (ConverterGUI.file_var v) None
           (negb (ConverterGUI.remove_headers v)) w.
Proof.
  intros Ho Hn. unfold ConverterGUI.single_call. cbv zeta.
  destruct (eqs (ConverterGUI.output_format v) "pdf").
  - destruct (single_target_default v "pdf" Ho Hn plain_pdf) as (q & Hq & ->).
    unfold convert_md_to_pdf, default_output. now rewrite Hq.
  - destruct (single_target_default v "html" Ho Hn plain_html) as (q & Hq & ->).
    unfold convert_md_to_html, default_output. rewrite Hq.
    destruct (negb (MARKDOWN_AVAILABLE E)); [reflexivity|].
    unfold bind.
    destruct (path_exists (Path (ConverterGUI.file_var v)) w)
      as [w0 [[|]|e]]; reflexivity.
Qed.

Lemma single_call_is_default_witness :
  ConverterGUI.single_call env_no_browser
    (ConverterGUI.mkWidgets "docs/my_notes.md" EmptyString EmptyString
       "html" true)
    sample_world
  = convert_md_to_html env_no_browser "docs/my_notes.md" None false
      sample_world.
Proof.
  apply (single_call_is_default env_no_browser
           (ConverterGUI.mkWidgets "docs/my_notes.md" EmptyString EmptyString
              "html" true)
           sample_world); [reflexivity | discriminate].
Defined.

(** ** The two handlers *)

Lemma dialogs_app evs evs' :
  ConverterGUI.dialogs (evs ++ evs')
  = (ConverterGUI.dialogs evs ++ ConverterGUI.dialogs evs')%list.
Proof.
  induction evs as [|s evs IH]; [reflexivity|].
  destruct s; cbn [app ConverterGUI.dialogs]; try exact IH.
  now rewrite IH.
Qed.

(** X17.  A click on "Convert File" never raises and shows exactly one
    message box.  With the file field empty it is the request to select
    a file, and nothing else happens.  Otherwise the converter is called
    once; the box reports the path it returned, or the exception it
    raised; two lines are logged; and the progress bar, started first, is
    stopped last, whatever the outcome.  The fields are left as they
    were. *)
Theorem convert_file_outcome E g :
  exists g' evs d,
    ConverterGUI.convert_file E g = (g', Ok tt)
    /\ ConverterGUI.vars g' = ConverterGUI.vars g
    /\ ConverterGUI.signals g' = (ConverterGUI.signals g ++ evs)%list
    /\ ConverterGUI.dialogs evs = [d]
    /\ if eqs (ConverterGUI.file_var (ConverterGUI.vars g)) EmptyString
       then d = ConverterGUI.showerror_select_file
            /\ evs = [ConverterGUI.shown d]
            /\ ConverterGUI.shell g' = ConverterGUI.shell g
       else ConverterGUI.single_call E (ConverterGUI.vars g)
              (ConverterGUI.shell g)
            = (ConverterGUI.shell g',
               match d with
               | ConverterGUI.showinfo_converted result => Ok result
               | ConverterGUI.showerror e => Raise e
               | _ => Raise (ValueError EmptyString)
               end)
            /\ ((exists result, d = ConverterGUI.showinfo_converted result)
                \/ (exists e, d = ConverterGUI.showerror e))
            /\ List.length evs = 5
            /\ hd_error evs = Some ConverterGUI.progress_start
            /\ last evs ConverterGUI.progress_start
               = ConverterGUI.progress_stop
            /\ forall before, ConverterGUI.running evs before = false.
Proof.
  unfold ConverterGUI.convert_file.
  destruct (eqs (ConverterGUI.file_var (ConverterGUI.vars g)) EmptyString).
  - eexists _, [_], _. unfold ConverterGUI.send. cbn.
    repeat split; reflexivity.
  - unfold ConverterGUI.convert_thread, ConverterGUI.gfinally,
      ConverterGUI.gtry, ConverterGUI.gthen, ConverterGUI.gbind,
      ConverterGUI.log, ConverterGUI.send, ConverterGUI.call.
    cbn [ConverterGUI.vars ConverterGUI.shell ConverterGUI.signals].
    destruct (ConverterGUI.single_call E (ConverterGUI.vars g)
                (ConverterGUI.shell g)) as [w' [result|e]].
    + exists (ConverterGUI.mkGui (ConverterGUI.vars g) w'
                (ConverterGUI.signals g
                 ++ [ConverterGUI.progress_start;
                     ConverterGUI.logged
                       (ConverterGUI.msg_converting
                          (name (Path (ConverterGUI.file_var
                                         (ConverterGUI.vars g)))));
                     ConverterGUI.logged (ConverterGUI.msg_success result);
                     ConverterGUI.shown
                       (ConverterGUI.showinfo_converted result);
                     ConverterGUI.progress_stop])).
      eexists _, (ConverterGUI.showinfo_converted result).
      cbn [ConverterGUI.vars ConverterGUI.shell ConverterGUI.signals].
      rewrite <- !app_assoc. cbn [app].
      split; [reflexivity|]. split; [reflexivity|]. split; [reflexivity|].
      split; [reflexivity|]. split; [reflexivity|].
      split; [left; eauto|]. repeat split; reflexivity.
    + rewrite isinstance_Exception.
      exists (ConverterGUI.mkGui (ConverterGUI.vars g) w'
                (ConverterGUI.signals g
                 ++ [ConverterGUI.progress_start;
                     ConverterGUI.logged
                       (ConverterGUI.msg_converting
                          (name (Path (ConverterGUI.file_var
                                         (ConverterGUI.vars g)))));
                     ConverterGUI.logged (ConverterGUI.msg_error e);
                     ConverterGUI.shown (ConverterGUI.showerror e);
                     ConverterGUI.progress_stop])).
      eexists _, (ConverterGUI.showerror e).
      cbn [ConverterGUI.vars ConverterGUI.shell ConverterGUI.signals].
      rewrite <- !app_assoc. cbn [app].
      split; [reflexivity|]. split; [reflexivity|]. split; [reflexivity|].
      split; [reflexivity|]. split; [reflexivity|].
      split; [right; eauto|]. repeat split; reflexivity.
Qed.

Lemma batch_convert_output_is_file E input_dir d to_pdf pattern hdr w :
  exists_ (files w) input_dir = true ->
  is_file (files w) d = true ->
  exists w' errno filename,
    batch_convert E input_dir (Some d) to_pdf pattern hdr w
    = (w', Raise (OSError errno filename)).
Proof.
  intros Hex Hf.
  rewrite batch_convert_found by (now rewrite exists_key).
  destruct (output_directory (Path input_dir) (Some d) w) as [w1 r] eqn:Ho.
  destruct (output_directory_on_file _ _ _ _ _ Hf Ho)
    as (errno & filename & ->).
  exists w1, errno, filename. unfold bind. now rewrite Ho.
Qed.

(** X18.  A click on "Batch Convert" never raises and shows exactly one
    message box.  With the directory field empty it is the request to
    select a directory, and nothing else happens.  Otherwise the
    converter's [batch_convert] is called once, with the pattern [*.md]
    and an output directory that is always given; the box reports the
    number of results, or the exception raised; the progress bar is
    started first and stopped last.  In particular a regular file named
    in the directory field, with the output field empty, ends in the
    error box of an [OSError], not in a report of no files. *)
Theorem batch_handler_outcome E g :
  exists g' evs d,
    ConverterGUI.batch_convert E g = (g', Ok tt)
    /\ ConverterGUI.vars g' = ConverterGUI.vars g
    /\ ConverterGUI.signals g' = (ConverterGUI.signals g ++ evs)%list
    /\ ConverterGUI.dialogs evs = [d]
    /\ if eqs (ConverterGUI.dir_var (ConverterGUI.vars g)) EmptyString
       then d = ConverterGUI.showerror_select_directory
            /\ evs = [ConverterGUI.shown d]
            /\ ConverterGUI.shell g' = ConverterGUI.shell g
       else (exists r,
               ConverterGUI.batch_call E (ConverterGUI.vars g)
                 (ConverterGUI.shell g)
               = (ConverterGUI.shell g', r)
               /\ match r with
                  | Ok results =>
                      d = ConverterGUI.showinfo_batch (List.length results)
                  | Raise e => d = ConverterGUI.showerror e
                  end)
            /\ List.length evs = 5
            /\ hd_error evs = Some ConverterGUI.progress_start
            /\ last evs ConverterGUI.progress_start
               = ConverterGUI.progress_stop
            /\ (forall before, ConverterGUI.running evs before = false)
            /\ (ConverterGUI.output_dir_var (ConverterGUI.vars g)
                = EmptyString ->
                is_file (files (ConverterGUI.shell g))
                  (ConverterGUI.dir_var (ConverterGUI.vars g)) = true ->
                exists errno filename,
                  d = ConverterGUI.showerror (OSError errno filename)).
Proof.
  unfold ConverterGUI.batch_convert.
  destruct (eqs (ConverterGUI.dir_var (ConverterGUI.vars g)) EmptyString).
  - eexists _, [_], _. unfold ConverterGUI.send. cbn.
    repeat split; reflexivity.
  - unfold ConverterGUI.batch_thread, ConverterGUI.gfinally,
      ConverterGUI.gtry, ConverterGUI.gthen, ConverterGUI.gbind,
      ConverterGUI.log, ConverterGUI.send, ConverterGUI.call.
    cbn [ConverterGUI.vars ConverterGUI.shell ConverterGUI.signals].
    destruct (ConverterGUI.batch_call E (ConverterGUI.vars g)
                (ConverterGUI.shell g)) as [w' [results|e]] eqn:Hcall.
    + exists (ConverterGUI.mkGui (ConverterGUI.vars g) w'
                (ConverterGUI.signals g
                 ++ [ConverterGUI.progress_start;
                     ConverterGUI.logged
                       (ConverterGUI.msg_batch_converting
                          (ConverterGUI.dir_var (ConverterGUI.vars g)));
                     ConverterGUI.logged
                       (ConverterGUI.msg_batch_completed
                          (List.length results));
                     ConverterGUI.shown
                       (ConverterGUI.showinfo_batch (List.length results));
                     ConverterGUI.progress_stop])).
      eexists _, (ConverterGUI.showinfo_batch (List.length results)).
      cbn [ConverterGUI.vars ConverterGUI.shell ConverterGUI.signals].
      rewrite <- !app_assoc. cbn [app].
      split; [reflexivity|]. split; [reflexivity|]. split; [reflexivity|].
      split; [reflexivity|].
      split; [exists (Ok results); split; reflexivity|].
      split; [reflexivity|]. split; [reflexivity|]. split; [reflexivity|].
      split; [reflexivity|].
      intros Ho Hf. exfalso.
      unfold ConverterGUI.batch_call, ConverterGUI.batch_output_dir in Hcall.
      rewrite Ho, eqs_refl in Hcall. cbv zeta in Hcall.
      destruct (batch_convert_output_is_file E _ _
                  (eqs (ConverterGUI.output_format (ConverterGUI.vars g)) "pdf")
                  "*.md" (negb (ConverterGUI.remove_headers
                                  (ConverterGUI.vars g)))
                  _ (exists_of_is_file _ _ Hf) Hf)
        as (w1 & errno & filename & Hr).
      rewrite Hr in Hcall. discriminate.
    + rewrite isinstance_Exception.
      exists (ConverterGUI.mkGui (ConverterGUI.vars g) w'
                (ConverterGUI.signals g
                 ++ [ConverterGUI.progress_start;
                     ConverterGUI.logged
                       (ConverterGUI.msg_batch_converting
                          (ConverterGUI.dir_var (ConverterGUI.vars g)));
                     ConverterGUI.logged (ConverterGUI.msg_batch_error e);
                     ConverterGUI.shown (ConverterGUI.showerror e);
                     ConverterGUI.progress_stop])).
      eexists _, (ConverterGUI.showerror e).
      cbn [ConverterGUI.vars ConverterGUI.shell ConverterGUI.signals].
      rewrite <- !app_assoc. cbn [app].
      split; [reflexivity|]. split; [reflexivity|]. split; [reflexivity|].
      split; [reflexivity|].
      split; [exists (Raise e); split; reflexivity|].
      split; [reflexivity|]. split; [reflexivity|]. split; [reflexivity|].
      split; [reflexivity|].
      intros Ho Hf.
      unfold ConverterGUI.batch_call, ConverterGUI.batch_output_dir in Hcall.
      rewrite Ho, eqs_refl in Hcall. cbv zeta in Hcall.
      destruct (batch_convert_output_is_file E _ _
                  (eqs (ConverterGUI.output_format (ConverterGUI.vars g)) "pdf")
                  "*.md" (negb (ConverterGUI.remove_headers
                                  (ConverterGUI.vars g)))
                  _ (exists_of_is_file _ _ Hf) Hf)
        as (w1 & errno & filename & Hr).
      rewrite Hr in Hcall. inversion Hcall; subst. eauto.
Qed.

(** * The icon script *)

Section IconScript.

Import create_icon.

Ltac icon_unfold H :=
  unfold create_simple_icon, load_font, create_fallback_icon,
    ithen, ibind, itry, ilift, iret, print, do in H.

Ltac icon_cases H :=
  repeat match type of H with
         | context [raises ?P ?h ?a] =>
             let R := fresh "R" in
             destruct (raises P h a) eqn:R
         end.

(** The font that [load_font] returns is the first that loads. *)
Lemma load_font_run P h h' r :
  load_font P h = (h', r) ->
  (r = Ok arial
   /\ h' = (h ++ [act_truetype "arial.ttf" 24])%list
   /\ raises P h (act_truetype "arial.ttf" 24) = None)
  \/ (r = Ok calibri
      /\ h' = (h ++ [act_truetype "arial.ttf" 24;
                     act_truetype "calibri.ttf" 24])%list
      /\ raises P h (act_truetype "arial.ttf" 24) <> None
      /\ raises P (h ++ [act_truetype "arial.ttf" 24])
           (act_truetype "calibri.ttf" 24) = None)
  \/ (h' = (h ++ [act_truetype "arial.ttf" 24;
                  act_truetype "calibri.ttf" 24; act_load_default])%list
      /\ raises P h (act_truetype "arial.ttf" 24) <> None
      /\ raises P (h ++ [act_truetype "arial.ttf" 24])
           (act_truetype "calibri.ttf" 24) <> None
      /\ match raises P (h ++ [act_truetype "arial.ttf" 24;
                               act_truetype "calibri.ttf" 24])
                 act_load_default with
         | None => r = Ok default_font
         | Some e => r = Raise e
         end).
Proof.
  intros H. icon_unfold H.
  destruct (raises P h (act_truetype "arial.ttf" 24)) as [e1|] eqn:R1.
  2:{ inversion H; subst. left. auto. }
  right.
  destruct (raises P (h ++ [act_truetype "arial.ttf" 24])
              (act_truetype "calibri.ttf" 24)) as [e2|] eqn:R2.
  2:{ inversion H; subst. left. rewrite <- app_assoc.
      repeat split; try reflexivity; congruence. }
  right. rewrite <- !app_assoc in *. cbn [app] in *.
  destruct (raises P _ act_load_default) as [e3|] eqn:R3;
    inversion H; subst; rewrite <- ?app_assoc; cbn [app];
    (split; [reflexivity|]); (split; [congruence|]);
    (split; [congruence|]); reflexivity.
Qed.

Lemma draw_run P h f h' r :
  (ithen (do P (act_textbbox (0, 0)%Z "MD" f))
     (fun h =>
        let xy := text_origin 64 (bbox P h f) in
        ithen (do P (act_text xy "MD" white f))
          (ithen
             (do P (act_polygon [(45, 15); (55, 20); (45, 25)]%Z white))
             (ithen
                (do P (act_save "icon.ico" "ICO"
                         [(16, 16); (32, 32); (48, 48); (64, 64)]%Z))
                (ithen (print line_icon_created) (iret true)))) h)) h
  = (h', r) ->
  (r = Ok true /\ h' = (h ++ drawing P h f)%list)
  \/ (exists e acts,
        r = Raise e /\ h' = (h ++ acts)%list
        /\ forallb pillow_call acts = true).
Proof.
  intros H. cbv zeta in H. icon_unfold H.
  destruct (raises P h (act_textbbox (0, 0)%Z "MD" f)) as [e|] eqn:R1.
  { inversion H; subst. right. exists e, [act_textbbox (0, 0)%Z "MD" f].
    auto. }
  destruct (raises P _ (act_text _ "MD" white f)) as [e|] eqn:R2.
  { inversion H; subst. right. rewrite <- app_assoc. cbn [app].
    eexists e, [_; _]. split; [reflexivity|]. split; reflexivity. }
  destruct (raises P _ (act_polygon _ white)) as [e|] eqn:R3.
  { inversion H; subst. right. rewrite <- !app_assoc. cbn [app].
    eexists e, [_; _; _]. split; [reflexivity|]. split; reflexivity. }
  destruct (raises P _ (act_save _ _ _)) as [e|] eqn:R4.
  { inversion H; subst. right. rewrite <- !app_assoc. cbn [app].
    eexists e, [_; _; _; _]. split; [reflexivity|]. split; reflexivity. }
  inversion H; subst. left. split; [reflexivity|].
  rewrite <- !app_assoc. reflexivity.
Qed.

Lemma forallb_pillow_app l l' :
  forallb pillow_call l = true -> forallb pillow_call l' = true ->
  forallb pillow_call (l ++ l') = true.
Proof. intros H H'. rewrite forallb_app. now rewrite H, H'. Qed.

(** The run of [create_simple_icon] with Pillow. *)
Lemma create_simple_icon_run P h h' r :
  PIL_AVAILABLE P = true ->
  create_simple_icon P h = (h', r) ->
  r <> Ok false
  /\ (r = Ok true ->
      exists loads f,
        let h1 := (h ++ [act_new "RGBA" (64, 64)%Z (52, 152, 219, 255)%Z;
                         act_Draw])%list
        in
        load_font P h1 = ((h1 ++ loads)%list, Ok f)
        /\ h' = ((h1 ++ loads) ++ drawing P (h1 ++ loads) f)%list
        /\ ((f = arial /\ loads = [act_truetype "arial.ttf" 24])
            \/ (f = calibri
                /\ loads = [act_truetype "arial.ttf" 24;
                            act_truetype "calibri.ttf" 24]
                /\ raises P h1 (act_truetype "arial.ttf" 24) <> None)
            \/ (f = default_font
                /\ loads = [act_truetype "arial.ttf" 24;
                            act_truetype "calibri.ttf" 24; act_load_default]
                /\ raises P h1 (act_truetype "arial.ttf" 24) <> None
                /\ raises P (h1 ++ [act_truetype "arial.ttf" 24])
                     (act_truetype "calibri.ttf" 24) <> None)))
  /\ (forall e, r = Raise e ->
                exists acts, h' = (h ++ acts)%list
                             /\ forallb pillow_call acts = true).
Proof.
  intros Ha H. unfold create_simple_icon in H. rewrite Ha in H.
  cbn [negb] in H. cbv zeta in H.
  unfold ithen at 1, ibind at 1, do at 1 in H.
  destruct (raises P h _) as [e0|] eqn:R0.
  { inversion H; subst. split; [discriminate|]. split; [discriminate|].
    intros e _. exists [act_new "RGBA" (64, 64)%Z (52, 152, 219, 255)%Z].
    auto. }
  unfold ithen at 1, ibind at 1, do at 1 in H.
  rewrite <- app_assoc in H. cbn [app] in H.
  set (h1 := (h ++ [act_new "RGBA" (64, 64)%Z (52, 152, 219, 255)%Z;
                    act_Draw])%list) in *.
  destruct (raises P _ act_Draw) as [e1|] eqn:R1.
  { inversion H; subst. split; [discriminate|]. split; [discriminate|].
    intros e _. eexists. split; reflexivity. }
  unfold ibind at 1 in H.
  destruct (load_font P h1) as [h2 [f|e]] eqn:Hl.
  2:{ inversion H; subst. split; [discriminate|]. split; [discriminate|].
      intros e' _. apply load_font_run in Hl.
      destruct Hl as [(Hr & _) | [(Hr & _) | (-> & _ & _ & Hr)]];
        try discriminate.
      unfold h1. rewrite <- app_assoc. cbn [app].
      eexists. split; reflexivity. }
  pose proof (load_font_run _ _ _ _ Hl) as Hf.
  assert (Hloads : exists loads,
             h2 = (h1 ++ loads)%list
             /\ forallb pillow_call loads = true
             /\ ((f = arial /\ loads = [act_truetype "arial.ttf" 24])
                 \/ (f = calibri
                     /\ loads = [act_truetype "arial.ttf" 24;
                                 act_truetype "calibri.ttf" 24]
                     /\ raises P h1 (act_truetype "arial.ttf" 24) <> None)
                 \/ (f = default_font
                     /\ loads = [act_truetype "arial.ttf" 24;
                                 act_truetype "calibri.ttf" 24;
                                 act_load_default]
                     /\ raises P h1 (act_truetype "arial.ttf" 24) <> None
                     /\ raises P (h1 ++ [act_truetype "arial.ttf" 24])
                          (act_truetype "calibri.ttf" 24) <> None))).
  { destruct Hf as [(Hr & -> & _) | [(Hr & -> & Hn & _) | (-> & Hn & Hn' & Hr)]].
    - inversion Hr; subst. eexists. split; [reflexivity|]. split; auto.
    - inversion Hr; subst. eexists. split; [reflexivity|]. split; auto.
    - destruct (raises P _ act_load_default); inversion Hr; subst.
      eexists. split; [reflexivity|]. split; auto 6. }
  destruct Hloads as (loads & -> & Hp & Hcase).
  apply draw_run in H.
  destruct H as [(-> & ->) | (e & acts & -> & -> & Hacts)].
  - split; [discriminate|]. split; [|discriminate].
    intros _. exists loads, f. cbv zeta. fold h1. auto.
  - split; [discriminate|]. split; [discriminate|].
    intros e' _. unfold h1. rewrite <- !app_assoc.
    eexists. split; [reflexivity|].
    cbn [app forallb pillow_call andb]. now apply forallb_pillow_app.
Qed.

(** X19.  With Pillow available, [create_simple_icon] never returns
    [False]: it returns [True] or raises.  When it returns, the font it
    drew with is the first of Arial, Calibri and the default font that
    loaded, a font being tried only when those before it failed; the
    calls are the new image and its drawing context, the font loads,
    and then the bounding box, the text at [text_origin], the arrow, the
    save of [icon.ico] and the one line printed, in this order.  When it
    raises it has printed nothing. *)
Theorem create_simple_icon_with_pillow P h h' r :
  PIL_AVAILABLE P = true ->
  create_simple_icon P h = (h', r) ->
  r <> Ok false
  /\ (r = Ok true ->
      exists loads f,
        let h1 := (h ++ [act_new "RGBA" (64, 64)%Z (52, 152, 219, 255)%Z;
                         act_Draw])%list
        in
        load_font P h1 = ((h1 ++ loads)%list, Ok f)
        /\ h' = ((h1 ++ loads) ++ drawing P (h1 ++ loads) f)%list
        /\ ((f = arial /\ loads = [act_truetype "arial.ttf" 24])
            \/ (f = calibri
                /\ loads = [act_truetype "arial.ttf" 24;
                            act_truetype "calibri.ttf" 24]
                /\ raises P h1 (act_truetype "arial.ttf" 24) <> None)
            \/ (f = default_font
                /\ loads = [act_truetype "arial.ttf" 24;
                            act_truetype "calibri.ttf" 24; act_load_default]
                /\ raises P h1 (act_truetype "arial.ttf" 24) <> None
                /\ raises P (h1 ++ [act_truetype "arial.ttf" 24])
                     (act_truetype "calibri.ttf" 24) <> None)))
  /\ (forall e, r = Raise e ->
                exists acts, h' = (h ++ acts)%list
                             /\ forallb pillow_call acts = true).
Proof.
  intros Ha H. exact (create_simple_icon_run P h h' r Ha H).
Qed.

Lemma create_fallback_icon_raises P h :
  create_fallback_icon P h
  = (h, Raise (ValueError "bytes must be in range(0, 256)")).
Proof. reflexivity. Qed.

Lemma pillow_calls_only acts :
  forallb pillow_call acts = true ->
  existsb is_write acts = false /\ forall l, ~ In (act_print l) acts.
Proof.
  induction acts as [|a acts IH]; intros H; [split; [reflexivity | now intros l []]|].
  cbn [forallb] in H. apply andb_true_iff in H. destruct H as [Ha H].
  destruct (IH H) as [IH1 IH2]. split.
  - cbn [existsb]. rewrite IH1. now destruct a.
  - intros l [Hl|Hl]; [subst a; discriminate | now apply (IH2 l)].
Qed.

(** X20.  [create_fallback_icon] raises a [ValueError] on every call,
    before it opens any file: [bytes([0x3498db, 0xff])] is outside the
    range of a byte, and the statement stands before the [try].  So the
    script, run without Pillow, prints four lines and ends in this
    exception, without writing a file and without printing its last line;
    and in no run does the script write a file itself or print that the
    fallback succeeded or that the creation failed.  It ends normally
    only with Pillow, after [icon.ico] was saved. *)
Theorem script_outcome P h h' r :
  script P h = (h', r) ->
  create_fallback_icon P h
  = (h, Raise (ValueError "bytes must be in range(0, 256)"))
  /\ exists acts,
       h' = (h ++ acts)%list
       /\ existsb is_write acts = false
       /\ (forall l, In (act_print l) acts -> In l script_lines)
       /\ (In (act_print line_done) acts <-> r = Ok tt)
       /\ (r = Ok tt ->
           PIL_AVAILABLE P = true /\ existsb is_save acts = true)
       /\ (PIL_AVAILABLE P = false ->
           acts = [act_print line_creating; act_print line_pil_missing;
                   act_print line_install_hint;
                   act_print line_trying_fallback]
           /\ r = Raise (ValueError "bytes must be in range(0, 256)")).
Proof.
  intros H. split; [apply create_fallback_icon_raises|].
  unfold script in H. unfold ithen at 1, ibind at 1, print at 1 in H.
  unfold ibind at 1 in H.
  destruct (PIL_AVAILABLE P) eqn:Ha.
  - destruct (create_simple_icon P (h ++ [act_print line_creating])%list)
      as [h1 [created|e]] eqn:Hc.
    + destruct (create_simple_icon_run _ _ _ _ Ha Hc) as (Hnf & Hok & _).
      destruct created; [|congruence].
      destruct (Hok eq_refl) as (loads & f & Hl & -> & Hcase).
      cbn in H. inversion H; subst h' r. clear H.
      unfold drawing.
      destruct Hcase as [(-> & ->) | [(-> & -> & _) | (-> & -> & _)]];
        rewrite <- !app_assoc; cbn [app];
        (eexists; split; [reflexivity|]);
        (split; [reflexivity|]);
        (split; [intros l Hin; cbn in Hin |- *;
                 repeat (destruct Hin as [Hin|Hin];
                         [inversion Hin; auto 10|]);
                 contradiction|]);
        (split; [split; [reflexivity | intros _; cbn; intuition reflexivity]|]);
        (split; [intros _; split; reflexivity | discriminate]).
    + destruct (create_simple_icon_run _ _ _ _ Ha Hc) as (_ & _ & Hr).
      destruct (Hr e eq_refl) as (acts & -> & Hacts).
      inversion H; subst h' r. clear H.
      destruct (pillow_calls_only _ Hacts) as [Hw Hp].
      rewrite <- app_assoc. cbn [app].
      eexists. split; [reflexivity|].
      split; [cbn [existsb is_write orb]; exact Hw|].
      split; [intros l [Hin|Hin];
              [inversion Hin; cbn; auto | now apply Hp in Hin]|].
      split; [split; [intros [Hin|Hin];
                      [discriminate | now apply Hp in Hin]
                     | discriminate]|].
      split; discriminate.
  - unfold create_simple_icon in H. rewrite Ha in H. cbn in H.
    inversion H; subst h' r. clear H.
    rewrite <- !app_assoc. cbn [app].
    eexists. split; [reflexivity|].
    split; [reflexivity|].
    split; [intros l Hin; cbn in Hin |- *;
            repeat (destruct Hin as [Hin|Hin]; [inversion Hin; auto 10|]);
            contradiction|].
    split; [split; [intros Hin; cbn in Hin;
                    repeat (destruct Hin as [Hin|Hin]; [discriminate|]);
                    contradiction
                   | discriminate]|].
    split; [discriminate | auto].
Qed.

End IconScript.

Lemma create_simple_icon_with_pillow_witness :
  let P := create_icon.pillow_without_arial in
  let run := create_icon.create_simple_icon P [] in
  snd run <> Ok false
  /\ (snd run = Ok true ->
      exists loads f,
        let h1 := [create_icon.act_new "RGBA" (64, 64)%Z
                     (52, 152, 219, 255)%Z; create_icon.act_Draw] in
        create_icon.load_font P h1 = ((h1 ++ loads)%list, Ok f)
        /\ fst run
           = ((h1 ++ loads) ++ create_icon.drawing P (h1 ++ loads) f)%list
        /\ ((f = create_icon.arial
             /\ loads = [create_icon.act_truetype "arial.ttf" 24])
            \/ (f = create_icon.calibri
                /\ loads = [create_icon.act_truetype "arial.ttf" 24;
                            create_icon.act_truetype "calibri.ttf" 24]
                /\ create_icon.raises P h1
                     (create_icon.act_truetype "arial.ttf" 24) <> None)
            \/ (f = create_icon.default_font
                /\ loads = [create_icon.act_truetype "arial.ttf" 24;
                            create_icon.act_truetype "calibri.ttf" 24;
                            create_icon.act_load_default]
                /\ create_icon.raises P h1
                     (create_icon.act_truetype "arial.ttf" 24) <> None
                /\ create_icon.raises P
                     (h1 ++ [create_icon.act_truetype "arial.ttf" 24])
                     (create_icon.act_truetype "calibri.ttf" 24) <> None)))
  /\ (forall e, snd run = Raise e ->
                exists acts, fst run = ([] ++ acts)%list
                             /\ forallb create_icon.pillow_call acts = true).
Proof.
  apply (create_simple_icon_with_pillow create_icon.pillow_without_arial []);
    reflexivity.
Defined.

Lemma script_outcome_witness :
  create_icon.create_fallback_icon create_icon.no_pillow []
  = ([], Raise (ValueError "bytes must be in range(0, 256)"))
  /\ exists acts,
       fst (create_icon.script create_icon.no_pillow []) = ([] ++ acts)%list
       /\ existsb create_icon.is_write acts = false
       /\ (forall l, In (create_icon.act_print l) acts ->
                     In l create_icon.script_lines)
       /\ (In (create_icon.act_print create_icon.line_done) acts
           <-> snd (create_icon.script create_icon.no_pillow []) = Ok tt)
       /\ (snd (create_icon.script create_icon.no_pillow []) = Ok tt ->
           create_icon.PIL_AVAILABLE create_icon.no_pillow = true
           /\ existsb create_icon.is_save acts = true)
       /\ (create_icon.PIL_AVAILABLE create_icon.no_pillow = false ->
           acts = [create_icon.act_print create_icon.line_creating;
                   create_icon.act_print create_icon.line_pil_missing;
                   create_icon.act_print create_icon.line_install_hint;
                   create_icon.act_print create_icon.line_trying_fallback]
           /\ snd (create_icon.script create_icon.no_pillow [])
              = Raise (ValueError "bytes must be in range(0, 256)")).
Proof.
  apply (script_outcome create_icon.no_pillow []
           (fst (create_icon.script create_icon.no_pillow []))
           (snd (create_icon.script create_icon.no_pillow []))).
  reflexivity.
Defined.

(** ** Centring *)

Lemma half_split (a : Z) : (0 <= a - 2 * (a / 2) <= 1)%Z.
Proof.
  pose proof (Z.div_mod a 2 ltac:(lia)) as H.
  pose proof (Z.mod_pos_bound a 2 ltac:(lia)) as H'. lia.
Qed.

(** X21.  The text of the icon is placed so that the space its bounding
    box leaves in the image is split evenly, the odd pixel going to the
    right and to the bottom; the box being measured from the origin, the
    box of the text drawn at that place, which is the measured one moved
    by it, has margins that differ by twice the offset of the measured
    box, or one pixel less: the text is centred when the measured box
    starts at zero. *)
Theorem icon_text_centered size x0 y0 x1 y1 :
  let '(x, y) := create_icon.text_origin size (x0, y0, x1, y1) in
  (0 <= (size - (x1 - x0)) - 2 * x <= 1
   /\ 0 <= (size - (y1 - y0)) - 2 * y <= 1
   /\ 0 <= ((size - (x + x1)) - (x + x0)) + 2 * x0 <= 1
   /\ 0 <= ((size - (y + y1)) - (y + y0)) + 2 * y0 <= 1)%Z.
Proof.
  unfold create_icon.text_origin.
  pose proof (half_split (size - (x1 - x0))).
  pose proof (half_split (size - (y1 - y0))). lia.
Qed.

(** X22.  The window is moved so that its centre is the centre of the
    screen, to a pixel: the margins left and right of it differ by one
    at most, and so do those above and below; its size is kept.  A
    window that fits the screen lies on the screen. *)
Theorem window_centered width height screenwidth screenheight :
  let '(w, h, x, y) :=
    centered_geometry width height screenwidth screenheight in
  (w = width /\ h = height
   /\ -1 <= (screenwidth - (x + width)) - x <= 1
   /\ -1 <= (screenheight - (y + height)) - y <= 1
   /\ (0 <= width <= screenwidth -> 0 <= x /\ x + width <= screenwidth)
   /\ (0 <= height <= screenheight ->
       0 <= y /\ y + height <= screenheight))%Z.
Proof.
  unfold centered_geometry. cbv zeta.
  pose proof (half_split width). pose proof (half_split height).
  pose proof (half_split screenwidth). pose proof (half_split screenheight).
  repeat split; lia.
Qed.

Lemma window_centered_witness :
  ((0 <= 610 /\ 610 + 700 <= 1920) /\ (0 <= 240 /\ 240 + 600 <= 1080))%Z.
Proof.
  pose proof (window_centered 700 600 1920 1080) as H.
  change (centered_geometry 700 600 1920 1080)
    with (700, 600, 610, 240)%Z in H.
  cbv beta iota in H. destruct H as (_ & _ & _ & _ & Hx & Hy).
  split; [apply Hx | apply Hy]; lia.
Defined.

Lemma batch_handler_outcome_witness :
  let g := ConverterGUI.mkGui
             (ConverterGUI.mkWidgets EmptyString "notes.md" EmptyString
                "html" false)
             sample_world [] in
  exists g' evs errno filename,
    ConverterGUI.batch_convert env_no_browser g = (g', Ok tt)
    /\ ConverterGUI.signals g' = evs
    /\ ConverterGUI.dialogs evs
       = [ConverterGUI.showerror (OSError errno filename)].
Proof.
  intros g.
  destruct (batch_handler_outcome env_no_browser g)
    as (g' & evs & d & Hrun & _ & Hs & Hd & H).
  change (eqs (ConverterGUI.dir_var (ConverterGUI.vars g)) EmptyString)
    with false in H.
  destruct H as (_ & _ & _ & _ & _ & Hfile).
  destruct (Hfile eq_refl eq_refl) as (errno & filename & ->).
  exists g', evs, errno, filename. auto.
Defined.

(** * The entry point *)

Section Launcher.

Import launcher.

(** X23.  Without the Markdown library, [main] raises
    [UnboundLocalError] at its first statement and does nothing else: no
    window, no message box, no offer to install, no [pip].  The name [tk]
    it uses there is a local variable of [main], bound only by the
    [import] statements of the handlers at its end, and the [except
    ImportError] clause around the statement does not catch the error. *)
Theorem main_without_markdown H s s' r :
  MARKDOWN_AVAILABLE H = false ->
  tk s = false ->
  main H s = (s', r) ->
  s' = s /\ r = Raises (UnboundLocalError "tk").
Proof.
  intros Ha Htk Hrun. unfold main in Hrun. rewrite Ha in Hrun.
  cbn [negb] in Hrun.
  unfold offer_install, ltry, Tk, lthen, lbind, load_tk in Hrun.
  rewrite Htk in Hrun. cbn [is_ImportError] in Hrun.
  now inversion Hrun.
Qed.

Ltac host_cases Hrun :=
  repeat (match type of Hrun with
          | context [raises ?H ?l ?a] =>
              let R := fresh "R" in
              destruct (raises H l a) eqn:R
          | context [is_ImportError ?e] =>
              let I := fresh "I" in
              destruct (is_ImportError e) eqn:I
          end; cbn in Hrun).

(** X24.  With the Markdown library, [main] never raises: it makes the
    window and runs it, and an exception of either step ends in one
    error box, or in printed lines when the box cannot be shown.  It
    never runs [pip], shows one message box at most, and when the two
    steps return it does nothing else. *)
Theorem main_with_markdown H s' r :
  MARKDOWN_AVAILABLE H = true ->
  main H entry = (s', r) ->
  r = Returns tt
  /\ hd_error (acts s') = Some act_ConverterGUI
  /\ ~ In act_pip (acts s')
  /\ List.length (filter is_box (acts s')) <= 1
  /\ (raises H [] act_ConverterGUI = None ->
      raises H [act_ConverterGUI] act_run = None ->
      acts s' = [act_ConverterGUI; act_run]).
Proof.
  intros Ha Hrun. unfold main in Hrun. rewrite Ha in Hrun.
  cbn [negb] in Hrun.
  unfold launch, report, ltry, everything, import_tkinter, import_messagebox,
    Tk, show, lthen, lbind, lret, load_tk, load_messagebox, do, print, record,
    entry in Hrun.
  cbn in Hrun.
  host_cases Hrun;
    inversion Hrun; subst s' r; clear Hrun; cbn;
    (split; [reflexivity|]); (split; [reflexivity|]);
    (split; [intuition discriminate|]);
    (split; [lia|]); congruence.
Qed.

End Launcher.

Lemma main_without_markdown_witness :
  fst (launcher.main (launcher.sample_host false) launcher.entry)
  = launcher.entry
  /\ snd (launcher.main (launcher.sample_host false) launcher.entry)
     = launcher.Raises (launcher.UnboundLocalError "tk").
Proof.
  apply (main_without_markdown (launcher.sample_host false) launcher.entry);
    reflexivity.
Defined.

Lemma main_with_markdown_witness :
  let s' := fst (launcher.main (launcher.sample_host true) launcher.entry) in
  snd (launcher.main (launcher.sample_host true) launcher.entry)
  = launcher.Returns tt
  /\ hd_error (launcher.acts s') = Some launcher.act_ConverterGUI
  /\ ~ In launcher.act_pip (launcher.acts s')
  /\ List.length (filter launcher.is_box (launcher.acts s')) <= 1
  /\ (launcher.raises (launcher.sample_host true) []
        launcher.act_ConverterGUI = None ->
      launcher.raises (launcher.sample_host true)
        [launcher.act_ConverterGUI] launcher.act_run = None ->
      launcher.acts s' = [launcher.act_ConverterGUI; launcher.act_run]).
Proof.
  apply (main_with_markdown (launcher.sample_host true)); reflexivity.
Defined.

(** * An HTML batch stays in its output directory *)












